(** * Smart Fridge AI: expiry classification, alerting and recipe fallback

    A shallow embedding of [config.py], [database.py], [expiry_tracker.py]
    and the rule-based part of [recipe_generator.py], with the properties
    of the classification and alerting engine proved over it.

    Representation choices, fixed once for the whole development:

    - A Python [datetime] (local, naive) is the number of microseconds
      since an epoch, a [Z].  Subtracting two of them gives a [timedelta],
      normalised as CPython and pandas do: [seconds] and [microseconds]
      are never negative and the sign lives in [days].
    - The column [expiry_date] holds ['%Y-%m-%d'] text (that is what
      [dashboard.py] and [food_detector.py] write) or NULL.  Such a text is
      represented by the number of the calendar day it names; ISO dates
      compare as text exactly as their day numbers compare, and
      [pd.to_datetime] sends the text to midnight of that day.
    - SQLite's [CURRENT_TIMESTAMP] and [date('now')] read the UTC clock in
      seconds; a reading is passed to the operation that uses it.
    - A table is the list of its rows in rowid order. *)

From Stdlib Require Import ZArith List String Ascii Bool Lia.
From Stdlib Require Import Floats Uint63 DecimalString.
From Stdlib Require Import Sorted Permutation.
Import ListNotations.

Local Open Scope string_scope.
Local Open Scope Z_scope.
Local Open Scope list_scope.

Set Implicit Arguments.

(* ================================================================== *)
(** ** config.py *)

Module config.

(** [ALERT_THRESHOLDS], a dict with the three keys below (in days). *)
Record AlertThresholds : Type := {
  thr_critical : Z;
  thr_warning  : Z;
  thr_normal   : Z
}.

Definition ALERT_THRESHOLDS : AlertThresholds :=
  {| thr_critical := 1; thr_warning := 3; thr_normal := 7 |}.

Definition ENABLE_DESKTOP_NOTIFICATIONS : bool := true.

Definition MAX_INGREDIENTS_FOR_RECIPE : Z := 10.


(** [FOOD_CATEGORIES] *)
Definition FOOD_CATEGORIES : list string :=
  [ "Vegetables"; "Fruits"; "Dairy"; "Meat"; "Seafood"; "Beverages";
    "Condiments"; "Leftovers"; "Frozen"; "Others" ].

(** [DEFAULT_SHELF_LIFE], a dict from category to days. *)
Definition DEFAULT_SHELF_LIFE : list (string * Z) :=
  [ ("Vegetables", 7); ("Fruits", 5); ("Dairy", 7); ("Meat", 3);
    ("Seafood", 2); ("Beverages", 30); ("Condiments", 180);
    ("Leftovers", 3); ("Frozen", 90); ("Others", 7) ].

(** [RECIPE_API_KEY = os.getenv('OPENAI_API_KEY', '')] *)
Definition RECIPE_API_KEY (OPENAI_API_KEY : option string) : string :=
  match OPENAI_API_KEY with
  | Some k => k
  | None => ""
  end.

End config.

(* ================================================================== *)
(** ** datetime / timedelta *)

Module datetime.

Definition US_PER_SECOND : Z := 1000000.
Definition SECONDS_PER_DAY : Z := 86400.
Definition US_PER_DAY : Z := SECONDS_PER_DAY * US_PER_SECOND.

(** A normalised time difference: [0 <= seconds < 86400] and
    [0 <= microseconds < 10^6]; a negative difference has a negative
    [days] and the remainder counted upwards from it. *)
Record timedelta : Type := {
  days : Z;
  seconds : Z;
  microseconds : Z
}.

(** Normalisation by [divmod], as the constructor of [timedelta] does. *)
Definition timedelta_of_us (us : Z) : timedelta :=
  {| days := us / US_PER_DAY;
     seconds := (us mod US_PER_DAY) / US_PER_SECOND;
     microseconds := us mod US_PER_SECOND |}.

Definition total_us (d : timedelta) : Z :=
  days d * US_PER_DAY + seconds d * US_PER_SECOND + microseconds d.

(** [a - b] on two datetimes. *)
Definition sub (a b : Z) : timedelta := timedelta_of_us (a - b).

(** [a + timedelta(days=n)]. *)
Definition add_days (a n : Z) : Z := a + n * US_PER_DAY.

(** [pd.to_datetime] on a ['%Y-%m-%d'] text: midnight of that day. *)
Definition to_datetime (day : Z) : Z := day * US_PER_DAY.

(** [.strftime('%Y-%m-%d')]: the calendar day a datetime falls in. *)
Definition strftime_Ymd (t : Z) : Z := t / US_PER_DAY.

End datetime.

(** [str(n)] / the [{n}] of an f-string on an [int]. *)
Definition str_of_int (n : Z) : string := NilZero.string_of_int (Z.to_int n).

(** What a call leaves behind: the value it returns or the exception it
    raises (named by its Python class). *)
Inductive result (A : Type) : Type :=
| Returned (a : A)
| Raised (exn : string).

Arguments Returned {A} a.
Arguments Raised {A} exn.

Definition bind {A B : Type} (c : result A) (k : A -> result B) : result B :=
  match c with
  | Returned a => k a
  | Raised e => Raised e
  end.

Notation "x <- c ;; k" := (bind c (fun x => k))
  (at level 61, c at next level, right associativity).

(** The two clocks a call reads.  A call of one of the tracker's methods
    is short; it is given one reading of each clock, used wherever its
    body (and the store operations it calls) asks for the time. *)
Record Clock : Type := {
  now : Z;      (* datetime.now(), microseconds *)
  utc : Z       (* SQLite CURRENT_TIMESTAMP / 'now', seconds *)
}.

(* ================================================================== *)
(** ** database.py *)

Module database.

(** A row of [food_items]. *)
Record FoodItem : Type := {
  id : Z;
  name : string;
  category : option string;
  quantity : option Z;
  unit_ : option string;
  storage_date : Z;
  expiry_date : option Z;
  location : option string;
  barcode : option string;
  image_path : option string;
  confidence_score : option float;
  status : string;
  notes : option string;
  last_updated : Z
}.

(** A row of [alerts]. *)
Record Alert : Type := {
  alert_id : Z;
  food_item_id : Z;
  alert_type : string;
  alert_level : string;
  message : string;
  created_date : Z;
  is_read : bool
}.

(** The two tables the tracker works on, each with the counter that
    AUTOINCREMENT keeps for it. *)
Record DB : Type := {
  food_items : list FoodItem;
  food_items_seq : Z;
  alerts : list Alert;
  alerts_seq : Z
}.

(** [initialize_database] on a fresh file. *)
Definition initialize_database : DB :=
  {| food_items := []; food_items_seq := 0; alerts := []; alerts_seq := 0 |}.

(** The argument of [add_food_item]: a dict read with [.get]; an absent
    key is [None]. *)
Record item_data : Type := {
  d_name : option string;
  d_category : option string;
  d_quantity : option Z;
  d_unit : option string;
  d_expiry_date : option Z;
  d_location : option string;
  d_barcode : option string;
  d_image_path : option string;
  d_confidence_score : option float;
  d_notes : option string
}.

Definition get_default {A : Type} (o : option A) (d : A) : option A :=
  match o with
  | Some a => Some a
  | None => Some d
  end.

(** INSERT INTO food_items: [storage_date], [status] and [last_updated]
    take their column defaults; [name] is NOT NULL. *)
Definition add_food_item (ts : Z) (d : item_data) (db : DB) : result (Z * DB) :=
  match d_name d with
  | None => Raised "IntegrityError"
  | Some n =>
      let item_id := food_items_seq db + 1 in
      let row :=
        {| id := item_id;
           name := n;
           category := d_category d;
           quantity := get_default (d_quantity d) 1;
           unit_ := get_default (d_unit d) "piece";
           storage_date := ts;
           expiry_date := d_expiry_date d;
           location := get_default (d_location d) "main_compartment";
           barcode := d_barcode d;
           image_path := d_image_path d;
           confidence_score := d_confidence_score d;
           status := "fresh";
           notes := d_notes d;
           last_updated := ts |} in
      Returned (item_id,
                {| food_items := food_items db ++ [row];
                   food_items_seq := item_id;
                   alerts := alerts db;
                   alerts_seq := alerts_seq db |})
  end.

(** Comparison of two [expiry_date] cells for ORDER BY ... ASC: NULL
    sorts before every date. *)
Definition expiry_leb (a b : option Z) : bool :=
  match a, b with
  | None, _ => true
  | Some _, None => false
  | Some x, Some y => x <=? y
  end.

Fixpoint insert_row (r : FoodItem) (l : list FoodItem) : list FoodItem :=
  match l with
  | [] => [r]
  | h :: t =>
      if expiry_leb (expiry_date r) (expiry_date h) then r :: h :: t
      else h :: insert_row r t
  end.

(** ORDER BY expiry_date ASC; rows with equal dates stay in rowid order. *)
Fixpoint order_by_expiry_date (l : list FoodItem) : list FoodItem :=
  match l with
  | [] => []
  | h :: t => insert_row h (order_by_expiry_date t)
  end.

(** SELECT * FROM food_items WHERE status != 'consumed' OR ? = 1
    ORDER BY expiry_date ASC *)
Definition get_all_items (include_consumed : bool) (db : DB) : list FoodItem :=
  order_by_expiry_date
    (filter (fun r => negb (String.eqb (status r) "consumed") || include_consumed)
            (food_items db)).

(** SELECT * FROM food_items WHERE expiry_date <= ? AND status = 'fresh'
    ORDER BY expiry_date ASC, the parameter being the day that lies
    [days_threshold] days after now.  A NULL date satisfies no
    comparison. *)
Definition get_expiring_items (clk : Clock) (days_threshold : Z) (db : DB)
  : list FoodItem :=
  let threshold_date :=
    datetime.strftime_Ymd (datetime.add_days (now clk) days_threshold) in
  order_by_expiry_date
    (filter (fun r =>
               match expiry_date r with
               | Some e => (e <=? threshold_date) && String.eqb (status r) "fresh"
               | None => false
               end)
            (food_items db)).

Definition set_status (s : string) (ts : Z) (r : FoodItem) : FoodItem :=
  {| id := id r;
     name := name r;
     category := category r;
     quantity := quantity r;
     unit_ := unit_ r;
     storage_date := storage_date r;
     expiry_date := expiry_date r;
     location := location r;
     barcode := barcode r;
     image_path := image_path r;
     confidence_score := confidence_score r;
     status := s;
     notes := notes r;
     last_updated := ts |}.

(** UPDATE food_items SET status = ?, last_updated = CURRENT_TIMESTAMP
    WHERE id = ? *)
Definition update_item_status (ts : Z) (item_id : Z) (s : string) (db : DB) : DB :=
  {| food_items :=
       map (fun r => if id r =? item_id then set_status s ts r else r)
           (food_items db);
     food_items_seq := food_items_seq db;
     alerts := alerts db;
     alerts_seq := alerts_seq db |}.

(** INSERT INTO alerts (food_item_id, alert_type, alert_level, message);
    the foreign key is declared but not enforced. *)
Definition create_alert (ts : Z) (item_id : Z) (type level msg : string) (db : DB)
  : DB :=
  let new_id := alerts_seq db + 1 in
  {| food_items := food_items db;
     food_items_seq := food_items_seq db;
     alerts := alerts db ++
               [{| alert_id := new_id;
                   food_item_id := item_id;
                   alert_type := type;
                   alert_level := level;
                   message := msg;
                   created_date := ts;
                   is_read := false |}];
     alerts_seq := new_id |}.

(** UPDATE alerts SET is_read = 1 WHERE id = ? *)
Definition mark_alert_as_read (a_id : Z) (db : DB) : DB :=
  {| food_items := food_items db;
     food_items_seq := food_items_seq db;
     alerts :=
       map (fun a =>
              if alert_id a =? a_id then
                {| alert_id := alert_id a;
                   food_item_id := food_item_id a;
                   alert_type := alert_type a;
                   alert_level := alert_level a;
                   message := message a;
                   created_date := created_date a;
                   is_read := true |}
              else a)
           (alerts db);
     alerts_seq := alerts_seq db |}.

(** DELETE FROM food_items WHERE id = ? *)
Definition delete_item (item_id : Z) (db : DB) : DB :=
  {| food_items := filter (fun r => negb (id r =? item_id)) (food_items db);
     food_items_seq := food_items_seq db;
     alerts := alerts db;
     alerts_seq := alerts_seq db |}.

(** The PRIMARY KEY AUTOINCREMENT constraint on [food_items.id]: ids are
    pairwise distinct and none exceeds the counter. *)
Definition primary_key_ok (db : DB) : Prop :=
  NoDup (map id (food_items db)) /\
  Forall (fun r => id r <= food_items_seq db) (food_items db).

(** The stores the operations above can produce from a fresh file. *)
Inductive reachable : DB -> Prop :=
| reach_init : reachable initialize_database
| reach_add ts d db i db' :
    reachable db -> add_food_item ts d db = Returned (i, db') -> reachable db'
| reach_update ts i s db :
    reachable db -> reachable (update_item_status ts i s db)
| reach_alert ts i t l m db :
    reachable db -> reachable (create_alert ts i t l m db)
| reach_read a db :
    reachable db -> reachable (mark_alert_as_read a db)
| reach_delete i db :
    reachable db -> reachable (delete_item i db).


(** SELECT * FROM food_items WHERE category = ? AND status != 'consumed'
    ORDER BY expiry_date ASC.  A NULL category equals nothing. *)
Definition get_items_by_category (cat : string) (db : DB) : list FoodItem :=
  order_by_expiry_date
    (filter (fun r =>
               match category r with
               | Some c => String.eqb c cat
               | None => false
               end && negb (String.eqb (status r) "consumed"))
            (food_items db)).

(** A row of [get_unread_alerts]: the alert's columns and [food_name]. *)
Record UnreadAlert : Type := {
  ua_alert : Alert;
  food_name : string
}.

Fixpoint insert_newest (r : UnreadAlert) (l : list UnreadAlert) : list UnreadAlert :=
  match l with
  | [] => [r]
  | h :: t =>
      if created_date (ua_alert h) <=? created_date (ua_alert r) then r :: h :: t
      else h :: insert_newest r t
  end.

(** ORDER BY a.created_date DESC; rows of the same second stay in the
    order the join produced them. *)
Fixpoint order_by_created_desc (l : list UnreadAlert) : list UnreadAlert :=
  match l with
  | [] => []
  | h :: t => insert_newest h (order_by_created_desc t)
  end.

(** The rows of alerts JOIN food_items ON a.food_item_id = f.id for one
    alert. *)
Definition join_item (rows : list FoodItem) (a : Alert) : list UnreadAlert :=
  map (fun f => {| ua_alert := a; food_name := name f |})
      (filter (fun f => food_item_id a =? id f) rows).

(** SELECT a.*, f.name as food_name FROM alerts a JOIN food_items f
    ON a.food_item_id = f.id WHERE a.is_read = 0
    ORDER BY a.created_date DESC *)
Definition get_unread_alerts (db : DB) : list UnreadAlert :=
  order_by_created_desc
    (flat_map (join_item (food_items db))
              (filter (fun a => negb (is_read a)) (alerts db))).

(** One more row for the count of its category (GROUP BY category with
    COUNT). *)
Fixpoint count_in (r : FoodItem) (groups : list (option string * Z))
  : list (option string * Z) :=
  match groups with
  | [] => [(category r, 1)]
  | (c, n) :: rest =>
      if match c, category r with
         | None, None => true
         | Some x, Some y => String.eqb x y
         | _, _ => false
         end
      then (c, n + 1) :: rest
      else (c, n) :: count_in r rest
  end.

(** The order in which SQLite hands out the rows of a GROUP BY category:
    sorted by the category, NULL first, text byte by byte. *)
Definition category_leb (a b : option string) : bool :=
  match a, b with
  | None, _ => true
  | Some _, None => false
  | Some x, Some y => String.leb x y
  end.

Fixpoint insert_group {A : Type} (key : A -> option string) (x : A) (l : list A)
  : list A :=
  match l with
  | [] => [x]
  | y :: rest =>
      if category_leb (key x) (key y) then x :: l
      else y :: insert_group key x rest
  end.

Definition order_by_category {A : Type} (key : A -> option string) (l : list A)
  : list A :=
  fold_right (insert_group key) [] l.

(** SELECT category, COUNT( * ) ... GROUP BY category, as the list of
    (category, count) rows. *)
Definition count_by_category (rows : list FoodItem) : list (option string * Z) :=
  order_by_category fst (fold_left (fun groups r => count_in r groups) rows []).

(** The dict [get_statistics] returns; [stat_by_category] is the dict
    built from the (category, count) rows, in the order of the rows. *)
Record Statistics : Type := {
  stat_total_items : Z;
  stat_by_category : list (option string * Z);
  stat_expiring_soon : Z;
  stat_unread_alerts : Z
}.

Definition get_statistics (clk : Clock) (db : DB) : Statistics :=
  let fresh_rows := filter (fun r => String.eqb (status r) "fresh") (food_items db) in
  let threshold_date := datetime.strftime_Ymd (datetime.add_days (now clk) 3) in
  {| stat_total_items := Z.of_nat (List.length fresh_rows);
     stat_by_category := count_by_category fresh_rows;
     stat_expiring_soon :=
       Z.of_nat (List.length
                   (filter (fun r =>
                              match expiry_date r with
                              | Some e => (e <=? threshold_date)
                                          && String.eqb (status r) "fresh"
                              | None => false
                              end)
                           (food_items db)));
     stat_unread_alerts :=
       Z.of_nat (List.length (filter (fun a => negb (is_read a)) (alerts db))) |}.

(** The constraint on [alerts.id], as [primary_key_ok] for the items. *)
Definition alerts_key_ok (db : DB) : Prop :=
  NoDup (map alert_id (alerts db)) /\
  Forall (fun a => alert_id a <= alerts_seq db) (alerts db).

End database.

(* ================================================================== *)
(** ** expiry_tracker.py *)


Module numpy.

(** An [int64] count seen as a [float64] (a count is far below [2^63]). *)
Definition float_of_int (z : Z) : float := PrimFloat.of_uint63 (Uint63.of_Z z).

Definition two52 : float := 4503599627370496%float.

(** Round to the nearest integer, ties to even: below [2^52] in size,
    adding and removing [2^52] leaves exactly that. *)
Definition rint (x : float) : float :=
  if PrimFloat.ltb (PrimFloat.abs x) two52 then
    if PrimFloat.ltb x 0%float
    then PrimFloat.add (PrimFloat.sub x two52) two52
    else PrimFloat.sub (PrimFloat.add x two52) two52
  else x.

(** [round(x, 2)] on a [float64]: scale by [10^2], [rint], scale back. *)
Definition round2 (x : float) : float :=
  PrimFloat.div (rint (PrimFloat.mul x 100%float)) 100%float.

End numpy.

(** A Python number: what [round] is given and hands back. *)
Inductive pynum : Type :=
| PyInt (z : Z)
| PyFloat (f : float).

(** [a == b] on two numbers (an [int] met by a [float] is compared as the
    [float] of its value, which is exact below [2^53]). *)
Definition py_eq (a b : pynum) : bool :=
  match a, b with
  | PyInt x, PyInt y => x =? y
  | PyInt x, PyFloat g => PrimFloat.eqb (numpy.float_of_int x) g
  | PyFloat f, PyInt y => PrimFloat.eqb f (numpy.float_of_int y)
  | PyFloat f, PyFloat g => PrimFloat.eqb f g
  end.

(** The builtin [round(x, 2)]: an [int] is returned as it is. *)
Definition round_2 (x : pynum) : pynum :=
  match x with
  | PyInt z => PyInt z
  | PyFloat f => PyFloat (numpy.round2 f)
  end.

(** [DataFrame.head(n)]: the first [n] rows, and for a negative [n] all
    rows but the last [-n]. *)
Definition head {A : Type} (n : Z) (l : list A) : list A :=
  if 0 <=? n then firstn (Z.to_nat n) l
  else firstn (List.length l - Z.to_nat (- n))%nat l.

Module expiry_tracker.
Import database.

(** The object state of [ExpiryTracker] besides the store it points to. *)
Record ExpiryTracker : Type := {
  alert_thresholds : config.AlertThresholds
}.

Definition __init__ : ExpiryTracker :=
  {| alert_thresholds := config.ALERT_THRESHOLDS |}.

(** The summary a classified item is reported with. *)
Record item_info : Type := {
  info_id : Z;
  info_name : string;
  info_category : option string;
  info_expiry_date : Z;
  days_remaining : Z
}.

(** The dict [check_expiry_status] returns. *)
Record status_groups : Type := {
  critical : list item_info;
  warning : list item_info;
  normal : list item_info;
  fresh : list item_info
}.

Definition empty_groups : status_groups :=
  {| critical := []; warning := []; normal := []; fresh := [] |}.

Definition append_critical (i : item_info) (g : status_groups) : status_groups :=
  {| critical := critical g ++ [i]; warning := warning g;
     normal := normal g; fresh := fresh g |}.

Definition append_warning (i : item_info) (g : status_groups) : status_groups :=
  {| critical := critical g; warning := warning g ++ [i];
     normal := normal g; fresh := fresh g |}.

Definition append_normal (i : item_info) (g : status_groups) : status_groups :=
  {| critical := critical g; warning := warning g;
     normal := normal g ++ [i]; fresh := fresh g |}.

Definition append_fresh (i : item_info) (g : status_groups) : status_groups :=
  {| critical := critical g; warning := warning g;
     normal := normal g; fresh := fresh g ++ [i] |}.

(** [(pd.to_datetime(expiry_date) - now).days] *)
Definition days_until_expiry (now_ : Z) (expiry : Z) : Z :=
  datetime.days (datetime.sub (datetime.to_datetime expiry) now_).

Definition make_info (item : FoodItem) (expiry days : Z) : item_info :=
  {| info_id := id item;
     info_name := name item;
     info_category := category item;
     info_expiry_date := expiry;
     days_remaining := days |}.

(** The body of the loop of [check_expiry_status], on the groups built
    so far and the store. *)
Definition check_item (self : ExpiryTracker) (clk : Clock)
           (st : status_groups * DB) (item : FoodItem) : status_groups * DB :=
  let (status_groups_, db) := st in
  match expiry_date item with
  | None => st
  | Some expiry =>
      let days_until := days_until_expiry (now clk) expiry in
      let info := make_info item expiry days_until in
      if days_until <? 0 then
        (append_critical info status_groups_,
         update_item_status (utc clk) (id item) "expired" db)
      else if days_until <=? config.thr_critical (alert_thresholds self) then
        (append_critical info status_groups_, db)
      else if days_until <=? config.thr_warning (alert_thresholds self) then
        (append_warning info status_groups_, db)
      else if days_until <=? config.thr_normal (alert_thresholds self) then
        (append_normal info status_groups_, db)
      else
        (append_fresh info status_groups_, db)
  end.

(** [check_expiry_status]: the loop runs over the rows fetched before
    it starts. *)
Definition check_expiry_status (self : ExpiryTracker) (clk : Clock) (db : DB)
  : status_groups * DB :=
  let items := get_all_items false db in
  match items with
  | [] => (empty_groups, db)
  | _ => fold_left (check_item self clk) items (empty_groups, db)
  end.

Definition critical_message (item : item_info) : string :=
  let days_ := days_remaining item in
  if days_ <? 0 then
    (info_name item ++ " has EXPIRED " ++ str_of_int (Z.abs days_) ++ " day(s) ago!")%string
  else if days_ =? 0 then
    (info_name item ++ " expires TODAY!")%string
  else
    (info_name item ++ " expires in " ++ str_of_int days_ ++ " day(s)!")%string.

Definition plain_message (item : item_info) : string :=
  (info_name item ++ " expires in " ++ str_of_int (days_remaining item)
     ++ " day(s)")%string.

(** The store together with the desktop notifications handed to the
    notifier, as (title, message). *)
Definition World : Type := (DB * list (string * string))%type.

Definition alert_critical (clk : Clock) (w : World) (item : item_info) : World :=
  let (db, sent) := w in
  let message_ := critical_message item in
  let db := create_alert (utc clk) (info_id item) "expiry" "critical" message_ db in
  if config.ENABLE_DESKTOP_NOTIFICATIONS
  then (db, sent ++ [("Critical Alert", message_)])
  else (db, sent).

Definition alert_plain (level : string) (clk : Clock) (db : DB) (item : item_info)
  : DB :=
  create_alert (utc clk) (info_id item) "expiry" level (plain_message item) db.

Definition generate_alerts (self : ExpiryTracker) (clk : Clock) (db : DB) : World :=
  let (status_, db) := check_expiry_status self clk db in
  let (db, sent) := fold_left (alert_critical clk) (critical status_) (db, []) in
  let db := fold_left (alert_plain "warning" clk) (warning status_) db in
  let db := fold_left (alert_plain "normal" clk) (normal status_) db in
  (db, sent).

(** An entry of the list [get_items_for_recipe] returns. *)
Record recipe_item : Type := {
  ri_id : Z;
  ri_name : string;
  ri_category : option string;
  ri_quantity : option Z;
  ri_days_remaining : Z
}.

(** The dict built for one row; a row of [get_expiring_items] always
    has a date. *)
Definition recipe_entry (clk : Clock) (item : FoodItem) : list recipe_item :=
  match expiry_date item with
  | Some expiry =>
      [{| ri_id := id item;
          ri_name := name item;
          ri_category := category item;
          ri_quantity := quantity item;
          ri_days_remaining := days_until_expiry (now clk) expiry |}]
  | None => []
  end.

Definition get_items_for_recipe (clk : Clock) (max_items : option Z) (db : DB)
  : list recipe_item :=
  let max_items_ :=
    match max_items with
    | None => config.MAX_INGREDIENTS_FOR_RECIPE
    | Some n => n
    end in
  let expiring_items := get_expiring_items clk 3 db in
  match expiring_items with
  | [] => []
  | _ => flat_map (recipe_entry clk) (head max_items_ expiring_items)
  end.

(** A row of the GROUP BY query of [calculate_waste_statistics]. *)
Record category_row : Type := {
  cr_category : option string;
  cr_count : Z;
  cr_expired_count : Z
}.

Definition category_eqb (a b : option string) : bool :=
  match a, b with
  | None, None => true
  | Some x, Some y => String.eqb x y
  | _, _ => false
  end.

(** CASE WHEN status = 'expired' THEN 1 ELSE 0 END *)
Definition expired_flag (r : FoodItem) : Z :=
  if String.eqb (status r) "expired" then 1 else 0.

(** One more row for the group of its category; a category seen for the
    first time opens a group. *)
Fixpoint add_to_group (r : FoodItem) (groups : list category_row)
  : list category_row :=
  match groups with
  | [] => [{| cr_category := category r; cr_count := 1;
              cr_expired_count := expired_flag r |}]
  | g :: rest =>
      if category_eqb (cr_category g) (category r) then
        {| cr_category := cr_category g;
           cr_count := cr_count g + 1;
           cr_expired_count := cr_expired_count g + expired_flag r |} :: rest
      else g :: add_to_group r rest
  end.

(** SELECT category, COUNT( * ), SUM(...) ... GROUP BY category; the rows
    come sorted by category. *)
Definition group_by_category (rows : list FoodItem) : list category_row :=
  order_by_category cr_category
    (fold_left (fun groups r => add_to_group r groups) rows []).

(** The calendar day of a timestamp in seconds. *)
Definition sql_date (ts : Z) : Z := ts / datetime.SECONDS_PER_DAY.

(** WHERE storage_date >= date('now', '-30 days'): the timestamp text
    against the date text, which holds from the first second of that
    day on. *)
Definition in_window (clk : Clock) (r : FoodItem) : bool :=
  sql_date (utc clk) - 30 <=? sql_date (storage_date r).

Definition column_sum (col : category_row -> Z) (df : list category_row) : Z :=
  fold_left (fun acc g => acc + col g) df 0.

Record statistics : Type := {
  total_items_last_30_days : Z;
  expired_items : Z;
  waste_rate_percentage : pynum;
  by_category : list category_row
}.

Definition calculate_waste_statistics (clk : Clock) (db : DB) : statistics :=
  let df := group_by_category (filter (in_window clk) (food_items db)) in
  let total_items := column_sum cr_count df in
  let total_expired := column_sum cr_expired_count df in
  let waste_rate :=
    if total_items >? 0 then
      PyFloat (PrimFloat.mul
                 (PrimFloat.div (numpy.float_of_int total_expired)
                                (numpy.float_of_int total_items))
                 100%float)
    else PyInt 0 in
  {| total_items_last_30_days := total_items;
     expired_items := total_expired;
     waste_rate_percentage := round_2 waste_rate;
     by_category := df |}.


(** The colour [AlertManager.get_alert_summary] looks up for a level, gray
    when the dict has no such key. *)
Definition level_color (level : string) : string :=
  if String.eqb level "critical" then "red"
  else if String.eqb level "warning" then "orange"
  else if String.eqb level "normal" then "blue"
  else "gray".

Definition summary_item (a : UnreadAlert) : string :=
  ("<li style='color: " ++ level_color (alert_level (ua_alert a)) ++ "'><strong>"
     ++ food_name a ++ "</strong>: " ++ message (ua_alert a) ++ "</li>")%string.

(** [AlertManager.get_alert_summary] *)
Definition get_alert_summary (db : DB) : string :=
  let alerts_ := get_unread_alerts db in
  match alerts_ with
  | [] => "<p>No active alerts</p>"
  | _ =>
      let html := fold_left (fun html a => (html ++ summary_item a)%string)
                            alerts_ "<h3>Active Alerts</h3><ul>" in
      (html ++ "</ul>")%string
  end.


(** The names an [AlertManager] object answers to: the attribute its
    constructor sets and the methods of the class. *)
Definition AlertManager_attributes : list string :=
  [ "db"; "send_email_alert"; "send_sms_alert"; "get_alert_summary" ].

End expiry_tracker.

(* ================================================================== *)
(** ** recipe_generator.py, the rule-based fallback *)

Module recipe_generator.

(** [str.lower] on the ASCII letters; other bytes are left alone. *)
Definition lower_ascii (c : ascii) : ascii :=
  let n := nat_of_ascii c in
  if ((65 <=? n) && (n <=? 90))%nat then ascii_of_nat (n + 32) else c.

Fixpoint lower (s : string) : string :=
  match s with
  | EmptyString => EmptyString
  | String c rest => String (lower_ascii c) (lower rest)
  end.

(** [needle in hay] on two strings. *)
Fixpoint contains (needle hay : string) : bool :=
  if String.prefix needle hay then true
  else match hay with
       | EmptyString => false
       | String _ rest => contains needle rest
       end.

(** [any(...)] over a list. *)
Definition any {A : Type} (p : A -> bool) (l : list A) : bool := existsb p l.

(** [l[i]] for a non-negative index. *)
Definition getitem {A : Type} (l : list A) (i : nat) : result A :=
  match nth_error l i with
  | Some a => Returned a
  | None => Raised "IndexError"
  end.

(** One of the dict literals of [recipe_templates]. *)
Record Template : Type := {
  t_name : string;
  t_description : string;
  t_cuisine_type : string;
  t_prep_time : Z;
  t_cook_time : Z;
  t_servings : Z;
  t_instructions : list string;
  t_tips : list string
}.

(** An entry of [recipe['ingredients']]. *)
Record Ingredient : Type := {
  item : string;
  amount : string;
  unit_ : string
}.

(** The dict returned: a copy of the template with two more keys. *)
Record Recipe : Type := {
  template : Template;
  ingredients : list Ingredient;
  used_ingredients : list string
}.

Definition recipe_templates : list Template :=
  [ {| t_name := "Quick Stir Fry";
       t_description := "A quick and healthy stir fry using available ingredients";
       t_cuisine_type := "Asian Fusion";
       t_prep_time := 10;
       t_cook_time := 15;
       t_servings := 2;
       t_instructions :=
         [ "Heat oil in a large wok or skillet over high heat";
           "Add vegetables and stir fry for 3-4 minutes";
           "Add protein (if available) and cook until done";
           "Season with soy sauce, garlic, and ginger";
           "Serve hot over rice or noodles" ];
       t_tips := [ "Use high heat for best results"; "Don't overcrowd the pan" ] |};
    {| t_name := "Fresh Salad Bowl";
       t_description := "Healthy and refreshing salad using fresh ingredients";
       t_cuisine_type := "Mediterranean";
       t_prep_time := 15;
       t_cook_time := 0;
       t_servings := 2;
       t_instructions :=
         [ "Wash and chop all fresh vegetables";
           "Combine in a large bowl";
           "Add protein of choice (if available)";
           "Dress with olive oil, lemon juice, and herbs";
           "Season with salt and pepper to taste" ];
       t_tips := [ "Use fresh, crisp vegetables"; "Dress just before serving" ] |};
    {| t_name := "One-Pot Wonder";
       t_description := "Easy one-pot meal using available ingredients";
       t_cuisine_type := "Home Cooking";
       t_prep_time := 10;
       t_cook_time := 25;
       t_servings := 4;
       t_instructions :=
         [ "Heat oil in a large pot";
           "Sauté aromatics (onions, garlic) until fragrant";
           "Add vegetables and protein";
           "Add liquid (broth or water) and bring to boil";
           "Simmer until everything is cooked through";
           "Season to taste and serve" ];
       t_tips := [ "Layer ingredients by cooking time"; "Don't rush the process" ] |} ].

Definition vegetable_words : list string :=
  [ "carrot"; "broccoli"; "lettuce"; "tomato"; "cucumber" ].

Definition protein_words : list string :=
  [ "chicken"; "beef"; "pork"; "fish"; "tofu"; "eggs" ].

Definition has_vegetables (ingredients_ : list string) : bool :=
  any (fun ing =>
         contains "vegetable" (lower ing)
         || any (fun veg => contains veg (lower ing)) vegetable_words)
      ingredients_.

(** The generator runs over the words first and the ingredients inside. *)
Definition has_protein (ingredients_ : list string) : bool :=
  any (fun prot => any (fun ing => contains prot (lower ing)) ingredients_)
      protein_words.

Definition _generate_fallback_recipe (ingredients_ : list string) : result Recipe :=
  default_template <- getitem recipe_templates 0 ;;
  selected_template <-
    (if negb (has_protein ingredients_) && has_vegetables ingredients_ then
       getitem recipe_templates 1
     else if (4 <=? List.length ingredients_)%nat then
       getitem recipe_templates 2
     else Returned default_template) ;;
  let ingredient_list :=
    map (fun ing => {| item := ing; amount := "1"; unit_ := "portion" |})
        ingredients_ in
  Returned {| template := selected_template;
              ingredients := ingredient_list;
              used_ingredients := ingredients_ |}.


(** [text.find(c)]: the first index of the character, -1 when absent. *)
Fixpoint find_char (c : ascii) (s : string) : option nat :=
  match s with
  | EmptyString => None
  | String a rest =>
      if Ascii.eqb a c then Some O
      else match find_char c rest with
           | Some i => Some (S i)
           | None => None
           end
  end.

(** [text.rfind(c)]: the last index of the character. *)
Fixpoint rfind_char (c : ascii) (s : string) : option nat :=
  match s with
  | EmptyString => None
  | String a rest =>
      match rfind_char c rest with
      | Some j => Some (S j)
      | None => if Ascii.eqb a c then Some O else None
      end
  end.

Definition index_or_minus_one (o : option nat) : Z :=
  match o with
  | Some i => Z.of_nat i
  | None => -1
  end.

(** [text[a:b]] for [0 <= a]. *)
Definition slice (text : string) (a b : Z) : string :=
  String.substring (Z.to_nat a) (Z.to_nat (b - a)) text.

Definition open_brace : ascii := "{"%char.
Definition close_brace : ascii := "}"%char.

(** [_extract_json_from_text]; [json_loads] stands for the library's
    parser, which returns a value or raises. *)
Definition _extract_json_from_text {J : Type} (json_loads : string -> result J)
           (text : string) : result J :=
  let start_idx := index_or_minus_one (find_char open_brace text) in
  let end_idx := index_or_minus_one (rfind_char close_brace text) + 1 in
  if negb (start_idx =? -1) && (end_idx >? start_idx) then
    json_loads (slice text start_idx end_idx)
  else Raised "ValueError".

(** [", ".join(l)] *)
Fixpoint join (sep : string) (l : list string) : string :=
  match l with
  | [] => ""
  | [x] => x
  | x :: rest => (x ++ sep ++ join sep rest)%string
  end.

Definition nl : string := String (ascii_of_nat 10) EmptyString.
Definition dq : string := String (ascii_of_nat 34) EmptyString.

(** One line of the JSON sample of the prompt: indentation, a quoted key,
    a colon and the rest of the line. *)
Definition key_line (indent key rest : string) : string :=
  (indent ++ dq ++ key ++ dq ++ ": " ++ rest ++ nl)%string.

Definition quoted (s : string) : string := (dq ++ s ++ dq)%string.

(** The triple-quoted JSON sample that closes the prompt. *)
Definition json_format : string :=
  ("{" ++ nl
   ++ key_line "    " "name" (quoted "Recipe Name" ++ ",")
   ++ key_line "    " "description" (quoted "Brief description" ++ ",")
   ++ key_line "    " "cuisine_type" (quoted "Cuisine" ++ ",")
   ++ key_line "    " "prep_time" "15,"
   ++ key_line "    " "cook_time" "30,"
   ++ key_line "    " "servings" "4,"
   ++ key_line "    " "ingredients" "["
   ++ "        {" ++ quoted "item" ++ ": " ++ quoted "ingredient 1" ++ ", "
   ++ quoted "amount" ++ ": " ++ quoted "quantity" ++ ", "
   ++ quoted "unit" ++ ": " ++ quoted "measurement" ++ "}," ++ nl
   ++ "        {" ++ quoted "item" ++ ": " ++ quoted "ingredient 2" ++ ", "
   ++ quoted "amount" ++ ": " ++ quoted "quantity" ++ ", "
   ++ quoted "unit" ++ ": " ++ quoted "measurement" ++ "}" ++ nl
   ++ "    ]," ++ nl
   ++ key_line "    " "instructions" "["
   ++ "        " ++ quoted "Step 1: Do this" ++ "," ++ nl
   ++ "        " ++ quoted "Step 2: Do that" ++ nl
   ++ "    ]," ++ nl
   ++ "    " ++ quoted "tips" ++ ": [" ++ quoted "Optional cooking tips" ++ "]" ++ nl
   ++ "}")%string.

(** The prompt [generate_recipe] builds; an absent or empty cuisine, and
    an absent or empty list of restrictions, add no line. *)
Definition build_prompt (ingredients_ : list string) (cuisine_type : option string)
           (dietary_restrictions : option (list string)) : string :=
  let ingredients_text := join ", " ingredients_ in
  let prompt :=
    ("Create a delicious recipe using the following ingredients that are about to expire:"
       ++ nl ++ ingredients_text ++ nl ++ nl
       ++ "Requirements:" ++ nl
       ++ "- Use as many of these ingredients as possible" ++ nl
       ++ "- The recipe should be practical and easy to prepare" ++ nl
       ++ "- Include preparation time and cooking time" ++ nl
       ++ "- Provide step-by-step instructions")%string in
  let prompt :=
    match cuisine_type with
    | Some (String c rest) =>
        (prompt ++ nl ++ "- Cuisine type: " ++ String c rest)%string
    | _ => prompt
    end in
  let prompt :=
    match dietary_restrictions with
    | Some (d :: ds) =>
        (prompt ++ nl ++ "- Dietary restrictions: " ++ join ", " (d :: ds))%string
    | _ => prompt
    end in
  let prompt :=
    (prompt ++ nl ++ nl ++ "Provide the recipe in the following JSON format:" ++ nl)%string in
  (prompt ++ json_format)%string.

(** What [generate_recipe] hands back: the dict of the fallback or the
    dict parsed from the service's answer. *)
Inductive recipe_dict (J : Type) : Type :=
| Fallback (r : Recipe)
| FromService (j : J).

Arguments Fallback {J} r.
Arguments FromService {J} j.

(** [_generate_with_openai]: [service] stands for the import of the client
    library, the request and the reading of the first choice's text; any
    of them may raise, and what is raised is raised again. *)
Definition _generate_with_openai {J : Type} (service : string -> result string)
           (json_loads : string -> result J) (prompt : string) : result J :=
  recipe_text <- service prompt ;;
  _extract_json_from_text json_loads recipe_text.

(** [generate_recipe] of a generator whose key is [api_key]. *)
Definition generate_recipe {J : Type} (api_key : string)
           (service : string -> result string) (json_loads : string -> result J)
           (ingredients_ : list string) (cuisine_type : option string)
           (dietary_restrictions : option (list string)) : result (recipe_dict J) :=
  let prompt := build_prompt ingredients_ cuisine_type dietary_restrictions in
  let attempt :=
    match api_key with
    | String _ _ =>
        recipe <- _generate_with_openai service json_loads prompt ;;
        Returned (FromService recipe)
    | EmptyString =>
        recipe <- _generate_fallback_recipe ingredients_ ;;
        Returned (Fallback recipe)
    end in
  match attempt with
  | Returned recipe => Returned recipe
  | Raised _ =>
      recipe <- _generate_fallback_recipe ingredients_ ;;
      Returned (Fallback recipe)
  end.

(** An entry of [recipe.get('ingredients', [])]: a dict with an ['item']
    or a plain string. *)
Inductive ingredient_entry : Type :=
| AsDict (i : Ingredient)
| AsText (s : string).

(** [generate_shopping_list], on the recipe's list of ingredients.  The
    names are any text, so the builtin [str.lower], which folds every
    cased letter of Unicode, is an argument; on ASCII text it is [lower]. *)
Definition generate_shopping_list (str_lower : string -> string)
           (recipe_ingredients : list ingredient_entry)
           (available_ingredients : list string) : list string :=
  let required_ingredients :=
    map (fun ing => match ing with
                    | AsDict i => item i
                    | AsText s => s
                    end) recipe_ingredients in
  let available_lower := map str_lower available_ingredients in
  filter (fun ingredient =>
            negb (existsb (String.eqb (str_lower ingredient)) available_lower))
         required_ingredients.

End recipe_generator.

(* ================================================================== *)
(** ** food_detector.py, the parts that are plain computation *)

Module food_detector.

(** [d.get(key, default)] on a dict written as its list of items. *)
Fixpoint dict_get (d : list (string * Z)) (key : string) (default : Z) : Z :=
  match d with
  | [] => default
  | (k, v) :: rest => if String.eqb k key then v else dict_get rest key default
  end.

Definition vegetables : list string :=
  [ "carrot"; "broccoli"; "lettuce"; "tomato"; "cucumber"; "spinach"; "potato" ].

Definition fruits : list string :=
  [ "apple"; "banana"; "orange"; "strawberry"; "grape"; "mango"; "watermelon" ].

Definition dairy : list string := [ "milk"; "cheese"; "yogurt"; "butter"; "cream" ].

Definition meat : list string := [ "chicken"; "beef"; "pork"; "lamb"; "turkey" ].

Definition seafood : list string := [ "fish"; "salmon"; "tuna"; "shrimp"; "crab" ].

(** A loop [for w in words: if w in s: return ...] returns when some word
    occurs. *)
Definition mentions (words : list string) (s : string) : bool :=
  existsb (fun w => recipe_generator.contains w s) words.

(** [_categorize_food]; the name is any text, so the builtin [str.lower],
    which folds every cased letter of Unicode, is an argument; on ASCII
    text it is [recipe_generator.lower]. *)
Definition _categorize_food (str_lower : string -> string) (food_name : string)
  : string :=
  let food_name_lower := str_lower food_name in
  if mentions vegetables food_name_lower then "Vegetables"
  else if mentions fruits food_name_lower then "Fruits"
  else if mentions dairy food_name_lower then "Dairy"
  else if mentions meat food_name_lower then "Meat"
  else if mentions seafood food_name_lower then "Seafood"
  else "Others".

(** [estimate_expiry_date]: the storage date, now when none is given,
    plus the shelf life of the category, 7 days for an unknown one. *)
Definition estimate_expiry_date (clk : Clock) (category : string)
           (storage_date : option Z) : Z :=
  let storage_date_ :=
    match storage_date with
    | None => now clk
    | Some d => d
    end in
  let shelf_life_days := dict_get config.DEFAULT_SHELF_LIFE category 7 in
  datetime.add_days storage_date_ shelf_life_days.

End food_detector.

(* ================================================================== *)
(** ** main.py, the operations of [SmartFridgeAI] on the store *)

Module main.
Import database expiry_tracker.

(** How a call that catches every exception ended: with its closing log
    line, or with the error it logged. *)
Inductive outcome : Type :=
| Completed
| Failed (exn : string).

(** Looking a name up on an object. *)
Definition getattr (attributes : list string) (attr : string) : result unit :=
  if existsb (String.eqb attr) attributes then Returned tt
  else Raised "AttributeError".

(** A loop whose body may raise: what was done before stays done. *)
Fixpoint for_each {S A : Type} (body : S -> A -> S * option string)
         (l : list A) (s : S) : S * option string :=
  match l with
  | [] => (s, None)
  | x :: rest =>
      match body s x with
      | (s', None) => for_each body rest s'
      | (s', Some e) => (s', Some e)
      end
  end.

(** The body of the loop of [check_and_alert]: the notifier is looked up
    on the alert manager. *)
Definition notify_critical (sent : list (string * string)) (alert : UnreadAlert)
  : list (string * string) * option string :=
  match getattr AlertManager_attributes "_send_desktop_notification" with
  | Returned _ =>
      (sent ++ [("Critical Food Alert", message (ua_alert alert))], None)
  | Raised e => (sent, Some e)
  end.

(** [check_and_alert]: the store and the notifications afterwards, and
    how the call ended. *)
Definition check_and_alert (self : ExpiryTracker) (clk : Clock) (db : DB)
  : World * outcome :=
  let (db, sent) := generate_alerts self clk db in
  let alerts_ := get_unread_alerts db in
  let critical_alerts :=
    filter (fun a => String.eqb (alert_level (ua_alert a)) "critical") alerts_ in
  let (sent, raised) :=
    match critical_alerts with
    | [] => (sent, None)
    | _ =>
        if config.ENABLE_DESKTOP_NOTIFICATIONS
        then for_each notify_critical critical_alerts sent
        else (sent, None)
    end in
  match raised with
  | None => ((db, sent), Completed)
  | Some e => ((db, sent), Failed e)
  end.










(** The dict [get_system_status] returns; the timestamp is the clock
    reading that [isoformat] prints. *)
Record SystemStatus : Type := {
  timestamp : Z;
  total_items : Z;
  critical_alerts : Z;
  warning_alerts : Z;
  unread_alerts : Z;
  items_by_category : list (option string * Z)
}.

(** [get_system_status]: the status and the store afterwards. *)
Definition get_system_status (self : ExpiryTracker) (clk : Clock) (db : DB)
  : SystemStatus * DB :=
  let stats := get_statistics clk db in
  let (expiry_status, db) := check_expiry_status self clk db in
  ({| timestamp := now clk;
      total_items := stat_total_items stats;
      critical_alerts := Z.of_nat (List.length (critical expiry_status));
      warning_alerts := Z.of_nat (List.length (warning expiry_status));
      unread_alerts := stat_unread_alerts stats;
      items_by_category := stat_by_category stats |}, db).

End main.

(* ================================================================== *)
(** ** Notions the statements below are written with *)

Module spec.
Import database expiry_tracker.

(** The urgency tiers, most urgent first. *)
Inductive Tier : Type := Critical | Warning | Normal | Fresh.

Definition tier_eqb (a b : Tier) : bool :=
  match a, b with
  | Critical, Critical | Warning, Warning | Normal, Normal | Fresh, Fresh => true
  | _, _ => false
  end.

(** The group the chain of tests in [check_item] appends to. *)
Definition tier (th : config.AlertThresholds) (d : Z) : Tier :=
  if d <? 0 then Critical
  else if d <=? config.thr_critical th then Critical
  else if d <=? config.thr_warning th then Warning
  else if d <=? config.thr_normal th then Normal
  else Fresh.

(** The whole-day difference with the fraction dropped towards zero:
    what "truncation toward zero" asks for. *)
Definition days_truncated (now_ expiry : Z) : Z :=
  Z.quot (datetime.to_datetime expiry - now_) datetime.US_PER_DAY.

(** Two rows in the order ORDER BY expiry_date ASC allows. *)
Definition by_expiry (a b : FoodItem) : Prop :=
  expiry_leb (expiry_date a) (expiry_date b) = true.

(** The summaries of the rows that carry a date, in row order. *)
Definition item_infos (now_ : Z) (items : list FoodItem) : list item_info :=
  flat_map (fun item =>
              match expiry_date item with
              | Some e => [make_info item e (days_until_expiry now_ e)]
              | None => []
              end) items.

Definition in_tier (th : config.AlertThresholds) (t : Tier) (i : item_info) : bool :=
  tier_eqb (tier th (days_remaining i)) t.

(** The entry of the returned dict that holds a tier. *)
Definition group (t : Tier) (g : status_groups) : list item_info :=
  match t with
  | Critical => critical g
  | Warning => warning g
  | Normal => normal g
  | Fresh => fresh g
  end.

(** The groups [g] with the summaries [infos] appended, each to the
    group of its tier. *)
Definition grouped (th : config.AlertThresholds) (g : status_groups)
           (infos : list item_info) : status_groups :=
  {| critical := critical g ++ filter (in_tier th Critical) infos;
     warning := warning g ++ filter (in_tier th Warning) infos;
     normal := normal g ++ filter (in_tier th Normal) infos;
     fresh := fresh g ++ filter (in_tier th Fresh) infos |}.

(** A dated row whose day count is negative. *)
Definition past_due (now_ : Z) (r : FoodItem) : bool :=
  match expiry_date r with
  | Some e => days_until_expiry now_ e <? 0
  | None => false
  end.

(** The store request the loop makes for one row. *)
Definition expire (clk : Clock) (db : DB) (item : FoodItem) : DB :=
  if past_due (now clk) item
  then update_item_status (utc clk) (id item) "expired" db
  else db.

(** A row the pass fetches and finds past its date. *)
Definition overdue (now_ : Z) (r : FoodItem) : bool :=
  match expiry_date r with
  | Some e => negb (String.eqb (status r) "consumed") && (days_until_expiry now_ e <? 0)
  | None => false
  end.

(** What one pass does to a row. *)
Definition touch (clk : Clock) (r : FoodItem) : FoodItem :=
  if overdue (now clk) r then set_status "expired" (utc clk) r else r.

(** The last day of the look-ahead window of the recipe candidates. *)
Definition threshold_day (clk : Clock) : Z :=
  datetime.strftime_Ymd (datetime.add_days (now clk) 3).

(** The columns of an alert that [create_alert] is given. *)
Definition payload (a : Alert) : Z * string * string * string :=
  (food_item_id a, alert_type a, alert_level a, message a).

(** Rows inserted one after the other from the counter [seq] on. *)
Fixpoint inserted (ts seq : Z) (ps : list (Z * string * string * string))
  : list Alert :=
  match ps with
  | [] => []
  | (i, t, l, m) :: rest =>
      {| alert_id := seq + 1; food_item_id := i; alert_type := t;
         alert_level := l; message := m; created_date := ts;
         is_read := false |} :: inserted ts (seq + 1) rest
  end.

Definition critical_payload (i : item_info) : Z * string * string * string :=
  (info_id i, "expiry", "critical", critical_message i).

Definition plain_payload (level : string) (i : item_info)
  : Z * string * string * string :=
  (info_id i, "expiry", level, plain_message i).

(** The payloads of one call of [generate_alerts], in insertion order. *)
Definition payloads (g : status_groups) : list (Z * string * string * string) :=
  map critical_payload (critical g)
  ++ map (plain_payload "warning") (warning g)
  ++ map (plain_payload "normal") (normal g).

(** "Rounded to 2 decimals", for the percentage [expired / total * 100]:
    the whole number of hundredths nearest to it, the even one of the two
    when it lies halfway. *)
Definition hundredths (expired total : Z) : Z :=
  let q := (10000 * expired) / total in
  let r := (10000 * expired) mod total in
  if 2 * r <? total then q
  else if total <? 2 * r then q + 1
  else if Z.even q then q else q + 1.

End spec.

(* ================================================================== *)
(** ** A household fridge to run the definitions on *)

Module sample.
Import database expiry_tracker.

Definition today : Z := 19000.

(** 10:00 on day [today], and a UTC reading on the same day. *)
Definition clk : Clock :=
  {| now := today * datetime.US_PER_DAY + 36000 * datetime.US_PER_SECOND;
     utc := today * datetime.SECONDS_PER_DAY + 30000 |}.

(** Five seconds later. *)
Definition clk' : Clock :=
  {| now := now clk + 5 * datetime.US_PER_SECOND; utc := utc clk + 5 |}.

Definition entry (n cat : string) (expiry : option Z) : item_data :=
  {| d_name := Some n; d_category := Some cat; d_quantity := None;
     d_unit := None; d_expiry_date := expiry; d_location := None;
     d_barcode := None; d_image_path := None; d_confidence_score := None;
     d_notes := None |}.

Definition add (ts : Z) (d : item_data) (db : DB) : DB :=
  match add_food_item ts d db with
  | Returned (_, db') => db'
  | Raised _ => db
  end.

Definition stored : Z := (today - 2) * datetime.SECONDS_PER_DAY.

(** Milk two days overdue, yogurt due tomorrow, and so on; the rice has
    no date and the butter has been eaten. *)
Definition fridge : DB :=
  update_item_status stored 8 "consumed"
    (fold_left (fun db d => add stored d db)
       [ entry "Milk" "Dairy" (Some (today - 1));
         entry "Yogurt" "Dairy" (Some (today + 1));
         entry "Chicken" "Meat" (Some (today + 2));
         entry "Lettuce" "Vegetables" (Some (today + 3));
         entry "Cheese" "Dairy" (Some (today + 5));
         entry "Ketchup" "Condiments" (Some (today + 100));
         entry "Rice" "Leftovers" None;
         entry "Butter" "Dairy" (Some (today - 10)) ]
       initialize_database).

(** The row the rice is stored as. *)
Definition rice : FoodItem :=
  {| id := 7; name := "Rice"; category := Some "Leftovers";
     quantity := Some 1; unit_ := Some "piece"; storage_date := stored;
     expiry_date := None; location := Some "main_compartment";
     barcode := None; image_path := None; confidence_score := None;
     status := "fresh"; notes := None; last_updated := stored |}.

(** Three items with 1, 2 and 5 days remaining. *)
Definition shelf : DB :=
  fold_left (fun db d => add stored d db)
    [ entry "Tofu" "Others" (Some (today + 6));
      entry "Ham" "Meat" (Some (today + 3));
      entry "Cream" "Dairy" (Some (today + 2)) ]
    initialize_database.

(** Two items already past their date and still marked fresh. *)
Definition stale : DB :=
  fold_left (fun db d => add stored d db)
    [ entry "Fish" "Seafood" (Some (today - 1));
      entry "Pork" "Meat" (Some (today - 3)) ]
    initialize_database.

(** The row the fish is stored as. *)
Definition fish : FoodItem :=
  {| id := 1; name := "Fish"; category := Some "Seafood";
     quantity := Some 1; unit_ := Some "piece"; storage_date := stored;
     expiry_date := Some (today - 1); location := Some "main_compartment";
     barcode := None; image_path := None; confidence_score := None;
     status := "fresh"; notes := None; last_updated := stored |}.

(** Ten items stored in the window, three of them marked expired. *)
Definition pantry : DB :=
  fold_left (fun db i => update_item_status stored i "expired" db) [2; 5; 9]
    (fold_left (fun db d => add stored d db)
       [ entry "a" "Dairy" None; entry "b" "Dairy" None; entry "c" "Meat" None;
         entry "d" "Meat" None; entry "e" "Fruits" None; entry "f" "Fruits" None;
         entry "g" "Others" None; entry "h" "Others" None; entry "i" "Dairy" None;
         entry "j" "Frozen" None ]
       initialize_database).

(** Jam stored in the last second of the day 31 days back and eggs stored
    in the first second of the day after it, both expired since; a leek
    and a pear stored the day before yesterday. *)
Definition cellar : DB :=
  fold_left (fun db i => update_item_status stored i "expired" db) [1; 2]
    (fold_left (fun db (p : (Z * item_data)%type) => add (fst p) (snd p) db)
       [ ((today - 30) * datetime.SECONDS_PER_DAY - 1,
          entry "Jam" "Condiments" None);
         ((today - 30) * datetime.SECONDS_PER_DAY, entry "Eggs" "Dairy" None);
         (stored, entry "Leek" "Vegetables" None);
         (stored, entry "Pear" "Fruits" None) ]
       initialize_database).



End sample.

(* ================================================================== *)
(** ** Further notions, for the statements on the rest of the code *)

Module notions.
Import database expiry_tracker spec.

(** The place of a tier in the order of urgency, most urgent first. *)
Definition rank (t : Tier) : nat :=
  match t with
  | Critical => 0
  | Warning => 1
  | Normal => 2
  | Fresh => 3
  end.

(** Two rows in an order ORDER BY expiry_date ASC allows, spelled out: a
    NULL date comes before everything, two dates compare as days. *)
Definition date_order (a b : FoodItem) : Prop :=
  match expiry_date a, expiry_date b with
  | None, _ => True
  | Some _, None => False
  | Some x, Some y => x <= y
  end.

(** The test [category = ?] of a WHERE clause. *)
Definition in_category (cat : string) (r : FoodItem) : bool :=
  match category r with
  | Some c => String.eqb c cat
  | None => false
  end.

(** The test [status != 'consumed']. *)
Definition not_consumed (r : FoodItem) : bool :=
  negb (String.eqb (status r) "consumed").

(** Rows of one GROUP BY group: the same category, NULL with NULL. *)
Definition same_category (c : option string) (r : FoodItem) : bool :=
  category_eqb c (category r).

(** One operation on the store carried out after another: the steps a
    session is made of. *)
Inductive evolves : DB -> DB -> Prop :=
| ev_refl db : evolves db db
| ev_add ts d db0 db i db' :
    evolves db0 db -> add_food_item ts d db = Returned (i, db') -> evolves db0 db'
| ev_update ts i s db0 db :
    evolves db0 db -> evolves db0 (update_item_status ts i s db)
| ev_alert ts i t l m db0 db :
    evolves db0 db -> evolves db0 (create_alert ts i t l m db)
| ev_read a db0 db :
    evolves db0 db -> evolves db0 (mark_alert_as_read a db)
| ev_delete i db0 db :
    evolves db0 db -> evolves db0 (delete_item i db).


(** Two rows in an order ORDER BY created_date DESC allows. *)
Definition newest_first (u v : UnreadAlert) : Prop :=
  created_date (ua_alert v) <= created_date (ua_alert u).

(** The rows of [alerts] with [is_read = 0]. *)
Definition unread (db : DB) : list Alert :=
  filter (fun a => negb (is_read a)) (alerts db).


(** The number of rows that pass a test. *)
Definition count_rows (p : FoodItem -> bool) (rows : list FoodItem) : Z :=
  Z.of_nat (List.length (filter p rows)).

(** The test [status = 'expired']. *)
Definition is_expired (r : FoodItem) : bool := String.eqb (status r) "expired".

(** What GROUP BY category must give for [rows]: one group per category
    that occurs, with the number of its rows and of its expired rows. *)
Definition groups_of (rows : list FoodItem) (groups : list category_row) : Prop :=
  NoDup (map cr_category groups)
  /\ (forall g, In g groups ->
        cr_count g = count_rows (same_category (cr_category g)) rows
        /\ cr_expired_count g
           = count_rows (fun r => same_category (cr_category g) r && is_expired r) rows
        /\ 1 <= cr_count g)
  /\ (forall r, In r rows -> In (category r) (map cr_category groups)).


(** Two summaries in order of day count. *)
Definition by_days (i j : item_info) : Prop := days_remaining i <= days_remaining j.

(** The test [expiry_date IS NOT NULL]. *)
Definition dated (r : FoodItem) : bool :=
  match expiry_date r with
  | Some _ => true
  | None => false
  end.


End notions.

(* ================================================================== *)
(** ** Whole-day differences *)

Section Days.
Import expiry_tracker.

Lemma US_PER_DAY_pos : 0 < datetime.US_PER_DAY.
Proof. reflexivity. Qed.

Lemma days_until_expiry_eq (now_ e : Z) :
  days_until_expiry now_ e = (e * datetime.US_PER_DAY - now_) / datetime.US_PER_DAY.
Proof. reflexivity. Qed.

(** The day count is the floor of the difference. *)
Lemma days_until_expiry_floor (now_ e : Z) :
  datetime.US_PER_DAY * days_until_expiry now_ e
    <= datetime.to_datetime e - now_
    < datetime.US_PER_DAY * (days_until_expiry now_ e + 1).
Proof.
  rewrite days_until_expiry_eq. unfold datetime.to_datetime.
  pose proof US_PER_DAY_pos as Hpos.
  split.
  - apply Z.mul_div_le; exact Hpos.
  - rewrite Z.add_1_r. apply Z.mul_succ_div_gt; exact Hpos.
Qed.

(** A [timedelta] is normalised and loses nothing. *)
Lemma timedelta_normalised (us : Z) :
  let d := datetime.timedelta_of_us us in
  datetime.total_us d = us
  /\ 0 <= datetime.seconds d < datetime.SECONDS_PER_DAY
  /\ 0 <= datetime.microseconds d < datetime.US_PER_SECOND.
Proof.
  cbn zeta. unfold datetime.total_us, datetime.timedelta_of_us; cbn [datetime.days datetime.seconds datetime.microseconds].
  unfold datetime.US_PER_DAY, datetime.SECONDS_PER_DAY, datetime.US_PER_SECOND.
  pose proof (Z.div_mod us (86400 * 1000000) ltac:(lia)) as H1.
  pose proof (Z.mod_pos_bound us (86400 * 1000000) ltac:(lia)) as H2.
  pose proof (Z.div_mod (us mod (86400 * 1000000)) 1000000 ltac:(lia)) as H3.
  pose proof (Z.mod_pos_bound (us mod (86400 * 1000000)) 1000000 ltac:(lia)) as H4.
  pose proof (Z.mod_pos_bound us 1000000 ltac:(lia)) as H5.
  assert (Hmm : (us mod (86400 * 1000000)) mod 1000000 = us mod 1000000).
  { apply Z.mod_mod_divide. exists 86400. reflexivity. }
  rewrite Hmm in H3, H4.
  assert (0 <= (us mod (86400 * 1000000)) / 1000000 < 86400).
  { split.
    - apply Z.div_pos; lia.
    - apply Z.div_lt_upper_bound; lia. }
  lia.
Qed.

Lemma days_until_expiry_mono (now_ e1 e2 : Z) :
  e1 <= e2 -> days_until_expiry now_ e1 <= days_until_expiry now_ e2.
Proof.
  intros H. rewrite !days_until_expiry_eq.
  apply Z.div_le_mono; [exact US_PER_DAY_pos|].
  pose proof US_PER_DAY_pos. nia.
Qed.

(** A date on or before the day that lies [k] days ahead is at most [k]
    whole days away. *)
Lemma days_until_expiry_within (now_ e k : Z) :
  e <= datetime.strftime_Ymd (datetime.add_days now_ k) ->
  days_until_expiry now_ e <= k.
Proof.
  intros H. rewrite days_until_expiry_eq.
  unfold datetime.strftime_Ymd, datetime.add_days in H.
  pose proof US_PER_DAY_pos as Hpos.
  rewrite Z.div_add in H by lia.
  pose proof (Z.mul_div_le now_ _ Hpos) as Hfl.
  assert (e * datetime.US_PER_DAY - now_ <= k * datetime.US_PER_DAY) by nia.
  apply Z.div_le_upper_bound; [exact Hpos|]. lia.
Qed.

(** A date whose midnight has passed counts a negative number of days. *)
Lemma days_until_expiry_past (now_ e : Z) :
  datetime.to_datetime e < now_ <-> days_until_expiry now_ e < 0.
Proof.
  pose proof (days_until_expiry_floor now_ e) as H.
  pose proof US_PER_DAY_pos as Hpos.
  split; intros; nia.
Qed.

End Days.

(* ================================================================== *)
(** ** ORDER BY expiry_date *)

Section Ordering.
Import database spec.

Lemma expiry_leb_total (a b : option Z) :
  expiry_leb a b = false -> expiry_leb b a = true.
Proof.
  destruct a as [x|], b as [y|]; cbn; try congruence.
  intros H. apply Z.leb_gt in H. apply Z.leb_le. lia.
Qed.

Lemma expiry_leb_trans (a b c : option Z) :
  expiry_leb a b = true -> expiry_leb b c = true -> expiry_leb a c = true.
Proof.
  destruct a as [x|], b as [y|], c as [z|]; cbn; try congruence.
  rewrite !Z.leb_le. lia.
Qed.

Lemma insert_row_perm (r : FoodItem) (l : list FoodItem) :
  Permutation (insert_row r l) (r :: l).
Proof.
  induction l as [|h t IH]; cbn.
  - apply Permutation_refl.
  - destruct (expiry_leb (expiry_date r) (expiry_date h)).
    + apply Permutation_refl.
    + apply perm_trans with (h :: r :: t).
      * apply perm_skip, IH.
      * apply perm_swap.
Qed.

Lemma order_by_expiry_date_perm (l : list FoodItem) :
  Permutation (order_by_expiry_date l) l.
Proof.
  induction l as [|h t IH]; cbn.
  - apply perm_nil.
  - apply perm_trans with (h :: order_by_expiry_date t).
    + apply insert_row_perm.
    + apply perm_skip, IH.
Qed.

Lemma order_by_expiry_date_In (x : FoodItem) (l : list FoodItem) :
  In x (order_by_expiry_date l) <-> In x l.
Proof.
  split; apply Permutation_in.
  - apply order_by_expiry_date_perm.
  - apply Permutation_sym, order_by_expiry_date_perm.
Qed.

Lemma order_by_expiry_date_length (l : list FoodItem) :
  List.length (order_by_expiry_date l) = List.length l.
Proof. apply Permutation_length, order_by_expiry_date_perm. Qed.

Lemma insert_row_sorted (r : FoodItem) (l : list FoodItem) :
  Sorted by_expiry l -> Sorted by_expiry (insert_row r l).
Proof.
  induction 1 as [|h t Hs IH Hhd]; cbn.
  - repeat constructor.
  - destruct (expiry_leb (expiry_date r) (expiry_date h)) eqn:E.
    + constructor; [constructor; assumption|]. constructor. exact E.
    + constructor; [exact IH|].
      apply expiry_leb_total in E.
      destruct t as [|h' t']; cbn.
      * constructor. exact E.
      * destruct (expiry_leb (expiry_date r) (expiry_date h')); constructor.
        -- exact E.
        -- inversion Hhd; assumption.
Qed.

Lemma order_by_expiry_date_sorted (l : list FoodItem) :
  Sorted by_expiry (order_by_expiry_date l).
Proof.
  induction l as [|h t IH]; cbn.
  - constructor.
  - apply insert_row_sorted, IH.
Qed.

Lemma order_by_expiry_date_strongly_sorted (l : list FoodItem) :
  StronglySorted by_expiry (order_by_expiry_date l).
Proof.
  apply Sorted_StronglySorted.
  - intros a b c. apply expiry_leb_trans.
  - apply order_by_expiry_date_sorted.
Qed.

(** Rewriting rows without touching their dates commutes with sorting. *)
Lemma insert_row_map (f : FoodItem -> FoodItem) (r : FoodItem) (l : list FoodItem) :
  (forall x, expiry_date (f x) = expiry_date x) ->
  insert_row (f r) (map f l) = map f (insert_row r l).
Proof.
  intros Hf. induction l as [|h t IH]; cbn.
  - reflexivity.
  - rewrite !Hf. destruct (expiry_leb (expiry_date r) (expiry_date h)); cbn.
    + reflexivity.
    + rewrite IH. reflexivity.
Qed.

Lemma order_by_expiry_date_map (f : FoodItem -> FoodItem) (l : list FoodItem) :
  (forall x, expiry_date (f x) = expiry_date x) ->
  order_by_expiry_date (map f l) = map f (order_by_expiry_date l).
Proof.
  intros Hf. induction l as [|h t IH]; cbn.
  - reflexivity.
  - rewrite IH. apply insert_row_map, Hf.
Qed.

Lemma filter_map_commute {A : Type} (p : A -> bool) (f : A -> A) (l : list A) :
  (forall x, p (f x) = p x) ->
  filter p (map f l) = map f (filter p l).
Proof.
  intros Hp. induction l as [|h t IH]; cbn.
  - reflexivity.
  - rewrite Hp. destruct (p h); cbn; rewrite IH; reflexivity.
Qed.

Lemma NoDup_key_inj {A : Type} (key : A -> Z) (l : list A) (a b : A) :
  NoDup (map key l) -> In a l -> In b l -> key a = key b -> a = b.
Proof.
  induction l as [|h t IH]; cbn; intros Hnd Ha Hb Hk.
  - contradiction.
  - inversion Hnd as [|? ? Hnotin Hnd']; subst.
    destruct Ha as [Ha|Ha], Hb as [Hb|Hb]; subst.
    + reflexivity.
    + exfalso. apply Hnotin. rewrite Hk. apply in_map, Hb.
    + exfalso. apply Hnotin. rewrite <- Hk. apply in_map, Ha.
    + apply IH; assumption.
Qed.

(** Under the primary key a row is known by its id. *)
Lemma same_id_same_row (rows : list FoodItem) (a b : FoodItem) :
  NoDup (map id rows) -> In a rows -> In b rows -> id a = id b -> a = b.
Proof. apply NoDup_key_inj. Qed.

End Ordering.

(* ================================================================== *)
(** ** One classification pass *)

Section Pass.
Import database expiry_tracker spec.

Variable self : ExpiryTracker.
Variable clk : Clock.

Let th := alert_thresholds self.

Lemma grouped_nil (g : status_groups) : grouped th g [] = g.
Proof.
  destruct g; unfold grouped; cbn. rewrite !app_nil_r. reflexivity.
Qed.

Lemma grouped_app (g : status_groups) (a b : list item_info) :
  grouped th (grouped th g a) b = grouped th g (a ++ b).
Proof.
  unfold grouped; cbn. rewrite !filter_app, !app_assoc. reflexivity.
Qed.

Lemma item_infos_cons (item : FoodItem) (rest : list FoodItem) :
  item_infos (now clk) (item :: rest)
  = item_infos (now clk) [item] ++ item_infos (now clk) rest.
Proof. unfold item_infos; cbn. rewrite app_nil_r. reflexivity. Qed.

(** The loop body appends the summary to the group of its tier and asks
    the store to expire the row when its day count is negative. *)
Lemma check_item_step (g : status_groups) (db : DB) (item : FoodItem) :
  check_item self clk (g, db) item
  = (grouped th g (item_infos (now clk) [item]), expire clk db item).
Proof.
  unfold check_item, expire, past_due, item_infos; cbn [flat_map].
  destruct (expiry_date item) as [e|].
  - cbn zeta. rewrite app_nil_r.
    unfold grouped, in_tier, tier; cbn [filter days_remaining make_info].
    fold th.
    destruct (days_until_expiry (now clk) e <? 0);
      [|destruct (days_until_expiry (now clk) e <=? config.thr_critical th);
        [|destruct (days_until_expiry (now clk) e <=? config.thr_warning th);
          [|destruct (days_until_expiry (now clk) e <=? config.thr_normal th)]]];
      cbn; rewrite ?app_nil_r; reflexivity.
  - rewrite grouped_nil. reflexivity.
Qed.

Lemma check_fold (items : list FoodItem) (g : status_groups) (db : DB) :
  fold_left (check_item self clk) items (g, db)
  = (grouped th g (item_infos (now clk) items), fold_left (expire clk) items db).
Proof.
  revert g db. induction items as [|item rest IH]; intros g db.
  - cbn. rewrite grouped_nil. reflexivity.
  - cbn [fold_left]. rewrite check_item_step, IH, grouped_app.
    rewrite <- item_infos_cons. reflexivity.
Qed.

Lemma check_expiry_status_fold (db : DB) :
  check_expiry_status self clk db
  = (grouped th empty_groups (item_infos (now clk) (get_all_items false db)),
     fold_left (expire clk) (get_all_items false db) db).
Proof.
  unfold check_expiry_status. rewrite <- check_fold.
  destruct (get_all_items false db); reflexivity.
Qed.

Lemma set_status_idem (s : string) (ts : Z) (r : FoodItem) :
  set_status s ts (set_status s ts r) = set_status s ts r.
Proof. reflexivity. Qed.

(** The requests of a pass, taken together: a row is rewritten when one
    of the fetched rows that are past due carries its id. *)
Lemma expire_fold (items : list FoodItem) (db : DB) :
  fold_left (expire clk) items db
  = {| food_items :=
         map (fun r =>
                if existsb (fun it => (id r =? id it) && past_due (now clk) it) items
                then set_status "expired" (utc clk) r else r)
             (food_items db);
       food_items_seq := food_items_seq db;
       alerts := alerts db;
       alerts_seq := alerts_seq db |}.
Proof.
  revert db. induction items as [|it rest IH]; intros db.
  - cbn. rewrite map_id. destruct db; reflexivity.
  - cbn [fold_left]. rewrite IH. unfold expire.
    destruct (past_due (now clk) it) eqn:Hpd.
    + unfold update_item_status; cbn [food_items food_items_seq alerts alerts_seq].
      f_equal. rewrite map_map. apply map_ext. intros r.
      cbn [existsb]. rewrite Hpd, andb_true_r.
      destruct (id r =? id it) eqn:Hid; cbn [orb id set_status].
      * destruct (existsb _ rest); reflexivity.
      * reflexivity.
    + f_equal. apply map_ext. intros r.
      cbn [existsb]. rewrite Hpd, andb_false_r. reflexivity.
Qed.

End Pass.

(* ================================================================== *)
(** ** The store after a pass, and the alerts a call inserts *)

Section Store.
Import database expiry_tracker spec.

Variable self : ExpiryTracker.
Variable clk : Clock.

(** With distinct ids, the rows a pass rewrites are the fetched rows
    that are past due, and no others. *)
Lemma fetched_overdue (db : DB) (r : FoodItem) :
  NoDup (map id (food_items db)) ->
  In r (food_items db) ->
  existsb (fun it => (id r =? id it) && past_due (now clk) it) (get_all_items false db)
  = overdue (now clk) r.
Proof.
  intros Hnd Hr.
  assert (Hov : forall x, overdue (now clk) x
                  = negb (String.eqb (status x) "consumed") && past_due (now clk) x).
  { intros x. unfold overdue, past_due. destruct (expiry_date x).
    - reflexivity.
    - rewrite andb_false_r. reflexivity. }
  assert (Hin : forall it, In it (get_all_items false db) <->
                 In it (food_items db)
                 /\ negb (String.eqb (status it) "consumed") = true).
  { intros it. unfold get_all_items.
    rewrite order_by_expiry_date_In, filter_In, orb_false_r. reflexivity. }
  destruct (overdue (now clk) r) eqn:Hr_ov.
  - apply existsb_exists. exists r.
    rewrite Hov in Hr_ov. apply andb_true_iff in Hr_ov as [Hvis Hpd].
    split.
    + apply Hin. split; assumption.
    + rewrite Z.eqb_refl, Hpd. reflexivity.
  - apply not_true_is_false. intros Hex.
    apply existsb_exists in Hex as [it [Hit Hc]].
    apply andb_true_iff in Hc as [Hid Hpd].
    apply Z.eqb_eq in Hid. apply Hin in Hit as [Hit Hvis].
    assert (r = it) by (apply (same_id_same_row (food_items db)); assumption).
    subst it. rewrite Hov, Hvis, Hpd in Hr_ov. discriminate.
Qed.

Lemma check_expiry_status_store (db : DB) :
  NoDup (map id (food_items db)) ->
  snd (check_expiry_status self clk db)
  = {| food_items := map (touch clk) (food_items db);
       food_items_seq := food_items_seq db;
       alerts := alerts db;
       alerts_seq := alerts_seq db |}.
Proof.
  intros Hnd. rewrite check_expiry_status_fold; cbn [snd].
  rewrite expire_fold. f_equal.
  apply map_ext_in. intros r Hr. unfold touch.
  rewrite fetched_overdue by assumption. reflexivity.
Qed.

(** Without any assumption: a pass leaves the alerts and both counters
    alone. *)
Lemma check_expiry_status_alerts (db : DB) :
  let db1 := snd (check_expiry_status self clk db) in
  alerts db1 = alerts db /\ alerts_seq db1 = alerts_seq db
  /\ food_items_seq db1 = food_items_seq db.
Proof.
  cbn zeta. rewrite check_expiry_status_fold; cbn [snd].
  rewrite expire_fold. cbn. auto.
Qed.

Lemma touch_id (r : FoodItem) : id (touch clk r) = id r.
Proof. unfold touch. destruct (overdue (now clk) r); reflexivity. Qed.

Lemma touch_expiry_date (r : FoodItem) : expiry_date (touch clk r) = expiry_date r.
Proof. unfold touch. destruct (overdue (now clk) r); reflexivity. Qed.

(** A pass never makes a row consumed, nor un-consumes one. *)
Lemma touch_consumed (r : FoodItem) :
  String.eqb (status (touch clk r)) "consumed" = String.eqb (status r) "consumed".
Proof.
  unfold touch, overdue. destruct (expiry_date r) as [e|]; [|reflexivity].
  destruct (String.eqb (status r) "consumed") eqn:Hc; cbn [negb andb].
  - exact Hc.
  - destruct (days_until_expiry (now clk) e <? 0); [reflexivity | exact Hc].
Qed.

Lemma inserted_app (ts seq : Z) (ps qs : list (Z * string * string * string)) :
  inserted ts seq (ps ++ qs)
  = inserted ts seq ps ++ inserted ts (seq + Z.of_nat (List.length ps)) qs.
Proof.
  revert seq. induction ps as [|[[[i t] l] m] rest IH]; intros seq.
  - cbn. rewrite Z.add_0_r. reflexivity.
  - cbn [inserted app List.length]. rewrite IH. cbn [app].
    do 3 f_equal. lia.
Qed.

Lemma inserted_payload (ts seq : Z) (ps : list (Z * string * string * string)) :
  map payload (inserted ts seq ps) = ps.
Proof.
  revert seq. induction ps as [|[[[i t] l] m] rest IH]; intros seq.
  - reflexivity.
  - cbn [inserted map]. rewrite IH. reflexivity.
Qed.

Lemma inserted_length (ts seq : Z) (ps : list (Z * string * string * string)) :
  List.length (inserted ts seq ps) = List.length ps.
Proof.
  rewrite <- (inserted_payload ts seq ps) at 2. rewrite length_map. reflexivity.
Qed.

Lemma inserted_unread (ts seq : Z) (ps : list (Z * string * string * string)) :
  Forall (fun a => is_read a = false) (inserted ts seq ps).
Proof.
  revert seq. induction ps as [|[[[i t] l] m] rest IH]; intros seq; cbn [inserted].
  - constructor.
  - constructor; [reflexivity | apply IH].
Qed.

Lemma alert_plain_fold (level : string) (infos : list item_info) (db : DB) :
  fold_left (alert_plain level clk) infos db
  = {| food_items := food_items db;
       food_items_seq := food_items_seq db;
       alerts := alerts db
                 ++ inserted (utc clk) (alerts_seq db) (map (plain_payload level) infos);
       alerts_seq := alerts_seq db + Z.of_nat (List.length infos) |}.
Proof.
  revert db. induction infos as [|i rest IH]; intros db.
  - cbn. rewrite app_nil_r, Z.add_0_r. destruct db; reflexivity.
  - cbn [fold_left]. rewrite IH.
    unfold alert_plain, create_alert;
      cbn [food_items food_items_seq alerts alerts_seq map inserted plain_payload].
    rewrite <- app_assoc. cbn [app List.length]. f_equal. lia.
Qed.

Lemma alert_critical_fold (infos : list item_info) (db : DB)
      (sent : list (string * string)) :
  fold_left (alert_critical clk) infos (db, sent)
  = ({| food_items := food_items db;
        food_items_seq := food_items_seq db;
        alerts := alerts db
                  ++ inserted (utc clk) (alerts_seq db) (map critical_payload infos);
        alerts_seq := alerts_seq db + Z.of_nat (List.length infos) |},
     sent ++ map (fun i => ("Critical Alert", critical_message i)) infos).
Proof.
  revert db sent. induction infos as [|i rest IH]; intros db sent.
  - cbn. rewrite !app_nil_r, Z.add_0_r. destruct db; reflexivity.
  - cbn [fold_left]. unfold alert_critical at 2.
    unfold config.ENABLE_DESKTOP_NOTIFICATIONS. rewrite IH.
    unfold create_alert;
      cbn [food_items food_items_seq alerts alerts_seq map inserted critical_payload].
    rewrite <- !app_assoc. cbn [app List.length]. do 2 f_equal. lia.
Qed.

(** One call of [generate_alerts]: the pass, then one insertion for each
    summary of the critical, the warning and the normal group. *)
Lemma generate_alerts_eq (db : DB) :
  let g := fst (check_expiry_status self clk db) in
  let db1 := snd (check_expiry_status self clk db) in
  generate_alerts self clk db
  = ({| food_items := food_items db1;
        food_items_seq := food_items_seq db1;
        alerts := alerts db1 ++ inserted (utc clk) (alerts_seq db1) (payloads g);
        alerts_seq := alerts_seq db1 + Z.of_nat (List.length (payloads g)) |},
     map (fun i => ("Critical Alert", critical_message i)) (critical g)).
Proof.
  cbn zeta. unfold generate_alerts.
  destruct (check_expiry_status self clk db) as [g db1]; cbn [fst snd].
  rewrite alert_critical_fold, !alert_plain_fold.
  cbn [food_items food_items_seq alerts alerts_seq app].
  unfold payloads. rewrite !inserted_app, !length_app, !length_map.
  rewrite <- !app_assoc. f_equal. f_equal. lia.
Qed.

End Store.

(* ================================================================== *)
(** ** Summaries and the rows they come from *)

Section Summaries.
Import database expiry_tracker spec.

Lemma NoDup_map_filter {A : Type} (key : A -> Z) (p : A -> bool) (l : list A) :
  NoDup (map key l) -> NoDup (map key (filter p l)).
Proof.
  induction l as [|h t IH]; cbn; intros Hnd.
  - constructor.
  - inversion Hnd as [|? ? Hnotin Hnd']; subst.
    destruct (p h); cbn.
    + constructor; [|apply IH, Hnd'].
      intros Hin. apply Hnotin.
      apply in_map_iff in Hin as [x [Hx Hin]].
      apply filter_In in Hin as [Hin _].
      rewrite <- Hx. apply in_map, Hin.
    + apply IH, Hnd'.
Qed.

Lemma get_all_items_NoDup (db : DB) :
  NoDup (map id (food_items db)) -> NoDup (map id (get_all_items false db)).
Proof.
  intros Hnd. unfold get_all_items.
  eapply Permutation_NoDup.
  - apply Permutation_map, Permutation_sym, order_by_expiry_date_perm.
  - apply NoDup_map_filter, Hnd.
Qed.

Lemma get_all_items_In (db : DB) (r : FoodItem) :
  In r (get_all_items false db)
  <-> In r (food_items db) /\ String.eqb (status r) "consumed" = false.
Proof.
  unfold get_all_items.
  rewrite order_by_expiry_date_In, filter_In, orb_false_r, negb_true_iff.
  reflexivity.
Qed.

Lemma item_infos_In (now_ : Z) (items : list FoodItem) (i : item_info) :
  In i (item_infos now_ items)
  <-> exists it e, In it items /\ expiry_date it = Some e
                   /\ i = make_info it e (days_until_expiry now_ e).
Proof.
  unfold item_infos. rewrite in_flat_map. split.
  - intros [it [Hit Hi]]. destruct (expiry_date it) as [e|] eqn:He.
    + destruct Hi as [Hi|[]]. exists it, e. auto.
    + destruct Hi.
  - intros [it [e [Hit [He Hi]]]]. exists it. split; [exact Hit|].
    rewrite He. left. symmetry. exact Hi.
Qed.

Lemma item_infos_ids (now_ : Z) (items : list FoodItem) :
  map info_id (item_infos now_ items)
  = map id (filter (fun it => match expiry_date it with
                              | Some _ => true | None => false end) items).
Proof.
  induction items as [|it rest IH].
  - reflexivity.
  - unfold item_infos in *. cbn [flat_map filter].
    destruct (expiry_date it); cbn [app map]; rewrite IH; reflexivity.
Qed.

Lemma item_infos_NoDup (now_ : Z) (items : list FoodItem) :
  NoDup (map id items) -> NoDup (map info_id (item_infos now_ items)).
Proof.
  intros Hnd. rewrite item_infos_ids. apply NoDup_map_filter, Hnd.
Qed.

(** The summaries depend on the clock through the day counts only. *)
Lemma item_infos_ext (n1 n2 : Z) (items : list FoodItem) :
  (forall r e, In r items -> expiry_date r = Some e ->
               days_until_expiry n2 e = days_until_expiry n1 e) ->
  item_infos n2 items = item_infos n1 items.
Proof.
  induction items as [|it rest IH]; intros H.
  - reflexivity.
  - unfold item_infos in *. cbn [flat_map]. rewrite IH.
    + destruct (expiry_date it) as [e|] eqn:He; [|reflexivity].
      rewrite (H it e); [reflexivity | left; reflexivity | exact He].
    + intros r e Hr. apply H. right. exact Hr.
Qed.

(** The summaries do not read the columns a pass writes. *)
Lemma item_infos_touch (clk : Clock) (now_ : Z) (items : list FoodItem) :
  item_infos now_ (map (touch clk) items) = item_infos now_ items.
Proof.
  induction items as [|it rest IH].
  - reflexivity.
  - unfold item_infos in *. cbn [map flat_map]. rewrite IH. f_equal.
    unfold touch. destruct (overdue (now clk) it); reflexivity.
Qed.

Lemma grouped_empty (th : config.AlertThresholds) (infos : list item_info) (t : Tier) :
  group t (grouped th empty_groups infos) = filter (in_tier th t) infos.
Proof. destruct t; reflexivity. Qed.

Lemma tier_eqb_eq (a b : Tier) : tier_eqb a b = true <-> a = b.
Proof. destruct a, b; cbn; split; congruence. Qed.

Lemma Forall2_map_right {A B : Type} (f : A -> B) (l : list A) :
  Forall2 (fun a b => b = f a) l (map f l).
Proof. induction l; cbn; constructor; auto. Qed.

Lemma Forall2_weaken {A B : Type} (P Q : A -> B -> Prop) (l : list A) (l' : list B) :
  (forall a b, In a l -> P a b -> Q a b) -> Forall2 P l l' -> Forall2 Q l l'.
Proof.
  intros H HF. induction HF as [|a b l l' Hab HF IH].
  - constructor.
  - constructor.
    + apply H; [left; reflexivity | exact Hab].
    + apply IH. intros x y Hx. apply H. right. exact Hx.
Qed.

Lemma inserted_Forall2 (ts seq : Z) {A : Type}
      (pl : A -> Z * string * string * string) (l : list A) :
  Forall2 (fun i a => payload a = pl i) l (inserted ts seq (map pl l)).
Proof.
  revert seq. induction l as [|i rest IH]; intros seq; cbn [map inserted].
  - constructor.
  - destruct (pl i) as [[[x t] lv] m] eqn:E. cbn [inserted].
    constructor; [rewrite E; reflexivity | apply IH].
Qed.

Lemma inserted_ids (ts seq : Z) (ps : list (Z * string * string * string)) :
  Forall (fun a => seq < alert_id a) (inserted ts seq ps)
  /\ NoDup (map alert_id (inserted ts seq ps)).
Proof.
  revert seq. induction ps as [|[[[i t] l] m] rest IH]; intros seq; cbn [inserted map].
  - split; constructor.
  - destruct (IH (seq + 1)) as [Hgt Hnd]. split.
    + constructor; [cbn; lia|].
      eapply Forall_impl; [|exact Hgt]. cbn. intros a Ha. lia.
    + constructor; [|exact Hnd]. cbn [alert_id].
      intros Hin. apply in_map_iff in Hin as [a [Ha Hin]].
      rewrite Forall_forall in Hgt. specialize (Hgt a Hin). lia.
Qed.

End Summaries.

(* ================================================================== *)
(** ** The primary key *)

Section Invariant.
Import database expiry_tracker spec.

Lemma map_id_update (f : FoodItem -> FoodItem) (rows : list FoodItem) :
  (forall r, id (f r) = id r) -> map id (map f rows) = map id rows.
Proof.
  intros Hf. rewrite map_map. apply map_ext. exact Hf.
Qed.

Lemma update_item_status_ok (ts i : Z) (s : string) (db : DB) :
  primary_key_ok db -> primary_key_ok (update_item_status ts i s db).
Proof.
  intros [Hnd Hle]. unfold primary_key_ok, update_item_status;
    cbn [food_items food_items_seq].
  split.
  - rewrite map_id_update; [exact Hnd|].
    intros r. destruct (id r =? i); reflexivity.
  - apply Forall_map. eapply Forall_impl; [|exact Hle].
    cbn beta. intros r Hr. destruct (id r =? i); exact Hr.
Qed.

Lemma add_food_item_ok (ts : Z) (d : item_data) (db db' : DB) (i : Z) :
  primary_key_ok db ->
  add_food_item ts d db = Returned (i, db') ->
  primary_key_ok db' /\ i = food_items_seq db + 1
  /\ ~ In i (map id (food_items db)).
Proof.
  intros [Hnd Hle] Hadd. unfold add_food_item in Hadd.
  destruct (d_name d) as [n|]; [|discriminate].
  injection Hadd as <- <-.
  assert (Hnew : ~ In (food_items_seq db + 1) (map id (food_items db))).
  { intros Hin. apply in_map_iff in Hin as [r [Hid Hr]].
    rewrite Forall_forall in Hle. specialize (Hle r Hr). lia. }
  split; [|split; [reflexivity | exact Hnew]].
  unfold primary_key_ok; cbn [food_items food_items_seq]. split.
  - rewrite map_app. cbn [map id].
    apply NoDup_app; [exact Hnd | repeat constructor; intros [] |].
    intros x Hx [<-|[]]. apply Hnew, Hx.
  - apply Forall_app. split.
    + eapply Forall_impl; [|exact Hle]. cbn beta. intros r Hr. lia.
    + repeat constructor. cbn [id]. lia.
Qed.

Lemma delete_item_ok (i : Z) (db : DB) :
  primary_key_ok db -> primary_key_ok (delete_item i db).
Proof.
  intros [Hnd Hle]. unfold primary_key_ok, delete_item;
    cbn [food_items food_items_seq].
  split.
  - apply NoDup_map_filter, Hnd.
  - apply Forall_forall. intros r Hr. apply filter_In in Hr as [Hr _].
    rewrite Forall_forall in Hle. apply Hle, Hr.
Qed.

(** Every store the operations produce keeps the primary key. *)
Lemma reachable_primary_key_ok (db : DB) : reachable db -> primary_key_ok db.
Proof.
  induction 1 as [|ts d db i db' _ IH Hadd|ts i s db _ IH|ts i t l m db _ IH
                  |a db _ IH|i db _ IH].
  - split; constructor.
  - eapply add_food_item_ok; eassumption.
  - apply update_item_status_ok, IH.
  - exact IH.
  - exact IH.
  - apply delete_item_ok, IH.
Qed.

(** A pass, and a call of [generate_alerts], keep it too. *)
Lemma generate_alerts_ok (self : ExpiryTracker) (clk : Clock) (db : DB) :
  primary_key_ok db ->
  primary_key_ok (snd (check_expiry_status self clk db))
  /\ primary_key_ok (fst (generate_alerts self clk db)).
Proof.
  intros [Hnd Hle].
  assert (Hpass : primary_key_ok (snd (check_expiry_status self clk db))).
  { unfold primary_key_ok. rewrite check_expiry_status_store by exact Hnd.
    cbn [food_items food_items_seq]. split.
    - rewrite map_id_update; [exact Hnd | apply touch_id].
    - apply Forall_map. eapply Forall_impl; [|exact Hle].
      cbn beta. intros r Hr. rewrite touch_id. exact Hr. }
  split; [exact Hpass|].
  pose proof (generate_alerts_eq self clk db) as H. cbn zeta in H.
  unfold primary_key_ok. rewrite H; cbn [fst food_items food_items_seq].
  exact Hpass.
Qed.

End Invariant.

(* ================================================================== *)
(** ** The classifier *)

Section Classifier.
Import database expiry_tracker spec.

Lemma tier_cases (th : config.AlertThresholds) (d : Z) :
  (d < 0 -> tier th d = Critical)
  /\ (0 <= d -> d <= config.thr_critical th -> tier th d = Critical)
  /\ (0 <= d -> config.thr_critical th < d -> d <= config.thr_warning th ->
      tier th d = Warning)
  /\ (0 <= d -> config.thr_critical th < d -> config.thr_warning th < d ->
      d <= config.thr_normal th -> tier th d = Normal)
  /\ (0 <= d -> config.thr_critical th < d -> config.thr_warning th < d ->
      config.thr_normal th < d -> tier th d = Fresh).
Proof.
  unfold tier.
  destruct (Z.ltb_spec d 0);
    destruct (Z.leb_spec d (config.thr_critical th));
    destruct (Z.leb_spec d (config.thr_warning th));
    destruct (Z.leb_spec d (config.thr_normal th));
    repeat split; intros; solve [reflexivity | lia].
Qed.

End Classifier.

(** C1: the groups [check_expiry_status] returns hold, in fetch order, the
    summaries of the dated rows, each in the group of its tier and in no
    other; the tier is the first match of the chain [d < 0] (critical),
    [d <= critical] (critical), [d <= warning] (warning), [d <= normal]
    (normal), otherwise fresh.  With the configured thresholds 1, 3, 7 the
    day counts -1, 0, 1, 2, 3, 4, 7, 8 give critical, critical, critical,
    warning, warning, normal, normal, fresh. *)
Theorem C1_tier_assignment :
  forall (self : expiry_tracker.ExpiryTracker) (clk : Clock) (db : database.DB),
    let th := expiry_tracker.alert_thresholds self in
    let infos := spec.item_infos (now clk) (database.get_all_items false db) in
    let g := fst (expiry_tracker.check_expiry_status self clk db) in
    (forall t, spec.group t g = filter (spec.in_tier th t) infos)
    /\ (forall item e t,
          In item (database.get_all_items false db) ->
          database.expiry_date item = Some e ->
          (In (expiry_tracker.make_info item e
                 (expiry_tracker.days_until_expiry (now clk) e)) (spec.group t g)
           <-> t = spec.tier th (expiry_tracker.days_until_expiry (now clk) e)))
    /\ (forall d,
          (d < 0 -> spec.tier th d = spec.Critical)
          /\ (0 <= d -> d <= config.thr_critical th -> spec.tier th d = spec.Critical)
          /\ (0 <= d -> config.thr_critical th < d -> d <= config.thr_warning th ->
              spec.tier th d = spec.Warning)
          /\ (0 <= d -> config.thr_critical th < d -> config.thr_warning th < d ->
              d <= config.thr_normal th -> spec.tier th d = spec.Normal)
          /\ (0 <= d -> config.thr_critical th < d -> config.thr_warning th < d ->
              config.thr_normal th < d -> spec.tier th d = spec.Fresh))
    /\ expiry_tracker.alert_thresholds expiry_tracker.__init__
       = {| config.thr_critical := 1; config.thr_warning := 3; config.thr_normal := 7 |}
    /\ map (spec.tier (expiry_tracker.alert_thresholds expiry_tracker.__init__))
           [-1; 0; 1; 2; 3; 4; 7; 8]
       = [spec.Critical; spec.Critical; spec.Critical; spec.Warning; spec.Warning;
          spec.Normal; spec.Normal; spec.Fresh].
Proof.
  intros self clk db th infos g.
  assert (Hg : forall t, spec.group t g = filter (spec.in_tier th t) infos).
  { intros t. subst g. rewrite check_expiry_status_fold; cbn [fst].
    apply grouped_empty. }
  split; [exact Hg|]. split; [|split; [|split]].
  - intros item e t Hitem He. rewrite Hg, filter_In.
    unfold spec.in_tier; cbn [expiry_tracker.days_remaining expiry_tracker.make_info].
    rewrite tier_eqb_eq. split.
    + intros [_ H]. symmetry. exact H.
    + intros ->. split; [|reflexivity].
      apply item_infos_In. exists item, e. auto.
  - intros d. apply tier_cases.
  - reflexivity.
  - reflexivity.
Qed.

(** C5 as stated fails: at 10:00 an item whose date is today (its midnight
    lies ten hours back, less than one full day) counts -1 days, where
    truncation toward zero would give 0. *)
Lemma C5_truncation_refuted :
  0 < now sample.clk - datetime.to_datetime sample.today < datetime.US_PER_DAY
  /\ expiry_tracker.days_until_expiry (now sample.clk) sample.today = -1
  /\ spec.days_truncated (now sample.clk) sample.today = 0
  /\ ~ (forall now_ e,
          expiry_tracker.days_until_expiry now_ e = spec.days_truncated now_ e).
Proof.
  split; [|split; [|split]].
  - vm_compute. split; reflexivity.
  - reflexivity.
  - reflexivity.
  - intros H. specialize (H (now sample.clk) sample.today). vm_compute in H.
    discriminate.
Qed.

(** C5, amended: [days_remaining] is the floor of the difference in whole
    days ([d] days fit below it and [d + 1] do not); it agrees with
    truncation toward zero exactly when the date's midnight is not in the
    past or the difference is a whole number of days, and a date whose
    midnight lies up to one day back counts -1. *)
Theorem C5_days_remaining_is_floor :
  forall (now_ e : Z),
    let d := expiry_tracker.days_until_expiry now_ e in
    let diff := datetime.to_datetime e - now_ in
    d = datetime.days (datetime.sub (datetime.to_datetime e) now_)
    /\ datetime.US_PER_DAY * d <= diff < datetime.US_PER_DAY * (d + 1)
    /\ (0 <= diff -> d = spec.days_truncated now_ e)
    /\ (diff < 0 -> diff mod datetime.US_PER_DAY <> 0 ->
        d = spec.days_truncated now_ e - 1)
    /\ (- datetime.US_PER_DAY <= diff < 0 -> d = -1).
Proof.
  intros now_ e d diff.
  pose proof (days_until_expiry_floor now_ e) as Hfl.
  pose proof US_PER_DAY_pos as Hpos.
  assert (Hd : d = diff / datetime.US_PER_DAY) by reflexivity.
  assert (Ht : spec.days_truncated now_ e = Z.quot diff datetime.US_PER_DAY)
    by reflexivity.
  change (datetime.US_PER_DAY * d <= diff < datetime.US_PER_DAY * (d + 1)) in Hfl.
  split; [reflexivity|]. clearbody d diff.
  split; [exact Hfl|]. split; [|split].
  - intros Hnn. rewrite Ht, Hd. symmetry. apply Z.quot_div_nonneg; lia.
  - intros Hneg Hmod. rewrite Ht.
    pose proof (Z.quot_rem' diff datetime.US_PER_DAY) as Hq.
    pose proof (Z.rem_bound_pos_neg diff datetime.US_PER_DAY Hpos ltac:(lia)) as Hr.
    assert (Hrem : Z.rem diff datetime.US_PER_DAY <> 0).
    { intros Hz. apply Hmod. apply Z.rem_divide in Hz; [|lia].
      apply Z.mod_divide; [lia | exact Hz]. }
    nia.
  - intros Hb. nia.
Qed.

(* ================================================================== *)
(** ** Alerts of one call *)

Section Alerts.
Import database expiry_tracker spec.

Variable self : ExpiryTracker.
Variable clk : Clock.

Lemma generate_alerts_alerts (db : DB) :
  alerts (fst (generate_alerts self clk db))
  = alerts db
    ++ inserted (utc clk) (alerts_seq db)
                (payloads (fst (check_expiry_status self clk db))).
Proof.
  pose proof (generate_alerts_eq self clk db) as H. cbn zeta in H.
  rewrite H; cbn [fst alerts].
  destruct (check_expiry_status_alerts self clk db) as [Ha [Hs _]].
  rewrite Ha, Hs. reflexivity.
Qed.

Lemma generate_alerts_seq (db : DB) :
  alerts_seq (fst (generate_alerts self clk db))
  = alerts_seq db
    + Z.of_nat (List.length (payloads (fst (check_expiry_status self clk db)))).
Proof.
  pose proof (generate_alerts_eq self clk db) as H. cbn zeta in H.
  rewrite H; cbn [fst alerts_seq].
  destruct (check_expiry_status_alerts self clk db) as [_ [Hs _]].
  rewrite Hs. reflexivity.
Qed.

Lemma generate_alerts_food_items (db : DB) :
  food_items (fst (generate_alerts self clk db))
  = food_items (snd (check_expiry_status self clk db)).
Proof.
  pose proof (generate_alerts_eq self clk db) as H. cbn zeta in H.
  rewrite H. reflexivity.
Qed.

Lemma payloads_length (g : status_groups) :
  List.length (payloads g)
  = (List.length (critical g) + List.length (warning g) + List.length (normal g))%nat.
Proof. unfold payloads. rewrite !length_app, !length_map. lia. Qed.

Lemma payloads_ids (g : status_groups) :
  map (fun p => fst (fst (fst p))) (payloads g)
  = map info_id (critical g ++ warning g ++ normal g).
Proof.
  unfold payloads. rewrite !map_app, !map_map. reflexivity.
Qed.

Lemma critical_message_cases (i : item_info) :
  (days_remaining i < 0 ->
   critical_message i
   = (info_name i ++ " has EXPIRED " ++ str_of_int (Z.abs (days_remaining i))
        ++ " day(s) ago!")%string)
  /\ (days_remaining i = 0 ->
      critical_message i = (info_name i ++ " expires TODAY!")%string)
  /\ (0 < days_remaining i ->
      critical_message i
      = (info_name i ++ " expires in " ++ str_of_int (days_remaining i)
           ++ " day(s)!")%string).
Proof.
  unfold critical_message.
  destruct (Z.ltb_spec (days_remaining i) 0);
    destruct (Z.eqb_spec (days_remaining i) 0);
    repeat split; intros; solve [reflexivity | lia].
Qed.

Lemma Forall2_in_right {A B : Type} (P : A -> B -> Prop) (l : list A) (l' : list B)
      (b : B) :
  Forall2 P l l' -> In b l' -> exists a, In a l /\ P a b.
Proof.
  induction 1 as [|x y l l' Hxy HF IH]; cbn.
  - contradiction.
  - intros [<-|Hin].
    + exists x. auto.
    + destruct (IH Hin) as [a [Ha HP]]. exists a. auto.
Qed.

(** With distinct ids, the summaries of two different tiers never share
    an id. *)
Lemma groups_disjoint (db : DB) (t1 t2 : Tier) (i j : item_info) :
  NoDup (map id (food_items db)) ->
  let g := fst (check_expiry_status self clk db) in
  In i (group t1 g) -> In j (group t2 g) -> info_id i = info_id j -> t1 = t2.
Proof.
  intros Hnd g. subst g. rewrite check_expiry_status_fold; cbn [fst].
  rewrite !grouped_empty, !filter_In. intros [Hi Ti] [Hj Tj] Hid.
  assert (i = j).
  { eapply (NoDup_key_inj info_id); [| exact Hi | exact Hj | exact Hid].
    apply item_infos_NoDup, get_all_items_NoDup, Hnd. }
  subst j. unfold in_tier in *. apply tier_eqb_eq in Ti, Tj. congruence.
Qed.

(** A test that holds all along a stretch of numbers holds at each. *)
Lemma stretch_forall (p : Z -> bool) (lo len : Z) :
  forallb p (map (fun k => lo + Z.of_nat k) (seq 0 (Z.to_nat len))) = true ->
  forall n, lo <= n < lo + len -> p n = true.
Proof.
  intros H n Hn. rewrite forallb_forall in H. apply H.
  apply in_map_iff. exists (Z.to_nat (n - lo)). split; [lia|].
  apply in_seq. lia.
Qed.

(** [str] of a count is its decimal numeral: one digit below ten, and
    above it the numeral of the tens followed by the last digit. *)
Lemma str_of_int_digit (n : Z) :
  0 <= n < 10 ->
  str_of_int n = String (ascii_of_nat (48 + Z.to_nat n)) EmptyString.
Proof.
  intros Hn. apply String.eqb_eq.
  apply (@stretch_forall
           (fun n => String.eqb (str_of_int n)
                       (String (ascii_of_nat (48 + Z.to_nat n)) EmptyString))
           0 10); [vm_compute; reflexivity | lia].
Qed.

Lemma str_of_int_tens (n : Z) :
  10 <= n < 10000 ->
  str_of_int n = (str_of_int (n / 10) ++ str_of_int (n mod 10))%string.
Proof.
  intros Hn. apply String.eqb_eq.
  apply (@stretch_forall
           (fun n => String.eqb (str_of_int n)
                       (str_of_int (n / 10) ++ str_of_int (n mod 10))%string)
           10 9990); [vm_compute; reflexivity | lia].
Qed.

End Alerts.

(** C3: the alerts one call of [generate_alerts] inserts are, in order, one
    for each summary of the critical group, then of the warning group, then
    of the normal group, with the message of the tier: critical and
    overdue "<name> has EXPIRED <|days|> day(s) ago!", critical and due
    today "<name> expires TODAY!", critical otherwise
    "<name> expires in <days> day(s)!", warning and normal
    "<name> expires in <days> day(s)"; no inserted alert belongs to an
    item of the fresh group.  The number in a message is the decimal
    numeral of the count (one digit below ten, the numeral of the tens
    followed by the last digit above), so the fridge's five alerts read
    'Milk has EXPIRED 2 day(s) ago!', 'Yogurt expires TODAY!',
    'Chicken expires in 1 day(s)!', 'Lettuce expires in 2 day(s)' and
    'Cheese expires in 4 day(s)', and a critical item 12 days overdue
    reads '... has EXPIRED 12 day(s) ago!'. *)
Theorem C3_alert_messages :
  forall (self : expiry_tracker.ExpiryTracker) (clk : Clock) (db : database.DB),
    let g := fst (expiry_tracker.check_expiry_status self clk db) in
    let db' := fst (expiry_tracker.generate_alerts self clk db) in
    let name := expiry_tracker.info_name in
    let days := expiry_tracker.days_remaining in
    exists cs ws ns,
      database.alerts db' = database.alerts db ++ cs ++ ws ++ ns
      /\ Forall2
           (fun i a =>
              database.food_item_id a = expiry_tracker.info_id i
              /\ database.alert_type a = "expiry"
              /\ database.alert_level a = "critical"
              /\ (days i < 0 ->
                  database.message a
                  = (name i ++ " has EXPIRED " ++ str_of_int (Z.abs (days i))
                       ++ " day(s) ago!")%string)
              /\ (days i = 0 ->
                  database.message a = (name i ++ " expires TODAY!")%string)
              /\ (0 < days i ->
                  database.message a
                  = (name i ++ " expires in " ++ str_of_int (days i)
                       ++ " day(s)!")%string))
           (expiry_tracker.critical g) cs
      /\ Forall2
           (fun i a =>
              database.food_item_id a = expiry_tracker.info_id i
              /\ database.alert_type a = "expiry"
              /\ database.alert_level a = "warning"
              /\ database.message a
                 = (name i ++ " expires in " ++ str_of_int (days i) ++ " day(s)")%string)
           (expiry_tracker.warning g) ws
      /\ Forall2
           (fun i a =>
              database.food_item_id a = expiry_tracker.info_id i
              /\ database.alert_type a = "expiry"
              /\ database.alert_level a = "normal"
              /\ database.message a
                 = (name i ++ " expires in " ++ str_of_int (days i) ++ " day(s)")%string)
           (expiry_tracker.normal g) ns
      /\ (NoDup (map database.id (database.food_items db)) ->
          forall i a,
            In i (expiry_tracker.fresh g) -> In a (cs ++ ws ++ ns) ->
            database.food_item_id a <> expiry_tracker.info_id i)
      /\ (forall n, 0 <= n < 10 ->
            str_of_int n = String (ascii_of_nat (48 + Z.to_nat n)) EmptyString)
      /\ (forall n, 10 <= n < 10000 ->
            str_of_int n = (str_of_int (n / 10) ++ str_of_int (n mod 10))%string)
      /\ (forall i, days i = -12 ->
            expiry_tracker.critical_message i
            = (name i ++ " has EXPIRED 12 day(s) ago!")%string)
      /\ (forall i, days i = 105 ->
            expiry_tracker.plain_message i
            = (name i ++ " expires in 105 day(s)")%string)
      /\ map database.message
             (database.alerts
                (fst (expiry_tracker.generate_alerts expiry_tracker.__init__
                        sample.clk sample.fridge)))
         = [ "Milk has EXPIRED 2 day(s) ago!";
             "Yogurt expires TODAY!";
             "Chicken expires in 1 day(s)!";
             "Lettuce expires in 2 day(s)";
             "Cheese expires in 4 day(s)" ].
Proof.
  intros self clk db g db' name days.
  set (ts := utc clk). set (s0 := database.alerts_seq db).
  set (c := expiry_tracker.critical g).
  set (w := expiry_tracker.warning g).
  set (n := expiry_tracker.normal g).
  exists (spec.inserted ts s0 (map spec.critical_payload c)),
         (spec.inserted ts (s0 + Z.of_nat (List.length (map spec.critical_payload c)))
            (map (spec.plain_payload "warning") w)),
         (spec.inserted ts
            (s0 + Z.of_nat (List.length (map spec.critical_payload c))
             + Z.of_nat (List.length (map (spec.plain_payload "warning") w)))
            (map (spec.plain_payload "normal") n)).
  assert (HC : Forall2 (fun i a => spec.payload a = spec.critical_payload i) c
                 (spec.inserted ts s0 (map spec.critical_payload c)))
    by apply inserted_Forall2.
  assert (HW : Forall2 (fun i a => spec.payload a = spec.plain_payload "warning" i) w
                 (spec.inserted ts
                    (s0 + Z.of_nat (List.length (map spec.critical_payload c)))
                    (map (spec.plain_payload "warning") w)))
    by apply inserted_Forall2.
  assert (HN : Forall2 (fun i a => spec.payload a = spec.plain_payload "normal" i) n
                 (spec.inserted ts
                    (s0 + Z.of_nat (List.length (map spec.critical_payload c))
                     + Z.of_nat (List.length (map (spec.plain_payload "warning") w)))
                    (map (spec.plain_payload "normal") n)))
    by apply inserted_Forall2.
  split; [|split; [|split; [|split; [|split; [|split; [|split; [|split; [|split]]]]]]]].
  6: exact str_of_int_digit.
  6: exact str_of_int_tens.
  6: { intros i Hi. unfold expiry_tracker.critical_message. subst days.
       cbn beta in Hi. rewrite Hi. reflexivity. }
  6: { intros i Hi. unfold expiry_tracker.plain_message. subst days.
       cbn beta in Hi. rewrite Hi. reflexivity. }
  6: reflexivity.
  - subst db'. rewrite generate_alerts_alerts. fold g. unfold spec.payloads.
    fold c w n. rewrite !inserted_app. reflexivity.
  - eapply Forall2_weaken; [|exact HC]. cbn beta.
    intros i a _ Hp. unfold spec.payload, spec.critical_payload in Hp.
    injection Hp as H1 H2 H3 H4. rewrite H1, H2, H3, H4.
    repeat split; try apply critical_message_cases.
  - eapply Forall2_weaken; [|exact HW]. cbn beta.
    intros i a _ Hp. unfold spec.payload, spec.plain_payload in Hp.
    injection Hp as H1 H2 H3 H4. rewrite H1, H2, H3, H4.
    repeat split.
  - eapply Forall2_weaken; [|exact HN]. cbn beta.
    intros i a _ Hp. unfold spec.payload, spec.plain_payload in Hp.
    injection Hp as H1 H2 H3 H4. rewrite H1, H2, H3, H4.
    repeat split.
  - intros Hnd i a Hi Ha Hid.
    assert (Hsrc : exists j t, t <> spec.Fresh /\ In j (spec.group t g)
                               /\ database.food_item_id a = expiry_tracker.info_id j).
    { apply in_app_or in Ha as [Ha|Ha]; [|apply in_app_or in Ha as [Ha|Ha]].
      - destruct (Forall2_in_right a HC Ha) as [j [Hj Hp]].
        exists j, spec.Critical. split; [discriminate|]. split; [exact Hj|].
        unfold spec.payload, spec.critical_payload in Hp. congruence.
      - destruct (Forall2_in_right a HW Ha) as [j [Hj Hp]].
        exists j, spec.Warning. split; [discriminate|]. split; [exact Hj|].
        unfold spec.payload, spec.plain_payload in Hp. congruence.
      - destruct (Forall2_in_right a HN Ha) as [j [Hj Hp]].
        exists j, spec.Normal. split; [discriminate|]. split; [exact Hj|].
        unfold spec.payload, spec.plain_payload in Hp. congruence. }
    destruct Hsrc as [j [t [Ht [Hj Hja]]]].
    apply Ht. symmetry.
    apply (groups_disjoint self clk db spec.Fresh t i j Hnd); [exact Hi | exact Hj |].
    congruence.
Qed.

(* ================================================================== *)
(** ** Calling twice *)

Section Twice.
Import database expiry_tracker spec.

Variable self : ExpiryTracker.
Variables clk clk' : Clock.

(** What the second call fetches is what the first one fetched, with the
    overdue rows now marked expired. *)
Lemma get_all_items_after (db : DB) :
  NoDup (map id (food_items db)) ->
  get_all_items false (fst (generate_alerts self clk db))
  = map (touch clk) (get_all_items false db).
Proof.
  intros Hnd. unfold get_all_items.
  rewrite generate_alerts_food_items, check_expiry_status_store by exact Hnd.
  cbn [food_items].
  rewrite filter_map_commute.
  - apply order_by_expiry_date_map, touch_expiry_date.
  - intros x. rewrite touch_consumed. reflexivity.
Qed.

Lemma second_pass_groups (db : DB) :
  NoDup (map id (food_items db)) ->
  (forall r e, In r (food_items db) -> expiry_date r = Some e ->
               days_until_expiry (now clk') e = days_until_expiry (now clk) e) ->
  fst (check_expiry_status self clk' (fst (generate_alerts self clk db)))
  = fst (check_expiry_status self clk db).
Proof.
  intros Hnd Hdays. rewrite !check_expiry_status_fold; cbn [fst].
  rewrite get_all_items_after by exact Hnd.
  rewrite item_infos_touch. f_equal.
  apply item_infos_ext. intros r e Hr He.
  apply (Hdays r e); [|exact He]. apply get_all_items_In in Hr. tauto.
Qed.

End Twice.

(** C2: one call of [generate_alerts] appends to the alerts, whatever they
    already hold, exactly one unread row for each summary of the critical,
    warning and normal groups of its pass; a second call right after it
    (ids distinct as the primary key has them, no day count changed in
    between) appends a second full set with the same items, levels and
    messages under new alert ids. *)
Theorem C2_generate_alerts_not_idempotent :
  forall (self : expiry_tracker.ExpiryTracker) (clk clk' : Clock) (db : database.DB),
    NoDup (map database.id (database.food_items db)) ->
    (forall r e,
        In r (database.food_items db) -> database.expiry_date r = Some e ->
        expiry_tracker.days_until_expiry (now clk') e
        = expiry_tracker.days_until_expiry (now clk) e) ->
    let g := fst (expiry_tracker.check_expiry_status self clk db) in
    let db1 := fst (expiry_tracker.generate_alerts self clk db) in
    let db2 := fst (expiry_tracker.generate_alerts self clk' db1) in
    let k := (List.length (expiry_tracker.critical g)
              + List.length (expiry_tracker.warning g)
              + List.length (expiry_tracker.normal g))%nat in
    exists news1 news2,
      database.alerts db1 = database.alerts db ++ news1
      /\ database.alerts db2 = database.alerts db ++ news1 ++ news2
      /\ List.length news1 = k /\ List.length news2 = k
      /\ map database.food_item_id news1
         = map expiry_tracker.info_id
               (expiry_tracker.critical g ++ expiry_tracker.warning g
                  ++ expiry_tracker.normal g)
      /\ map spec.payload news2 = map spec.payload news1
      /\ Forall (fun a => database.is_read a = false) (news1 ++ news2)
      /\ NoDup (map database.alert_id (news1 ++ news2))
      /\ List.length (database.alerts db2)
         = (List.length (database.alerts db) + 2 * k)%nat.
Proof.
  intros self clk clk' db Hnd Hdays g db1 db2 k.
  set (ps := spec.payloads g).
  exists (spec.inserted (utc clk) (database.alerts_seq db) ps),
         (spec.inserted (utc clk') (database.alerts_seq db1) ps).
  assert (H1 : database.alerts db1
               = database.alerts db
                 ++ spec.inserted (utc clk) (database.alerts_seq db) ps).
  { subst db1 ps g. apply generate_alerts_alerts. }
  assert (H2 : database.alerts db2
               = database.alerts db1
                 ++ spec.inserted (utc clk') (database.alerts_seq db1) ps).
  { subst db2. rewrite generate_alerts_alerts. subst db1.
    rewrite second_pass_groups by assumption. reflexivity. }
  assert (Hk : List.length ps = k).
  { subst ps k. apply payloads_length. }
  assert (Hseq : database.alerts_seq db1
                 = database.alerts_seq db + Z.of_nat (List.length ps)).
  { subst db1 ps g. apply generate_alerts_seq. }
  split; [exact H1|]. split; [rewrite H2, H1, <- app_assoc; reflexivity|].
  split; [rewrite inserted_length; exact Hk|].
  split; [rewrite inserted_length; exact Hk|].
  split.
  { rewrite <- payloads_ids. fold ps.
    rewrite <- (inserted_payload (utc clk) (database.alerts_seq db) ps) at 2.
    rewrite map_map. reflexivity. }
  split; [rewrite !inserted_payload; reflexivity|].
  split; [apply Forall_app; split; apply inserted_unread|].
  split.
  { rewrite map_app.
    destruct (inserted_ids (utc clk) (database.alerts_seq db) ps) as [Hgt1 Hnd1].
    destruct (inserted_ids (utc clk') (database.alerts_seq db1) ps) as [Hgt2 Hnd2].
    assert (Hle1 : Forall (fun a => database.alert_id a <= database.alerts_seq db1)
                     (spec.inserted (utc clk) (database.alerts_seq db) ps)).
    { rewrite Hseq. clear. generalize (database.alerts_seq db) as s.
      induction ps as [|[[[i t] l] m] rest IH]; intros s; cbn [spec.inserted].
      - constructor.
      - constructor; [cbn; lia|].
        eapply Forall_impl; [|apply IH]. cbn. intros a Ha. lia. }
    apply NoDup_app; [exact Hnd1 | exact Hnd2 |].
    intros x Hx1 Hx2.
    apply in_map_iff in Hx1 as [a1 [E1 Ha1]].
    apply in_map_iff in Hx2 as [a2 [E2 Ha2]].
    rewrite Forall_forall in Hle1, Hgt2.
    specialize (Hle1 a1 Ha1). specialize (Hgt2 a2 Ha2). lia. }
  rewrite H2, H1, !length_app, !inserted_length, Hk. lia.
Qed.

(** Tactics for the concrete stores of [sample]. *)
Ltac distinct_ids :=
  vm_compute;
  repeat (constructor; [cbn; intros H; repeat (destruct H as [H|H]; [discriminate H|]); exact H|]);
  constructor.

Ltac each_row Hr :=
  vm_compute in Hr;
  repeat (destruct Hr as [Hr|Hr]; [subst|]); [..|contradiction].

(** The fridge, asked twice five seconds apart: five alerts each time. *)
Lemma C2_fridge_called_twice :
  List.length
    (database.alerts
       (fst (expiry_tracker.generate_alerts expiry_tracker.__init__ sample.clk'
               (fst (expiry_tracker.generate_alerts expiry_tracker.__init__
                       sample.clk sample.fridge)))))
  = 10%nat.
Proof.
  assert (Hnd : NoDup (map database.id (database.food_items sample.fridge)))
    by distinct_ids.
  assert (Hdays : forall r e,
             In r (database.food_items sample.fridge) ->
             database.expiry_date r = Some e ->
             expiry_tracker.days_until_expiry (now sample.clk') e
             = expiry_tracker.days_until_expiry (now sample.clk) e).
  { intros r e Hr He. each_row Hr; cbn in He; inversion He; subst; reflexivity. }
  destruct (C2_generate_alerts_not_idempotent expiry_tracker.__init__
              sample.clk sample.clk' sample.fridge Hnd Hdays)
    as [news1 [news2 [_ [_ [_ [_ [_ [_ [_ [_ Hlen]]]]]]]]]].
  rewrite Hlen. reflexivity.
Defined.

(* ================================================================== *)
(** ** What a pass leaves alone *)

Section Frame.
Import database expiry_tracker spec.

Variable self : ExpiryTracker.
Variable clk : Clock.

Lemma inserted_item_ids (ts seq : Z) (g : status_groups) :
  map food_item_id (inserted ts seq (payloads g))
  = map info_id (critical g ++ warning g ++ normal g).
Proof.
  rewrite <- payloads_ids.
  rewrite <- (inserted_payload ts seq (payloads g)) at 2.
  rewrite map_map. reflexivity.
Qed.

Lemma touch_cases (r : FoodItem) :
  (forall e, expiry_date r = Some e -> days_until_expiry (now clk) e < 0 ->
             status r <> "consumed" -> touch clk r = set_status "expired" (utc clk) r)
  /\ (expiry_date r = None -> touch clk r = r)
  /\ (forall e, expiry_date r = Some e -> 0 <= days_until_expiry (now clk) e ->
                touch clk r = r)
  /\ (status r = "consumed" -> touch clk r = r)
  /\ (status r = "expired" -> status (touch clk r) = "expired")
  /\ (touch clk r <> r ->
      status (touch clk r) = "expired"
      /\ exists e, expiry_date r = Some e /\ days_until_expiry (now clk) e < 0).
Proof.
  unfold touch, overdue.
  destruct (expiry_date r) as [e0|] eqn:He.
  - destruct (String.eqb_spec (status r) "consumed") as [Hc|Hc];
      destruct (Z.ltb_spec (days_until_expiry (now clk) e0) 0) as [Hd|Hd];
      cbn [negb andb]; repeat split; intros;
      try match goal with H : Some _ = Some _ |- _ => injection H as <- end;
      try reflexivity; try congruence; try lia; try contradiction.
    exists e0. split; [reflexivity | exact Hd].
  - repeat split; intros; try reflexivity; try congruence; try contradiction.
Qed.

(** Every summary comes from a fetched row that carries a date. *)
Lemma group_source (db : DB) (t : Tier) (i : item_info) :
  In i (group t (fst (check_expiry_status self clk db))) ->
  exists it e, In it (food_items db) /\ expiry_date it = Some e
               /\ String.eqb (status it) "consumed" = false
               /\ i = make_info it e (days_until_expiry (now clk) e).
Proof.
  rewrite check_expiry_status_fold; cbn [fst]. rewrite grouped_empty, filter_In.
  intros [Hi _]. apply item_infos_In in Hi as [it [e [Hit [He Hi]]]].
  apply get_all_items_In in Hit as [Hit Hs].
  exists it, e. auto.
Qed.

Lemma in_groups (g : status_groups) (i : item_info) :
  In i (critical g ++ warning g ++ normal g ++ fresh g) ->
  exists t, In i (group t g).
Proof.
  intros H. repeat (apply in_app_or in H as [H|H]).
  - exists Critical. exact H.
  - exists Warning. exact H.
  - exists Normal. exact H.
  - exists Fresh. exact H.
Qed.

End Frame.

(** C4: a classification pass rewrites exactly the rows it fetches (status
    not consumed) whose day count is negative, setting their status to
    expired (and stamping [last_updated]); a row with no date, with a day
    count of zero or more, or consumed is left identical in every field;
    a consumed row stays consumed and an expired row stays expired.
    [generate_alerts] changes the item table only through that pass, and
    the pass writes no alert.  ([get_items_for_recipe] and
    [calculate_waste_statistics] return no store at all.) *)
Theorem C4_pass_frame :
  forall (self : expiry_tracker.ExpiryTracker) (clk : Clock) (db : database.DB),
    NoDup (map database.id (database.food_items db)) ->
    let db1 := snd (expiry_tracker.check_expiry_status self clk db) in
    let db2 := fst (expiry_tracker.generate_alerts self clk db) in
    let days := expiry_tracker.days_until_expiry (now clk) in
    Forall2
      (fun r r' =>
         (forall e, database.expiry_date r = Some e -> days e < 0 ->
                    database.status r <> "consumed" ->
                    r' = database.set_status "expired" (utc clk) r)
         /\ (database.expiry_date r = None -> r' = r)
         /\ (forall e, database.expiry_date r = Some e -> 0 <= days e -> r' = r)
         /\ (database.status r = "consumed" -> r' = r)
         /\ (database.status r = "expired" -> database.status r' = "expired")
         /\ (r' <> r ->
             database.status r' = "expired"
             /\ exists e, database.expiry_date r = Some e /\ days e < 0))
      (database.food_items db) (database.food_items db1)
    /\ database.food_items db2 = database.food_items db1
    /\ database.alerts db1 = database.alerts db
    /\ database.food_items_seq db2 = database.food_items_seq db.
Proof.
  intros self clk db Hnd db1 db2 days.
  split; [|split; [|split]].
  - subst db1. rewrite check_expiry_status_store by exact Hnd. cbn [database.food_items].
    eapply Forall2_weaken; [|apply Forall2_map_right]. cbn beta.
    intros r r' _ ->. apply touch_cases.
  - apply generate_alerts_food_items.
  - apply check_expiry_status_alerts.
  - subst db2. pose proof (generate_alerts_eq self clk db) as H. cbn zeta in H.
    rewrite H; cbn [fst database.food_items_seq].
    apply check_expiry_status_alerts.
Qed.

(** In the fridge only the milk changes status; the butter stays consumed. *)
Lemma C4_fridge_butter_stays_consumed :
  map database.status
      (database.food_items
         (fst (expiry_tracker.generate_alerts expiry_tracker.__init__
                 sample.clk sample.fridge)))
  = ["expired"; "fresh"; "fresh"; "fresh"; "fresh"; "fresh"; "fresh"; "consumed"].
Proof.
  assert (Hnd : NoDup (map database.id (database.food_items sample.fridge)))
    by distinct_ids.
  destruct (C4_pass_frame expiry_tracker.__init__ sample.clk sample.fridge Hnd)
    as [_ [Hsame _]].
  rewrite Hsame. reflexivity.
Defined.

(** C6: a row without an expiry date is skipped: no summary in any of the
    four groups carries its id, the call inserts no alert for it, and the
    row is found unchanged in the store afterwards, the only row under its
    id.  The pass is a total function; nothing is raised. *)
Theorem C6_missing_expiry_skipped :
  forall (self : expiry_tracker.ExpiryTracker) (clk : Clock) (db : database.DB)
         (r : database.FoodItem),
    NoDup (map database.id (database.food_items db)) ->
    In r (database.food_items db) ->
    database.expiry_date r = None ->
    let g := fst (expiry_tracker.check_expiry_status self clk db) in
    let db1 := snd (expiry_tracker.check_expiry_status self clk db) in
    let db' := fst (expiry_tracker.generate_alerts self clk db) in
    (forall i,
        In i (expiry_tracker.critical g ++ expiry_tracker.warning g
                ++ expiry_tracker.normal g ++ expiry_tracker.fresh g) ->
        expiry_tracker.info_id i <> database.id r)
    /\ (In r (database.food_items db1) /\ In r (database.food_items db'))
    /\ (forall r', In r' (database.food_items db') ->
                   database.id r' = database.id r -> r' = r)
    /\ exists news,
         database.alerts db' = database.alerts db ++ news
         /\ Forall (fun a => database.food_item_id a <> database.id r) news.
Proof.
  intros self clk db r Hnd Hr He g db1 db'.
  assert (Hgroups : forall i,
             In i (expiry_tracker.critical g ++ expiry_tracker.warning g
                     ++ expiry_tracker.normal g ++ expiry_tracker.fresh g) ->
             expiry_tracker.info_id i <> database.id r).
  { intros i Hi Hid. apply in_groups in Hi as [t Hi].
    apply group_source in Hi as [it [e [Hit [Hite [_ ->]]]]].
    cbn [expiry_tracker.info_id expiry_tracker.make_info] in Hid.
    assert (it = r) by (apply (same_id_same_row (database.food_items db)); assumption).
    subst it. congruence. }
  assert (Hstore : database.food_items db1
                   = map (spec.touch clk) (database.food_items db)).
  { subst db1. rewrite check_expiry_status_store by exact Hnd. reflexivity. }
  assert (Htouch : spec.touch clk r = r).
  { destruct (touch_cases clk r) as [_ [H _]]. apply H, He. }
  assert (Hdb' : database.food_items db' = database.food_items db1)
    by apply generate_alerts_food_items.
  split; [exact Hgroups|]. split; [|split].
  - rewrite Hdb', Hstore.
    assert (Hin : In r (map (spec.touch clk) (database.food_items db))).
    { rewrite <- Htouch. apply in_map, Hr. }
    split; exact Hin.
  - intros r' Hr' Hid. rewrite Hdb', Hstore in Hr'.
    apply in_map_iff in Hr' as [x [<- Hx]].
    rewrite touch_id in Hid.
    assert (x = r) by (apply (same_id_same_row (database.food_items db)); assumption).
    subst x. exact Htouch.
  - exists (spec.inserted (utc clk) (database.alerts_seq db) (spec.payloads g)).
    split; [apply generate_alerts_alerts|].
    apply Forall_forall. intros a Ha Hid.
    assert (Hin : In (database.food_item_id a)
                     (map database.food_item_id
                          (spec.inserted (utc clk) (database.alerts_seq db)
                                         (spec.payloads g))))
      by (apply in_map, Ha).
    rewrite inserted_item_ids in Hin.
    apply in_map_iff in Hin as [i [Hi Hin]].
    apply (Hgroups i); [|congruence].
    rewrite !app_assoc. apply in_or_app. left. rewrite <- !app_assoc. exact Hin.
Qed.

(** No alert of the fridge is for the rice (id 7), which has no date. *)
Lemma C6_fridge_rice_skipped :
  Forall (fun a => database.food_item_id a <> 7)
         (database.alerts
            (fst (expiry_tracker.generate_alerts expiry_tracker.__init__
                    sample.clk sample.fridge))).
Proof.
  assert (Hnd : NoDup (map database.id (database.food_items sample.fridge)))
    by distinct_ids.
  assert (Hr : In sample.rice (database.food_items sample.fridge)).
  { vm_compute. do 6 right. left. reflexivity. }
  destruct (C6_missing_expiry_skipped expiry_tracker.__init__ sample.clk
              sample.fridge sample.rice Hnd Hr eq_refl)
    as [_ [_ [_ [news [Hal Hnews]]]]].
  rewrite Hal. exact Hnews.
Defined.

(* ================================================================== *)
(** ** Recipe candidates *)

Section Candidates.
Import database expiry_tracker spec.

Variable clk : Clock.

Lemma get_expiring_items_In (db : DB) (r : FoodItem) :
  In r (get_expiring_items clk 3 db)
  <-> In r (food_items db)
      /\ exists e, expiry_date r = Some e /\ e <= threshold_day clk
                   /\ status r = "fresh".
Proof.
  unfold get_expiring_items. rewrite order_by_expiry_date_In, filter_In.
  fold (threshold_day clk). split.
  - intros [Hr Hq]. split; [exact Hr|].
    destruct (expiry_date r) as [e|]; [|discriminate].
    apply andb_true_iff in Hq as [Hle Hs].
    exists e. rewrite Z.leb_le in Hle. apply String.eqb_eq in Hs. auto.
  - intros [Hr [e [He [Hle Hs]]]]. split; [exact Hr|].
    rewrite He. apply andb_true_iff. split.
    + apply Z.leb_le, Hle.
    + apply String.eqb_eq, Hs.
Qed.

Lemma get_expiring_items_sorted (db : DB) :
  StronglySorted by_expiry (get_expiring_items clk 3 db).
Proof. apply order_by_expiry_date_strongly_sorted. Qed.

Lemma head_prefix {A : Type} (n : Z) (l : list A) :
  exists rest, l = head n l ++ rest.
Proof.
  unfold head. destruct (0 <=? n).
  - exists (skipn (Z.to_nat n) l). symmetry. apply firstn_skipn.
  - exists (skipn (List.length l - Z.to_nat (- n)) l). symmetry. apply firstn_skipn.
Qed.

Lemma head_length {A : Type} (n : Z) (l : list A) :
  0 <= n -> Z.of_nat (List.length (head n l)) <= n.
Proof.
  intros Hn. unfold head. destruct (Z.leb_spec 0 n); [|lia].
  rewrite length_firstn. lia.
Qed.

Lemma head_In {A : Type} (n : Z) (l : list A) (x : A) :
  In x (head n l) -> In x l.
Proof.
  intros H. destruct (head_prefix n l) as [rest E]. rewrite E.
  apply in_or_app. left. exact H.
Qed.

Lemma StronglySorted_prefix {A : Type} (R : A -> A -> Prop) (l1 l2 : list A) :
  StronglySorted R (l1 ++ l2) -> StronglySorted R l1.
Proof.
  induction l1 as [|a l1 IH]; cbn; intros H.
  - constructor.
  - inversion H as [|? ? Hs Hall]; subst. constructor.
    + apply IH, Hs.
    + apply Forall_app in Hall. tauto.
Qed.


(** The entry of a dated row. *)
Lemma recipe_entry_dated (r : FoodItem) (e : Z) :
  expiry_date r = Some e ->
  recipe_entry clk r
  = [{| ri_id := id r; ri_name := name r; ri_category := category r;
        ri_quantity := quantity r;
        ri_days_remaining := days_until_expiry (now clk) e |}].
Proof. intros He. unfold recipe_entry. rewrite He. reflexivity. Qed.

Lemma entries_In (l : list FoodItem) (x : recipe_item) :
  In x (flat_map (recipe_entry clk) l)
  <-> exists r e, In r l /\ expiry_date r = Some e
                  /\ x = {| ri_id := id r; ri_name := name r;
                            ri_category := category r; ri_quantity := quantity r;
                            ri_days_remaining := days_until_expiry (now clk) e |}.
Proof.
  rewrite in_flat_map. split.
  - intros [r [Hr Hx]]. unfold recipe_entry in Hx.
    destruct (expiry_date r) as [e|] eqn:He; [|destruct Hx].
    destruct Hx as [Hx|[]]. exists r, e. auto.
  - intros [r [e [Hr [He Hx]]]]. exists r. split; [exact Hr|].
    rewrite (recipe_entry_dated r He). left. symmetry. exact Hx.
Qed.

Lemma entries_length (l : list FoodItem) :
  Forall (fun r => expiry_date r <> None) l ->
  List.length (flat_map (recipe_entry clk) l) = List.length l.
Proof.
  induction 1 as [|r l Hr Hl IH]; cbn [flat_map].
  - reflexivity.
  - rewrite length_app, IH. unfold recipe_entry.
    destruct (expiry_date r); [reflexivity | contradiction].
Qed.

(** Soonest expiry first, read off the day counts. *)
Lemma entries_sorted (l : list FoodItem) :
  StronglySorted by_expiry l ->
  StronglySorted Z.le (map ri_days_remaining (flat_map (recipe_entry clk) l)).
Proof.
  induction 1 as [|r l Hs IH Hall]; cbn [flat_map].
  - constructor.
  - unfold recipe_entry at 1. destruct (expiry_date r) as [e|] eqn:He.
    + cbn [app map ri_days_remaining]. constructor; [exact IH|].
      apply Forall_forall. intros d Hd.
      apply in_map_iff in Hd as [x [<- Hx]].
      apply entries_In in Hx as [r' [e' [Hr' [He' ->]]]].
      cbn [ri_days_remaining].
      rewrite Forall_forall in Hall. specialize (Hall r' Hr').
      unfold by_expiry in Hall. rewrite He, He' in Hall. cbn in Hall.
      apply days_until_expiry_mono. apply Z.leb_le, Hall.
    + exact IH.
Qed.

Lemma get_items_for_recipe_eq (max_items : option Z) (db : DB) :
  get_items_for_recipe clk max_items db
  = flat_map (recipe_entry clk)
      (head (match max_items with
             | None => config.MAX_INGREDIENTS_FOR_RECIPE
             | Some n => n
             end)
            (get_expiring_items clk 3 db)).
Proof.
  unfold get_items_for_recipe.
  destruct (get_expiring_items clk 3 db) eqn:E; [|reflexivity].
  unfold head. destruct (0 <=? _); rewrite firstn_nil; reflexivity.
Qed.

End Candidates.

Section Counting.
Import database expiry_tracker spec.






End Counting.

(** C7: [get_items_for_recipe(max_items)] (10 when [max_items] is None)
    returns the entries of the first [max_items] rows of the candidates
    in order of expiry date: at most [max_items] of them; each is a fresh
    row of the store whose date is on or before the day three days ahead,
    annotated with its day count (never above 3); the day counts are in
    ascending order; with no qualifying row the result is the empty list.
    On a shelf with items 5, 2 and 1 days from expiry, [max_items = 2]
    gives the items with 1 and 2 days, in that order. *)
Theorem C7_items_for_recipe :
  forall (clk : Clock) (max_items : option Z) (db : database.DB),
    let n := match max_items with
             | None => config.MAX_INGREDIENTS_FOR_RECIPE
             | Some m => m
             end in
    let cand := database.get_expiring_items clk 3 db in
    let out := expiry_tracker.get_items_for_recipe clk max_items db in
    (0 <= n ->
     Z.of_nat (List.length out) <= n
     /\ List.length out = Nat.min (Z.to_nat n) (List.length cand))
    /\ config.MAX_INGREDIENTS_FOR_RECIPE = 10
    /\ (forall x, In x out ->
          exists r e,
            In r (database.food_items db)
            /\ database.status r = "fresh"
            /\ database.expiry_date r = Some e
            /\ e <= spec.threshold_day clk
            /\ x = {| expiry_tracker.ri_id := database.id r;
                      expiry_tracker.ri_name := database.name r;
                      expiry_tracker.ri_category := database.category r;
                      expiry_tracker.ri_quantity := database.quantity r;
                      expiry_tracker.ri_days_remaining :=
                        expiry_tracker.days_until_expiry (now clk) e |}
            /\ expiry_tracker.ri_days_remaining x <= 3)
    /\ StronglySorted Z.le (map expiry_tracker.ri_days_remaining out)
    /\ StronglySorted spec.by_expiry cand
    /\ (exists later,
          flat_map (expiry_tracker.recipe_entry clk) cand = out ++ later)
    /\ ((forall r e,
            In r (database.food_items db) -> database.expiry_date r = Some e ->
            database.status r = "fresh" -> ~ e <= spec.threshold_day clk) ->
        out = [])
    /\ map expiry_tracker.days_remaining
           (spec.item_infos (now sample.clk) (database.food_items sample.shelf))
       = [5; 2; 1]
    /\ map (fun x => (expiry_tracker.ri_name x, expiry_tracker.ri_days_remaining x))
           (expiry_tracker.get_items_for_recipe sample.clk (Some 2) sample.shelf)
       = [("Cream", 1); ("Ham", 2)].
Proof.
  intros clk max_items db n cand out.
  assert (Hout : out = flat_map (expiry_tracker.recipe_entry clk) (head n cand)).
  { subst out n cand. apply get_items_for_recipe_eq. }
  assert (Hdated : Forall (fun r => database.expiry_date r <> None) cand).
  { apply Forall_forall. intros r Hr.
    apply get_expiring_items_In in Hr as [_ [e [He _]]]. congruence. }
  destruct (head_prefix n cand) as [rest Hrest].
  assert (Hdated' : Forall (fun r => database.expiry_date r <> None) (head n cand)).
  { rewrite Hrest in Hdated. apply Forall_app in Hdated. tauto. }
  assert (Hlen : List.length out = List.length (head n cand)).
  { rewrite Hout. apply entries_length, Hdated'. }
  split; [|split; [|split; [|split; [|split; [|split; [|split; [|split]]]]]]].
  - intros Hn. split.
    + rewrite Hlen. apply head_length, Hn.
    + rewrite Hlen. unfold head. destruct (Z.leb_spec 0 n); [|lia].
      apply length_firstn.
  - reflexivity.
  - intros x Hx. rewrite Hout in Hx.
    apply entries_In in Hx as [r [e [Hr [He ->]]]].
    apply head_In in Hr. apply get_expiring_items_In in Hr as [Hr [e' [He' [Hle Hs]]]].
    rewrite He in He'. injection He' as <-.
    exists r, e. repeat split; try assumption.
    cbn [expiry_tracker.ri_days_remaining].
    apply days_until_expiry_within. exact Hle.
  - rewrite Hout. apply entries_sorted.
    apply StronglySorted_prefix with (l2 := rest). rewrite <- Hrest.
    apply get_expiring_items_sorted.
  - apply get_expiring_items_sorted.
  - exists (flat_map (expiry_tracker.recipe_entry clk) rest).
    rewrite Hout, <- flat_map_app, <- Hrest. reflexivity.
  - intros Hnone. rewrite Hout.
    assert (Hc : cand = []).
    { destruct cand as [|h t] eqn:E; [reflexivity|]. exfalso.
      assert (Hh : In h (database.get_expiring_items clk 3 db)).
      { fold cand. rewrite E. left. reflexivity. }
      apply get_expiring_items_In in Hh as [Hh [e [He [Hle Hs]]]].
      apply (Hnone h e); assumption. }
    rewrite Hc. unfold head. destruct (0 <=? n); rewrite firstn_nil; reflexivity.
  - reflexivity.
  - reflexivity.
Qed.




(* ================================================================== *)
(** ** Waste statistics *)

Section Waste.
Import database expiry_tracker spec.

Lemma column_sum_acc (col : category_row -> Z) (df : list category_row) (a : Z) :
  fold_left (fun acc g => acc + col g) df a = a + column_sum col df.
Proof.
  unfold column_sum. revert a. induction df as [|g df IH]; intros a; cbn [fold_left].
  - lia.
  - rewrite IH, (IH (0 + col g)). lia.
Qed.

Lemma column_sum_cons (col : category_row -> Z) (g : category_row)
      (df : list category_row) :
  column_sum col (g :: df) = col g + column_sum col df.
Proof. unfold column_sum at 1. cbn [fold_left]. apply column_sum_acc. Qed.

Lemma add_to_group_count (r : FoodItem) (groups : list category_row) :
  column_sum cr_count (add_to_group r groups) = column_sum cr_count groups + 1.
Proof.
  induction groups as [|g rest IH]; cbn [add_to_group].
  - reflexivity.
  - destruct (category_eqb (cr_category g) (category r)).
    + rewrite !column_sum_cons. cbn [cr_count]. lia.
    + rewrite !column_sum_cons, IH. lia.
Qed.

Lemma add_to_group_expired (r : FoodItem) (groups : list category_row) :
  column_sum cr_expired_count (add_to_group r groups)
  = column_sum cr_expired_count groups + expired_flag r.
Proof.
  induction groups as [|g rest IH]; cbn [add_to_group].
  - rewrite column_sum_cons. cbn. lia.
  - destruct (category_eqb (cr_category g) (category r)).
    + rewrite !column_sum_cons. cbn [cr_expired_count]. lia.
    + rewrite !column_sum_cons, IH. lia.
Qed.

Lemma group_fold_count (rows : list FoodItem) (groups : list category_row) :
  column_sum cr_count (fold_left (fun gs r => add_to_group r gs) rows groups)
  = column_sum cr_count groups + Z.of_nat (List.length rows).
Proof.
  revert groups. induction rows as [|r rows IH]; intros groups; cbn [fold_left].
  - cbn. lia.
  - rewrite IH, add_to_group_count. cbn [List.length]. lia.
Qed.

(** Sorting the groups moves them and changes none. *)
Lemma insert_group_perm {A : Type} (key : A -> option string) (x : A) (l : list A) :
  Permutation (insert_group key x l) (x :: l).
Proof.
  induction l as [|y rest IH]; cbn [insert_group]; [reflexivity|].
  destruct (category_leb (key x) (key y)); [reflexivity|].
  rewrite IH. apply perm_swap.
Qed.

Lemma order_by_category_perm {A : Type} (key : A -> option string) (l : list A) :
  Permutation (order_by_category key l) l.
Proof.
  induction l as [|x rest IH]; cbn [order_by_category fold_right]; [reflexivity|].
  fold (order_by_category key rest).
  rewrite insert_group_perm. constructor. exact IH.
Qed.

Lemma insert_group_map {A B : Type} (f : A -> B) (key : A -> option string)
      (key' : B -> option string) (x : A) (l : list A) :
  (forall a, key' (f a) = key a) ->
  insert_group key' (f x) (map f l) = map f (insert_group key x l).
Proof.
  intros Hk. induction l as [|y rest IH]; cbn [map insert_group]; [reflexivity|].
  rewrite !Hk. destruct (category_leb (key x) (key y)); cbn [map].
  - reflexivity.
  - rewrite IH. reflexivity.
Qed.

Lemma order_by_category_map {A B : Type} (f : A -> B) (key : A -> option string)
      (key' : B -> option string) (l : list A) :
  (forall a, key' (f a) = key a) ->
  order_by_category key' (map f l) = map f (order_by_category key l).
Proof.
  intros Hk. induction l as [|x rest IH]; cbn [map order_by_category fold_right];
    [reflexivity|].
  fold (order_by_category key' (map f rest)). fold (order_by_category key rest).
  rewrite IH. apply insert_group_map, Hk.
Qed.

Lemma column_sum_perm (col : category_row -> Z) (l l' : list category_row) :
  Permutation l l' -> column_sum col l = column_sum col l'.
Proof.
  induction 1 as [|x l l' _ IH|x y l|l l' l'' _ IH1 _ IH2].
  - reflexivity.
  - rewrite !column_sum_cons, IH. reflexivity.
  - rewrite !column_sum_cons. lia.
  - rewrite IH1. exact IH2.
Qed.

Lemma group_by_category_count (rows : list FoodItem) :
  column_sum cr_count (group_by_category rows) = Z.of_nat (List.length rows).
Proof.
  unfold group_by_category.
  rewrite (column_sum_perm cr_count (order_by_category_perm cr_category _)).
  rewrite group_fold_count. reflexivity.
Qed.

Lemma group_fold_expired (rows : list FoodItem) (groups : list category_row) :
  column_sum cr_expired_count (fold_left (fun gs r => add_to_group r gs) rows groups)
  = column_sum cr_expired_count groups
    + Z.of_nat (List.length (filter (fun r => String.eqb (status r) "expired") rows)).
Proof.
  revert groups. induction rows as [|r rows IH]; intros groups; cbn [fold_left].
  - cbn. lia.
  - rewrite IH, add_to_group_expired. cbn [filter]. unfold expired_flag.
    destruct (String.eqb (status r) "expired"); cbn [List.length]; lia.
Qed.

Lemma group_by_category_expired (rows : list FoodItem) :
  column_sum cr_expired_count (group_by_category rows)
  = Z.of_nat (List.length (filter (fun r => String.eqb (status r) "expired") rows)).
Proof.
  unfold group_by_category.
  rewrite (column_sum_perm cr_expired_count (order_by_category_perm cr_category _)).
  rewrite group_fold_expired. reflexivity.
Qed.

(** A timestamp is on or after a day exactly from the first second of
    that day on. *)
Lemma window_first_second (day ts : Z) :
  day <= sql_date ts <-> day * datetime.SECONDS_PER_DAY <= ts.
Proof.
  unfold sql_date.
  assert (Hpos : 0 < datetime.SECONDS_PER_DAY) by reflexivity.
  pose proof (Z.mul_div_le ts _ Hpos) as Hfl.
  split; intros H.
  - nia.
  - apply Z.div_le_lower_bound; [exact Hpos | lia].
Qed.

(** [hundredths] is a nearest whole number of hundredths. *)
Lemma hundredths_nearest (expired total : Z) :
  0 < total ->
  2 * Z.abs (hundredths expired total * total - 10000 * expired) <= total.
Proof.
  intros Hpos. unfold hundredths.
  pose proof (Z.div_mod (10000 * expired) total ltac:(lia)) as Hdm.
  pose proof (Z.mod_pos_bound (10000 * expired) total Hpos) as Hm.
  set (q := (10000 * expired) / total) in *.
  set (r := (10000 * expired) mod total) in *.
  destruct (Z.ltb_spec (2 * r) total); [nia|].
  destruct (Z.ltb_spec total (2 * r)); [nia|].
  destruct (Z.even q); nia.
Qed.

(** Up to 159 rows in the window the float computation and the exact
    rounding agree: the rate is the nearest hundredth, divided by 100. *)
Lemma rate_table (expired total : Z) :
  0 < total <= 159 -> 0 <= expired <= total ->
  numpy.round2
    (PrimFloat.mul
       (PrimFloat.div (numpy.float_of_int expired) (numpy.float_of_int total))
       100%float)
  = PrimFloat.div (numpy.float_of_int (hundredths expired total)) 100%float.
Proof.
  intros Ht He. apply FloatAxioms.Leibniz.eqb_spec.
  pose (row := fun t e =>
          PrimFloat.Leibniz.eqb
            (numpy.round2
               (PrimFloat.mul
                  (PrimFloat.div (numpy.float_of_int e) (numpy.float_of_int t))
                  100%float))
            (PrimFloat.div (numpy.float_of_int (hundredths e t)) 100%float)).
  change (row total expired = true).
  apply (@stretch_forall (row total) 0 (total + 1)); [|lia].
  apply (@stretch_forall
           (fun t => forallb (row t)
                       (map (fun k => 0 + Z.of_nat k) (seq 0 (Z.to_nat (t + 1)))))
           1 159); [vm_compute; reflexivity | lia].
Qed.

End Waste.

(** C8: over the rows stored in the trailing 30-day window,
    [calculate_waste_statistics] returns their number, the number of them
    with status expired, and as waste rate the float quotient
    expired / total times 100 rounded to two decimals; with an empty
    window no division happens and the rate is 0, equal to 0.0; with 10
    rows of which 3 are expired it is exactly 30.0.  The window opens
    with the first second of the day 30 days before today: of the
    cellar's four rows the jam, stored a second earlier, is not counted.
    Up to 159 rows the rounded rate is exactly the nearest whole number of
    hundredths (the even one when halfway) over 100: 33.33 for 1 of 3,
    66.67 for 2 of 3, 3.12 for 1 of 32. *)
Theorem C8_waste_statistics :
  forall (clk : Clock) (db : database.DB),
    let window := filter (expiry_tracker.in_window clk) (database.food_items db) in
    let total := Z.of_nat (List.length window) in
    let expired :=
      Z.of_nat (List.length
                  (filter (fun r => String.eqb (database.status r) "expired") window)) in
    let st := expiry_tracker.calculate_waste_statistics clk db in
    (forall r, In r window <->
               In r (database.food_items db)
               /\ expiry_tracker.sql_date (utc clk) - 30
                  <= expiry_tracker.sql_date (database.storage_date r))
    /\ expiry_tracker.total_items_last_30_days st = total
    /\ expiry_tracker.expired_items st = expired
    /\ (0 < total ->
        expiry_tracker.waste_rate_percentage st
        = PyFloat (numpy.round2
                     (PrimFloat.mul
                        (PrimFloat.div (numpy.float_of_int expired)
                                       (numpy.float_of_int total))
                        100%float)))
    /\ (total = 0 ->
        expiry_tracker.waste_rate_percentage st = PyInt 0
        /\ py_eq (expiry_tracker.waste_rate_percentage st) (PyFloat 0%float) = true)
    /\ (total = 10 -> expired = 3 ->
        expiry_tracker.waste_rate_percentage st = PyFloat 30%float)
    /\ expiry_tracker.waste_rate_percentage
         (expiry_tracker.calculate_waste_statistics sample.clk sample.pantry)
       = PyFloat 30%float
    /\ expiry_tracker.waste_rate_percentage
         (expiry_tracker.calculate_waste_statistics sample.clk
            database.initialize_database)
       = PyInt 0
    /\ (forall r, In r window <->
                  In r (database.food_items db)
                  /\ (utc clk / datetime.SECONDS_PER_DAY - 30)
                       * datetime.SECONDS_PER_DAY
                     <= database.storage_date r)
    /\ (0 < total <= 159 ->
        expiry_tracker.waste_rate_percentage st
        = PyFloat (PrimFloat.div
                     (numpy.float_of_int (spec.hundredths expired total))
                     100%float))
    /\ (0 < total ->
        2 * Z.abs (spec.hundredths expired total * total - 10000 * expired)
        <= total)
    /\ (let cellar :=
          expiry_tracker.calculate_waste_statistics sample.clk sample.cellar in
        List.length (database.food_items sample.cellar) = 4%nat
        /\ expiry_tracker.total_items_last_30_days cellar = 3
        /\ expiry_tracker.expired_items cellar = 1
        /\ expiry_tracker.waste_rate_percentage cellar
           = PyFloat (PrimFloat.div 3333%float 100%float))
    /\ numpy.round2 (PrimFloat.div 200%float 3%float)
       = PrimFloat.div 6667%float 100%float
    /\ numpy.round2 (PrimFloat.div 100%float 32%float)
       = PrimFloat.div 312%float 100%float.
Proof.
  intros clk db window total expired st.
  assert (Htotal : expiry_tracker.total_items_last_30_days st = total).
  { subst st total window. unfold expiry_tracker.calculate_waste_statistics.
    cbn [expiry_tracker.total_items_last_30_days].
    rewrite group_by_category_count. reflexivity. }
  assert (Hexpired : expiry_tracker.expired_items st = expired).
  { subst st expired window. unfold expiry_tracker.calculate_waste_statistics.
    cbn [expiry_tracker.expired_items].
    rewrite group_by_category_expired. reflexivity. }
  assert (Hrate : expiry_tracker.waste_rate_percentage st
                  = round_2 (if total >? 0
                             then PyFloat (PrimFloat.mul
                                             (PrimFloat.div (numpy.float_of_int expired)
                                                            (numpy.float_of_int total))
                                             100%float)
                             else PyInt 0)).
  { rewrite <- Htotal, <- Hexpired. reflexivity. }
  split; [|split; [exact Htotal|split; [exact Hexpired|]]].
  - intros r. subst window. rewrite filter_In.
    unfold expiry_tracker.in_window. rewrite Z.leb_le. reflexivity.
  - assert (Hle : 0 <= expired <= total).
    { subst expired total. split; [lia|]. apply inj_le, List.filter_length_le. }
    assert (Hwin : forall r, In r window <->
                     In r (database.food_items db)
                     /\ (utc clk / datetime.SECONDS_PER_DAY - 30)
                          * datetime.SECONDS_PER_DAY
                        <= database.storage_date r).
    { intros r. subst window. rewrite filter_In.
      unfold expiry_tracker.in_window. rewrite Z.leb_le.
      split; intros [Hr Hs]; (split; [exact Hr|]);
        apply (window_first_second (utc clk / datetime.SECONDS_PER_DAY - 30));
        exact Hs. }
    clearbody total expired st.
    split; [|split; [|split; [|split; [|split; [|split; [|split; [|split; [|split; [|split]]]]]]]]].
    + intros Hpos. rewrite Hrate.
      destruct (Z.gtb_spec total 0); [reflexivity | lia].
    + intros Hz. rewrite Hrate, Hz. split; reflexivity.
    + intros Ht He. rewrite Hrate, Ht, He. vm_compute. reflexivity.
    + vm_compute. reflexivity.
    + reflexivity.
    + exact Hwin.
    + intros Ht. rewrite Hrate.
      destruct (Z.gtb_spec total 0); [|lia]. cbn [round_2].
      rewrite rate_table by lia. reflexivity.
    + intros Ht. apply hundredths_nearest, Ht.
    + vm_compute. repeat split.
    + vm_compute. reflexivity.
    + vm_compute. reflexivity.
Qed.

(* ================================================================== *)
(** ** The rule-based recipe fallback *)

Section Fallback.
Import recipe_generator.

(** The template the rules pick, by its place in [recipe_templates]. *)
Lemma fallback_returns (ingredients_ : list string) :
  exists t,
    nth_error recipe_templates
              (if negb (has_protein ingredients_) && has_vegetables ingredients_
               then 1
               else if (4 <=? List.length ingredients_)%nat then 2 else 0)%nat
    = Some t
    /\ _generate_fallback_recipe ingredients_
       = Returned {| template := t;
                     ingredients :=
                       map (fun ing => {| item := ing; amount := "1";
                                          unit_ := "portion" |}) ingredients_;
                     used_ingredients := ingredients_ |}.
Proof.
  unfold _generate_fallback_recipe.
  destruct (negb (has_protein ingredients_) && has_vegetables ingredients_).
  - eexists. split; reflexivity.
  - destruct (4 <=? List.length ingredients_)%nat; eexists; split; reflexivity.
Qed.

End Fallback.

(** C9: for every ingredient list [_generate_fallback_recipe] returns (it
    raises nothing), and what it returns is a function of the list alone:
    the template is the salad when the list has a vegetable and no
    protein, otherwise the one-pot meal when it has four or more entries,
    otherwise the stir fry; the ingredients are the entries of the list in
    order, each as one portion; two calls on equal lists return equal
    recipes. *)
Theorem C9_fallback_deterministic_total :
  forall (ingredients_ : list string),
    exists r,
      recipe_generator._generate_fallback_recipe ingredients_ = Returned r
      /\ (forall exn,
            recipe_generator._generate_fallback_recipe ingredients_ <> Raised exn)
      /\ (forall other r',
            other = ingredients_ ->
            recipe_generator._generate_fallback_recipe other = Returned r' ->
            r' = r)
      /\ In (recipe_generator.template r) recipe_generator.recipe_templates
      /\ recipe_generator.t_name (recipe_generator.template r)
         = (if negb (recipe_generator.has_protein ingredients_)
               && recipe_generator.has_vegetables ingredients_
            then "Fresh Salad Bowl"
            else if (4 <=? List.length ingredients_)%nat then "One-Pot Wonder"
                 else "Quick Stir Fry")
      /\ recipe_generator.ingredients r
         = map (fun ing => {| recipe_generator.item := ing;
                              recipe_generator.amount := "1";
                              recipe_generator.unit_ := "portion" |}) ingredients_
      /\ recipe_generator.used_ingredients r = ingredients_.
Proof.
  intros ingredients_.
  destruct (fallback_returns ingredients_) as [t [Ht Hf]].
  eexists. split; [exact Hf|].
  split; [intros exn H; rewrite Hf in H; discriminate|].
  split; [intros other r' -> H; rewrite Hf in H; injection H as <-; reflexivity|].
  cbn [recipe_generator.template recipe_generator.ingredients
         recipe_generator.used_ingredients].
  split; [eapply nth_error_In; exact Ht|].
  split; [|split; reflexivity].
  destruct (negb (recipe_generator.has_protein ingredients_)
            && recipe_generator.has_vegetables ingredients_).
  - cbn in Ht. injection Ht as <-. reflexivity.
  - destruct (4 <=? List.length ingredients_)%nat;
      cbn in Ht; injection Ht as <-; reflexivity.
Qed.

(* ================================================================== *)
(** ** The definitions at work on the sample stores *)

Section Runs.
Import database expiry_tracker.

Example fridge_fetch_order :
  map name (get_all_items false sample.fridge)
  = ["Rice"; "Milk"; "Yogurt"; "Chicken"; "Lettuce"; "Cheese"; "Ketchup"].
Proof. reflexivity. Qed.

Example fridge_groups :
  let g := fst (check_expiry_status __init__ sample.clk sample.fridge) in
  map (fun i => (info_name i, days_remaining i)) (critical g)
  = [("Milk", -2); ("Yogurt", 0); ("Chicken", 1)]
  /\ map (fun i => (info_name i, days_remaining i)) (warning g) = [("Lettuce", 2)]
  /\ map (fun i => (info_name i, days_remaining i)) (normal g) = [("Cheese", 4)]
  /\ map (fun i => (info_name i, days_remaining i)) (fresh g) = [("Ketchup", 99)].
Proof. repeat split. Qed.

Example fridge_alerts :
  map spec.payload (alerts (fst (generate_alerts __init__ sample.clk sample.fridge)))
  = [ (1, "expiry", "critical", "Milk has EXPIRED 2 day(s) ago!");
      (2, "expiry", "critical", "Yogurt expires TODAY!");
      (3, "expiry", "critical", "Chicken expires in 1 day(s)!");
      (4, "expiry", "warning", "Lettuce expires in 2 day(s)");
      (5, "expiry", "normal", "Cheese expires in 4 day(s)") ].
Proof. reflexivity. Qed.

Example fridge_notifications :
  snd (generate_alerts __init__ sample.clk sample.fridge)
  = [ ("Critical Alert", "Milk has EXPIRED 2 day(s) ago!");
      ("Critical Alert", "Yogurt expires TODAY!");
      ("Critical Alert", "Chicken expires in 1 day(s)!") ].
Proof. reflexivity. Qed.

Example stale_capped_at_one :
  map ri_name (get_items_for_recipe sample.clk (Some 1) sample.stale) = ["Pork"]
  /\ map ri_name (get_items_for_recipe sample.clk None sample.stale) = ["Pork"; "Fish"].
Proof. split; reflexivity. Qed.

Example pantry_statistics :
  let st := calculate_waste_statistics sample.clk sample.pantry in
  total_items_last_30_days st = 10
  /\ expired_items st = 3
  /\ map (fun c => (cr_category c, cr_count c, cr_expired_count c)) (by_category st)
     = [ (Some "Dairy", 3, 2); (Some "Frozen", 1, 0); (Some "Fruits", 2, 1);
         (Some "Meat", 2, 0); (Some "Others", 2, 0) ].
Proof. repeat split. Qed.

Example fallback_salad :
  match recipe_generator._generate_fallback_recipe ["Carrot"; "LETTUCE"] with
  | Returned r => recipe_generator.t_name (recipe_generator.template r)
  | Raised e => e
  end = "Fresh Salad Bowl".
Proof. reflexivity. Qed.

Example fallback_one_pot :
  match recipe_generator._generate_fallback_recipe
          ["Chicken breast"; "Carrot"; "Rice"; "Onion"] with
  | Returned r => recipe_generator.t_name (recipe_generator.template r)
  | Raised e => e
  end = "One-Pot Wonder".
Proof. reflexivity. Qed.

Example fallback_stir_fry :
  match recipe_generator._generate_fallback_recipe ["Rice"; "Tofu"] with
  | Returned r => recipe_generator.t_name (recipe_generator.template r)
  | Raised e => e
  end = "Quick Stir Fry".
Proof. reflexivity. Qed.

(** The stores of [sample] are built by the operations alone. *)
Lemma sample_add_reachable (ts : Z) (d : item_data) (db : DB) :
  reachable db -> reachable (sample.add ts d db).
Proof.
  intros H. unfold sample.add.
  destruct (add_food_item ts d db) as [[i db']|exn] eqn:E.
  - eapply reach_add; eassumption.
  - exact H.
Qed.

Example fridge_reachable :
  reachable sample.fridge /\ primary_key_ok sample.fridge.
Proof.
  assert (H : reachable sample.fridge).
  { unfold sample.fridge. apply reach_update. cbn [fold_left].
    repeat apply sample_add_reachable. apply reach_init. }
  split; [exact H | apply reachable_primary_key_ok, H].
Qed.

End Runs.

(* ================================================================== *)
(** ** The views of the item table *)

Section Views.
Import database expiry_tracker spec notions.

Lemma insert_row_front (r : FoodItem) (l : list FoodItem) :
  Forall (by_expiry r) l -> insert_row r l = r :: l.
Proof.
  intros H. destruct l as [|h t]; [reflexivity|].
  inversion H as [|? ? Hh _]; subst. unfold by_expiry in Hh.
  cbn [insert_row]. rewrite Hh. reflexivity.
Qed.

(** Selecting rows after sorting is sorting the selected rows. *)
Lemma filter_insert_row (p : FoodItem -> bool) (r : FoodItem) (l : list FoodItem) :
  StronglySorted by_expiry l ->
  filter p (insert_row r l)
  = if p r then insert_row r (filter p l) else filter p l.
Proof.
  induction 1 as [|h t Hs IH Hall]; cbn [insert_row filter].
  - destruct (p r); reflexivity.
  - destruct (expiry_leb (expiry_date r) (expiry_date h)) eqn:E.
    + cbn [filter]. destruct (p r); [|reflexivity].
      symmetry. apply insert_row_front.
      assert (Hr : Forall (by_expiry r) (h :: t)).
      { constructor; [exact E|].
        eapply Forall_impl; [|exact Hall]. intros x Hx.
        eapply expiry_leb_trans; [exact E | exact Hx]. }
      apply Forall_forall. intros x Hx.
      rewrite Forall_forall in Hr. apply Hr.
      change (In x (filter p (h :: t))) in Hx.
      apply filter_In in Hx. tauto.
    + cbn [filter]. rewrite IH.
      destruct (p h), (p r); cbn [insert_row]; try rewrite E; reflexivity.
Qed.

Lemma filter_order_by_expiry_date (p : FoodItem -> bool) (l : list FoodItem) :
  filter p (order_by_expiry_date l) = order_by_expiry_date (filter p l).
Proof.
  induction l as [|h t IH]; [reflexivity|].
  cbn [order_by_expiry_date filter].
  rewrite filter_insert_row by apply order_by_expiry_date_strongly_sorted.
  rewrite IH. destruct (p h); reflexivity.
Qed.

Lemma filter_filter_andb {A : Type} (p q : A -> bool) (l : list A) :
  filter p (filter q l) = filter (fun x => p x && q x) l.
Proof.
  induction l as [|h t IH]; [reflexivity|]. cbn [filter].
  destruct (q h); cbn [filter]; rewrite IH; destruct (p h); reflexivity.
Qed.

Lemma filter_all_true {A : Type} (p : A -> bool) (l : list A) :
  (forall x, p x = true) -> filter p l = l.
Proof.
  intros H. induction l as [|h t IH]; cbn; [reflexivity|].
  rewrite H, IH. reflexivity.
Qed.

Lemma filter_all_true_in {A : Type} (p : A -> bool) (l : list A) :
  (forall x, In x l -> p x = true) -> filter p l = l.
Proof.
  induction l as [|h t IH]; cbn; intros H; [reflexivity|].
  rewrite (H h (or_introl eq_refl)), IH; [reflexivity|].
  intros x Hx. apply H. right. exact Hx.
Qed.

Lemma by_expiry_date_order (a b : FoodItem) : by_expiry a b <-> date_order a b.
Proof.
  unfold by_expiry, date_order.
  destruct (expiry_date a) as [x|], (expiry_date b) as [y|]; cbn;
    rewrite ?Z.leb_le; intuition congruence.
Qed.

Lemma StronglySorted_iff {A : Type} (R S : A -> A -> Prop) (l : list A) :
  (forall a b, R a b -> S a b) -> StronglySorted R l -> StronglySorted S l.
Proof.
  intros H. induction 1 as [|a l Hs IH Hall]; constructor.
  - exact IH.
  - eapply Forall_impl; [|exact Hall]. intros b. apply H.
Qed.

Lemma get_items_by_category_eq (cat : string) (db : DB) :
  get_items_by_category cat db = filter (in_category cat) (get_all_items false db).
Proof.
  unfold get_items_by_category, get_all_items.
  rewrite filter_order_by_expiry_date, filter_filter_andb. f_equal.
  apply filter_ext. intros r. unfold in_category.
  rewrite orb_false_r. reflexivity.
Qed.

Lemma get_items_by_category_In (cat : string) (db : DB) (r : FoodItem) :
  In r (get_items_by_category cat db)
  <-> In r (food_items db) /\ category r = Some cat /\ status r <> "consumed".
Proof.
  rewrite get_items_by_category_eq, filter_In, get_all_items_In.
  unfold in_category.
  destruct (category r) as [c|].
  - rewrite String.eqb_eq. split.
    + intros [[Hr Hs] ->]. repeat split; try assumption.
      intros Hc. rewrite Hc in Hs. discriminate.
    + intros [Hr [Hc Hs]]. injection Hc as ->.
      repeat split; try assumption. apply String.eqb_neq, Hs.
  - split; [intros [_ H]; discriminate | intros [_ [H _]]; discriminate].
Qed.

End Views.

(** X1: [get_all_items(include_consumed=True)] returns every row of the
    table exactly once, ordered by expiry date with the undated rows
    first; the default call returns the same listing without the consumed
    rows, in the same order. *)
Theorem X1_get_all_items_listing :
  forall (db : database.DB),
    Permutation (database.get_all_items true db) (database.food_items db)
    /\ StronglySorted notions.date_order (database.get_all_items true db)
    /\ database.get_all_items false db
       = filter notions.not_consumed (database.get_all_items true db)
    /\ StronglySorted notions.date_order (database.get_all_items false db)
    /\ (forall r, In r (database.get_all_items false db)
                  <-> In r (database.food_items db)
                      /\ database.status r <> "consumed").
Proof.
  intros db.
  assert (Hall : database.get_all_items true db
                 = database.order_by_expiry_date (database.food_items db)).
  { unfold database.get_all_items. f_equal.
    apply filter_all_true. intros r. apply orb_true_r. }
  split; [rewrite Hall; apply order_by_expiry_date_perm|].
  split.
  { rewrite Hall. eapply StronglySorted_iff; [apply by_expiry_date_order|].
    apply order_by_expiry_date_strongly_sorted. }
  split.
  { rewrite Hall, filter_order_by_expiry_date. unfold database.get_all_items.
    f_equal. apply filter_ext. intros r. unfold notions.not_consumed.
    rewrite orb_false_r. reflexivity. }
  split.
  { eapply StronglySorted_iff; [apply by_expiry_date_order|].
    apply order_by_expiry_date_strongly_sorted. }
  intros r. rewrite get_all_items_In.
  split; intros [Hr Hs]; (split; [exact Hr|]).
  - intros Hc. rewrite Hc in Hs. discriminate.
  - apply String.eqb_neq. exact Hs.
Qed.

(** X2: [get_items_by_category(c)] is the default inventory listing cut
    down to the rows of category [c], order kept; a row without a category
    is in no such listing, and a consumed row neither. *)
Theorem X2_get_items_by_category_filters_inventory :
  forall (cat : string) (db : database.DB),
    database.get_items_by_category cat db
    = filter (notions.in_category cat) (database.get_all_items false db)
    /\ (forall r, In r (database.get_items_by_category cat db)
                  <-> In r (database.food_items db)
                      /\ database.category r = Some cat
                      /\ database.status r <> "consumed")
    /\ StronglySorted notions.date_order (database.get_items_by_category cat db).
Proof.
  intros cat db.
  split; [apply get_items_by_category_eq|]. split.
  - intros r. apply get_items_by_category_In.
  - unfold database.get_items_by_category.
    eapply StronglySorted_iff; [apply by_expiry_date_order|].
    apply order_by_expiry_date_strongly_sorted.
Qed.

(* ================================================================== *)
(** ** Writing to the item table *)

Section Writes.
Import database expiry_tracker spec notions.

Lemma update_unknown_id (ts i : Z) (s : string) (db : DB) :
  ~ In i (map id (food_items db)) -> update_item_status ts i s db = db.
Proof.
  intros Hno. unfold update_item_status. destruct db as [rows fs al als].
  cbn [food_items food_items_seq alerts alerts_seq] in *. f_equal.
  induction rows as [|r rows IH]; [reflexivity|]. cbn [map] in *.
  destruct (Z.eqb_spec (id r) i) as [E|E].
  - exfalso. apply Hno. left. exact E.
  - rewrite IH; [reflexivity|]. intros H. apply Hno. right. exact H.
Qed.

Lemma update_rows (ts i : Z) (s : string) (db : DB) :
  Forall2 (fun r r' => (id r = i -> r' = set_status s ts r) /\ (id r <> i -> r' = r))
          (food_items db) (food_items (update_item_status ts i s db)).
Proof.
  unfold update_item_status; cbn [food_items].
  eapply Forall2_weaken; [|apply Forall2_map_right]. cbn beta.
  intros r r' _ ->. destruct (Z.eqb_spec (id r) i); split; intros; congruence.
Qed.

Lemma update_override (ts1 ts2 i : Z) (s1 s2 : string) (db : DB) :
  update_item_status ts2 i s2 (update_item_status ts1 i s1 db)
  = update_item_status ts2 i s2 db.
Proof.
  unfold update_item_status; cbn [food_items food_items_seq alerts alerts_seq].
  f_equal. rewrite map_map. apply map_ext. intros r.
  destruct (id r =? i) eqn:E; cbn [id set_status]; rewrite E; reflexivity.
Qed.

(** After [update_item_status(i, 'consumed')] no row with id [i] passes
    the test [status != 'consumed']. *)
Lemma consumed_rows (ts i : Z) (db : DB) (r : FoodItem) :
  In r (food_items (update_item_status ts i "consumed" db)) ->
  id r = i -> status r = "consumed".
Proof.
  unfold update_item_status; cbn [food_items]. intros Hr Hid.
  apply in_map_iff in Hr as [x [<- Hx]].
  destruct (Z.eqb_spec (id x) i) as [E|E]; [reflexivity|].
  exfalso. apply E. exact Hid.
Qed.

End Writes.

(** X3: [add_food_item] either raises, when the dict has no name, or
    appends one row and returns its id: the id is one above the counter
    and carried by no other row, the row holds the given name, category
    and date, status fresh, and 1 / 'piece' / 'main_compartment' where the
    dict gives no quantity, unit or location; it shows up in the inventory
    listing next to the rows that were there, and the alerts are
    untouched. *)
Theorem X3_add_food_item_round_trip :
  forall (ts : Z) (d : database.item_data) (db : database.DB),
    database.primary_key_ok db ->
    match database.d_name d with
    | None => database.add_food_item ts d db = Raised "IntegrityError"
    | Some n =>
        exists i db' row,
          database.add_food_item ts d db = Returned (i, db')
          /\ i = database.food_items_seq db + 1
          /\ ~ In i (map database.id (database.food_items db))
          /\ database.food_items db' = database.food_items db ++ [row]
          /\ database.id row = i
          /\ database.name row = n
          /\ database.status row = "fresh"
          /\ database.category row = database.d_category d
          /\ database.expiry_date row = database.d_expiry_date d
          /\ database.quantity row
             = Some (match database.d_quantity d with Some q => q | None => 1 end)
          /\ database.unit_ row
             = Some (match database.d_unit d with Some u => u | None => "piece" end)
          /\ database.location row
             = Some (match database.d_location d with
                     | Some l => l
                     | None => "main_compartment"
                     end)
          /\ database.storage_date row = ts
          /\ (forall r, In r (database.get_all_items false db')
                        <-> r = row \/ In r (database.get_all_items false db))
          /\ database.alerts db' = database.alerts db
          /\ database.primary_key_ok db'
    end.
Proof.
  intros ts d db Hok.
  destruct (database.d_name d) as [n|] eqn:Hn.
  - pose (row := {| database.id := database.food_items_seq db + 1;
                    database.name := n;
                    database.category := database.d_category d;
                    database.quantity := database.get_default (database.d_quantity d) 1;
                    database.unit_ := database.get_default (database.d_unit d) "piece";
                    database.storage_date := ts;
                    database.expiry_date := database.d_expiry_date d;
                    database.location :=
                      database.get_default (database.d_location d) "main_compartment";
                    database.barcode := database.d_barcode d;
                    database.image_path := database.d_image_path d;
                    database.confidence_score := database.d_confidence_score d;
                    database.status := "fresh";
                    database.notes := database.d_notes d;
                    database.last_updated := ts |}).
    pose (db' := {| database.food_items := database.food_items db ++ [row];
                    database.food_items_seq := database.food_items_seq db + 1;
                    database.alerts := database.alerts db;
                    database.alerts_seq := database.alerts_seq db |}).
    assert (Hadd : database.add_food_item ts d db
                   = Returned (database.food_items_seq db + 1, db')).
    { unfold database.add_food_item. rewrite Hn. reflexivity. }
    destruct (add_food_item_ok ts d Hok Hadd) as [Hok' [_ Hnew]].
    exists (database.food_items_seq db + 1), db', row.
    split; [exact Hadd|]. split; [reflexivity|]. split; [exact Hnew|].
    split; [reflexivity|]. split; [reflexivity|].
    split; [reflexivity|]. split; [reflexivity|]. split; [reflexivity|].
    split; [reflexivity|].
    split; [cbn; destruct (database.d_quantity d); reflexivity|].
    split; [cbn; destruct (database.d_unit d); reflexivity|].
    split; [cbn; destruct (database.d_location d); reflexivity|].
    split; [reflexivity|].
    split; [|split; [reflexivity | exact Hok']].
    intros r. rewrite !get_all_items_In.
    cbn [database.food_items db']. rewrite in_app_iff. cbn [In]. split.
    + intros [[Hr|[Hr|[]]] Hs]; [right; auto | left; symmetry; exact Hr].
    + intros [->|[Hr Hs]]; [split; [right; left; reflexivity | reflexivity]|].
      split; [left; exact Hr | exact Hs].
  - unfold database.add_food_item. rewrite Hn. reflexivity.
Qed.

(** A named entry added to the fridge gets id 9. *)
Lemma X3_fridge_gets_id_9 :
  exists db',
    database.add_food_item sample.stored (sample.entry "Eggs" "Others" None)
                           sample.fridge
    = Returned (9, db').
Proof.
  assert (Hok : database.primary_key_ok sample.fridge).
  { split; [distinct_ids|]. vm_compute.
    repeat (constructor; [intros H; discriminate H|]). constructor. }
  pose proof (X3_add_food_item_round_trip sample.stored
                (sample.entry "Eggs" "Others" None) Hok) as H.
  cbn [database.d_name sample.entry] in H.
  destruct H as [i [db' [row [Hadd [Hi _]]]]].
  exists db'. rewrite Hadd, Hi. reflexivity.
Defined.

(** X4: [update_item_status(i, s)] rewrites the status and the
    last-updated stamp of the rows with id [i] and leaves every other row
    and both alert columns as they are; with no row of that id it changes
    nothing at all (and raises nothing); of two updates of the same id the
    later one decides. *)
Theorem X4_update_item_status_frame :
  forall (ts ts' i : Z) (s s' : string) (db : database.DB),
    let db' := database.update_item_status ts i s db in
    Forall2
      (fun r r' =>
         (database.id r = i -> r' = database.set_status s ts r)
         /\ (database.id r <> i -> r' = r))
      (database.food_items db) (database.food_items db')
    /\ map database.id (database.food_items db') = map database.id (database.food_items db)
    /\ database.alerts db' = database.alerts db
    /\ (~ In i (map database.id (database.food_items db)) -> db' = db)
    /\ database.update_item_status ts' i s' db'
       = database.update_item_status ts' i s' db
    /\ (forall r,
          let r' := database.set_status s ts r in
          database.status r' = s
          /\ database.last_updated r' = ts
          /\ database.id r' = database.id r
          /\ database.name r' = database.name r
          /\ database.category r' = database.category r
          /\ database.quantity r' = database.quantity r
          /\ database.storage_date r' = database.storage_date r
          /\ database.expiry_date r' = database.expiry_date r
          /\ database.location r' = database.location r
          /\ database.notes r' = database.notes r).
Proof.
  intros ts ts' i s s' db db'.
  split; [apply update_rows|]. split.
  { subst db'. unfold database.update_item_status; cbn [database.food_items].
    apply map_id_update. intros r. destruct (database.id r =? i); reflexivity. }
  split; [reflexivity|]. split; [apply update_unknown_id|].
  split; [apply update_override|].
  intros r r'. repeat split.
Qed.

(** X5: once [update_item_status(i, 'consumed')] has run, id [i] is gone
    from the inventory listing, from every category listing, from the
    rows expiring soon and the recipe candidates, from all four groups of
    a classification pass and from the alerts a call of [generate_alerts]
    inserts; the rows with other ids are not affected. *)
Theorem X5_consumed_item_disappears :
  forall (self : expiry_tracker.ExpiryTracker) (clk : Clock) (ts i : Z)
         (db : database.DB),
    let db' := database.update_item_status ts i "consumed" db in
    let g := fst (expiry_tracker.check_expiry_status self clk db') in
    (forall r, In r (database.get_all_items false db') -> database.id r <> i)
    /\ (forall cat r, In r (database.get_items_by_category cat db') ->
                      database.id r <> i)
    /\ (forall r, In r (database.get_expiring_items clk 3 db') -> database.id r <> i)
    /\ (forall m x, In x (expiry_tracker.get_items_for_recipe clk m db') ->
                    expiry_tracker.ri_id x <> i)
    /\ (forall x, In x (expiry_tracker.critical g ++ expiry_tracker.warning g
                          ++ expiry_tracker.normal g ++ expiry_tracker.fresh g) ->
                  expiry_tracker.info_id x <> i)
    /\ (exists news,
          database.alerts (fst (expiry_tracker.generate_alerts self clk db'))
          = database.alerts db ++ news
          /\ Forall (fun a => database.food_item_id a <> i) news)
    /\ (forall r, In r (database.food_items db) -> database.id r <> i ->
                  In r (database.food_items db')).
Proof.
  intros self clk ts i db db' g.
  assert (Hcons : forall r, In r (database.food_items db') -> database.id r = i ->
                            database.status r = "consumed").
  { intros r. apply consumed_rows. }
  assert (Hgroups : forall x,
             In x (expiry_tracker.critical g ++ expiry_tracker.warning g
                     ++ expiry_tracker.normal g ++ expiry_tracker.fresh g) ->
             expiry_tracker.info_id x <> i).
  { intros x Hx Hid. apply in_groups in Hx as [t Hx].
    apply group_source in Hx as [it [e [Hit [_ [Hs ->]]]]].
    cbn [expiry_tracker.info_id expiry_tracker.make_info] in Hid.
    rewrite (Hcons it Hit Hid) in Hs. discriminate. }
  split; [|split; [|split; [|split; [|split; [|split]]]]].
  - intros r Hr Hid. apply get_all_items_In in Hr as [Hr Hs].
    rewrite (Hcons r Hr Hid) in Hs. discriminate.
  - intros cat r Hr Hid.
    apply get_items_by_category_In in Hr as [Hr [_ Hs]].
    apply Hs, Hcons; assumption.
  - intros r Hr Hid. apply get_expiring_items_In in Hr as [Hr [e [_ [_ Hs]]]].
    rewrite (Hcons r Hr Hid) in Hs. discriminate.
  - intros m x Hx Hid. rewrite get_items_for_recipe_eq in Hx.
    apply entries_In in Hx as [r [e [Hr [_ ->]]]]. apply head_In in Hr.
    apply get_expiring_items_In in Hr as [Hr [e' [_ [_ Hs]]]].
    cbn [expiry_tracker.ri_id] in Hid.
    rewrite (Hcons r Hr Hid) in Hs. discriminate.
  - exact Hgroups.
  - exists (spec.inserted (utc clk) (database.alerts_seq db') (spec.payloads g)).
    split; [subst g; rewrite generate_alerts_alerts; reflexivity|].
    apply Forall_forall. intros a Ha Hid.
    assert (Hin : In (database.food_item_id a)
                     (map database.food_item_id
                          (spec.inserted (utc clk) (database.alerts_seq db')
                                         (spec.payloads g))))
      by (apply in_map, Ha).
    rewrite inserted_item_ids in Hin.
    apply in_map_iff in Hin as [x [Hx Hin]].
    apply (Hgroups x); [|congruence].
    rewrite !app_assoc. apply in_or_app. left. rewrite <- !app_assoc. exact Hin.
  - intros r Hr Hid. subst db'. unfold database.update_item_status;
      cbn [database.food_items].
    apply in_map_iff. exists r. split; [|exact Hr].
    destruct (Z.eqb_spec (database.id r) i); [contradiction | reflexivity].
Qed.

(* ================================================================== *)
(** ** The alert table and its listing *)

Section AlertTable.
Import database expiry_tracker spec notions.

Lemma insert_newest_perm (r : UnreadAlert) (l : list UnreadAlert) :
  Permutation (insert_newest r l) (r :: l).
Proof.
  induction l as [|h t IH]; cbn [insert_newest].
  - apply Permutation_refl.
  - destruct (created_date (ua_alert h) <=? created_date (ua_alert r)).
    + apply Permutation_refl.
    + apply perm_trans with (h :: r :: t); [apply perm_skip, IH | apply perm_swap].
Qed.

Lemma order_by_created_desc_perm (l : list UnreadAlert) :
  Permutation (order_by_created_desc l) l.
Proof.
  induction l as [|h t IH]; cbn [order_by_created_desc].
  - apply perm_nil.
  - apply perm_trans with (h :: order_by_created_desc t).
    + apply insert_newest_perm.
    + apply perm_skip, IH.
Qed.

Lemma insert_newest_sorted (r : UnreadAlert) (l : list UnreadAlert) :
  StronglySorted newest_first l -> StronglySorted newest_first (insert_newest r l).
Proof.
  induction 1 as [|h t Hs IH Hall]; cbn [insert_newest].
  - repeat constructor.
  - destruct (Z.leb_spec (created_date (ua_alert h)) (created_date (ua_alert r))) as [E|E].
    + constructor; [constructor; assumption|].
      constructor; [exact E|].
      eapply Forall_impl; [|exact Hall]. unfold newest_first. intros x Hx. lia.
    + constructor; [exact IH|].
      apply Forall_forall. intros x Hx.
      apply (Permutation_in _ (insert_newest_perm r t)) in Hx.
      destruct Hx as [<-|Hx].
      * unfold newest_first. lia.
      * rewrite Forall_forall in Hall. apply Hall, Hx.
Qed.

Lemma order_by_created_desc_sorted (l : list UnreadAlert) :
  StronglySorted newest_first (order_by_created_desc l).
Proof.
  induction l as [|h t IH]; cbn [order_by_created_desc].
  - constructor.
  - apply insert_newest_sorted, IH.
Qed.

Lemma join_item_In (rows : list FoodItem) (a : Alert) (u : UnreadAlert) :
  In u (join_item rows a)
  <-> ua_alert u = a
      /\ exists f, In f rows /\ id f = food_item_id a /\ food_name u = name f.
Proof.
  unfold join_item. rewrite in_map_iff. split.
  - intros [f [<- Hf]]. apply filter_In in Hf as [Hf Hid].
    apply Z.eqb_eq in Hid. split; [reflexivity|]. exists f. auto.
  - intros [Ha [f [Hf [Hid Hn]]]]. exists f. split.
    + destruct u as [a' n']. cbn in *. subst. reflexivity.
    + apply filter_In. split; [exact Hf|]. apply Z.eqb_eq. auto.
Qed.

Lemma get_unread_alerts_In (db : DB) (u : UnreadAlert) :
  In u (get_unread_alerts db)
  <-> In (ua_alert u) (alerts db)
      /\ is_read (ua_alert u) = false
      /\ exists f, In f (food_items db) /\ id f = food_item_id (ua_alert u)
                   /\ food_name u = name f.
Proof.
  unfold get_unread_alerts. split.
  - intros H. apply (Permutation_in _ (order_by_created_desc_perm _)) in H.
    apply in_flat_map in H as [a [Ha Hu]].
    apply filter_In in Ha as [Ha Hr]. apply negb_true_iff in Hr.
    apply join_item_In in Hu as [<- Hf]. auto.
  - intros [Ha [Hr Hf]].
    apply (Permutation_in _ (Permutation_sym (order_by_created_desc_perm _))).
    apply in_flat_map. exists (ua_alert u). split.
    + apply filter_In. split; [exact Ha|]. rewrite Hr. reflexivity.
    + apply join_item_In. auto.
Qed.

(** With distinct item ids the join gives at most one row for an alert. *)
Lemma join_item_length (rows : list FoodItem) (a : Alert) :
  NoDup (map id rows) ->
  (List.length (join_item rows a) <= 1)%nat
  /\ (In (food_item_id a) (map id rows) -> List.length (join_item rows a) = 1%nat).
Proof.
  unfold join_item. rewrite length_map.
  induction rows as [|r rows IH]; cbn [map filter]; intros Hnd.
  - split; [cbn; lia | intros []].
  - inversion Hnd as [|? ? Hnotin Hnd']; subst.
    destruct (IH Hnd') as [IH1 IH2].
    destruct (Z.eqb_spec (food_item_id a) (id r)) as [E|E].
    + assert (Hnone : filter (fun f => food_item_id a =? id f) rows = []).
      { destruct (filter (fun f => food_item_id a =? id f) rows) as [|x xs] eqn:F;
          [reflexivity|]. exfalso.
        assert (Hx : In x (filter (fun f => food_item_id a =? id f) rows))
          by (rewrite F; left; reflexivity).
        apply filter_In in Hx as [Hx Hid]. apply Z.eqb_eq in Hid.
        apply Hnotin. rewrite <- E, Hid. apply in_map, Hx. }
      rewrite Hnone. cbn. split; [lia | reflexivity].
    + split; [exact IH1|]. intros [H|H]; [congruence | apply IH2, H].
Qed.

Lemma flat_map_length_le {A B : Type} (f : A -> list B) (l : list A) :
  (forall a, In a l -> (List.length (f a) <= 1)%nat) ->
  (List.length (flat_map f l) <= List.length l)%nat.
Proof.
  induction l as [|a l IH]; cbn [flat_map]; intros H.
  - cbn. lia.
  - rewrite length_app. cbn [List.length].
    pose proof (H a (or_introl eq_refl)).
    assert ((List.length (flat_map f l) <= List.length l)%nat).
    { apply IH. intros x Hx. apply H. right. exact Hx. }
    lia.
Qed.

Lemma flat_map_length_eq {A B : Type} (f : A -> list B) (l : list A) :
  (forall a, In a l -> List.length (f a) = 1%nat) ->
  List.length (flat_map f l) = List.length l.
Proof.
  induction l as [|a l IH]; cbn [flat_map]; intros H.
  - reflexivity.
  - rewrite length_app. cbn [List.length].
    rewrite (H a (or_introl eq_refl)), IH; [reflexivity|].
    intros x Hx. apply H. right. exact Hx.
Qed.

Lemma get_unread_alerts_length (db : DB) :
  List.length (get_unread_alerts db)
  = List.length (flat_map (join_item (food_items db)) (unread db)).
Proof.
  unfold get_unread_alerts. apply Permutation_length, order_by_created_desc_perm.
Qed.

End AlertTable.

(** X6: [get_unread_alerts] lists, newest first, exactly the unread alerts
    whose item is still in the item table, each with that item's name;
    an unread alert of a missing item is not listed.  With distinct item
    ids no alert is listed twice, so the listing is never longer than the
    number of unread alerts and has that length when every alert's item
    exists. *)
Theorem X6_get_unread_alerts_listing :
  forall (db : database.DB),
    (forall u, In u (database.get_unread_alerts db)
               <-> In (database.ua_alert u) (database.alerts db)
                   /\ database.is_read (database.ua_alert u) = false
                   /\ exists f, In f (database.food_items db)
                                /\ database.id f
                                   = database.food_item_id (database.ua_alert u)
                                /\ database.food_name u = database.name f)
    /\ StronglySorted notions.newest_first (database.get_unread_alerts db)
    /\ (NoDup (map database.id (database.food_items db)) ->
        (List.length (database.get_unread_alerts db)
         <= List.length (notions.unread db))%nat
        /\ (Forall (fun a => In (database.food_item_id a)
                                (map database.id (database.food_items db)))
                   (notions.unread db) ->
            List.length (database.get_unread_alerts db)
            = List.length (notions.unread db))).
Proof.
  intros db. split; [intros u; apply get_unread_alerts_In|].
  split; [apply order_by_created_desc_sorted|].
  intros Hnd. rewrite get_unread_alerts_length. split.
  - apply flat_map_length_le. intros a _. apply join_item_length, Hnd.
  - intros Hall. apply flat_map_length_eq. intros a Ha.
    apply join_item_length; [exact Hnd|].
    rewrite Forall_forall in Hall. apply Hall, Ha.
Qed.

(** X7: [delete_item(i)] removes the rows with id [i] and nothing else:
    the inventory listing loses them and keeps its order, the alert table
    is not touched, so alerts of the deleted item stay stored and are
    still counted as unread by [get_statistics] while [get_unread_alerts]
    no longer lists them; with no row of that id nothing changes. *)
Theorem X7_delete_item_leaves_alerts :
  forall (clk : Clock) (i : Z) (db : database.DB),
    let db' := database.delete_item i db in
    (forall r, In r (database.food_items db')
               <-> In r (database.food_items db) /\ database.id r <> i)
    /\ database.get_all_items false db'
       = filter (fun r => negb (database.id r =? i)) (database.get_all_items false db)
    /\ database.alerts db' = database.alerts db
    /\ (forall u, In u (database.get_unread_alerts db')
                  <-> In u (database.get_unread_alerts db)
                      /\ database.food_item_id (database.ua_alert u) <> i)
    /\ database.stat_unread_alerts (database.get_statistics clk db')
       = database.stat_unread_alerts (database.get_statistics clk db)
    /\ (~ In i (map database.id (database.food_items db)) -> db' = db).
Proof.
  intros clk i db db'.
  assert (Hrows : forall r, In r (database.food_items db')
                            <-> In r (database.food_items db) /\ database.id r <> i).
  { intros r. subst db'. unfold database.delete_item; cbn [database.food_items].
    rewrite filter_In, negb_true_iff, Z.eqb_neq. reflexivity. }
  split; [exact Hrows|]. split.
  { subst db'. unfold database.get_all_items, database.delete_item;
      cbn [database.food_items].
    rewrite filter_order_by_expiry_date, !filter_filter_andb. f_equal.
    apply filter_ext. intros r. apply andb_comm. }
  split; [reflexivity|]. split.
  { intros u. rewrite !get_unread_alerts_In.
    change (database.alerts db') with (database.alerts db). split.
    - intros [Ha [Hr [f [Hf [Hid Hn]]]]]. apply Hrows in Hf as [Hf Hne].
      split; [|congruence]. split; [exact Ha|]. split; [exact Hr|].
      exists f. auto.
    - intros [[Ha [Hr [f [Hf [Hid Hn]]]]] Hne].
      split; [exact Ha|]. split; [exact Hr|]. exists f.
      split; [apply Hrows; split; [exact Hf | congruence]|]. auto. }
  split; [reflexivity|].
  intros Hno. subst db'. unfold database.delete_item.
  destruct db as [rows fs al als]. cbn [database.food_items] in *. f_equal.
  apply filter_all_true_in. intros r Hr.
  apply negb_true_iff, Z.eqb_neq. intros E. apply Hno. rewrite <- E.
  apply in_map, Hr.
Qed.

(** X8: [mark_alert_as_read(a)] changes nothing but the read flag of the
    alerts with id [a]: afterwards they are off the unread listing, every
    other listed alert stays listed, no alert becomes unread again, the
    items are untouched; marking twice is marking once, and an unknown id
    changes nothing. *)
Theorem X8_mark_alert_as_read :
  forall (a_id : Z) (db : database.DB),
    let db' := database.mark_alert_as_read a_id db in
    database.food_items db' = database.food_items db
    /\ map spec.payload (database.alerts db') = map spec.payload (database.alerts db)
    /\ map database.alert_id (database.alerts db')
       = map database.alert_id (database.alerts db)
    /\ Forall2 (fun a a' => (database.alert_id a = a_id -> database.is_read a' = true)
                            /\ (database.alert_id a <> a_id -> a' = a))
               (database.alerts db) (database.alerts db')
    /\ (forall u, In u (database.get_unread_alerts db')
                  <-> In u (database.get_unread_alerts db)
                      /\ database.alert_id (database.ua_alert u) <> a_id)
    /\ database.mark_alert_as_read a_id db' = db'
    /\ (~ In a_id (map database.alert_id (database.alerts db)) -> db' = db).
Proof.
  intros a_id db db'.
  set (mark := fun a =>
         if database.alert_id a =? a_id then
           {| database.alert_id := database.alert_id a;
              database.food_item_id := database.food_item_id a;
              database.alert_type := database.alert_type a;
              database.alert_level := database.alert_level a;
              database.message := database.message a;
              database.created_date := database.created_date a;
              database.is_read := true |}
         else a).
  assert (Hal : database.alerts db' = map mark (database.alerts db)) by reflexivity.
  assert (Hmark : forall a, (database.alert_id a = a_id -> database.is_read (mark a) = true)
                            /\ (database.alert_id a <> a_id -> mark a = a)
                            /\ spec.payload (mark a) = spec.payload a
                            /\ database.alert_id (mark a) = database.alert_id a
                            /\ mark (mark a) = mark a).
  { intros a. unfold mark.
    destruct (Z.eqb_spec (database.alert_id a) a_id) as [E|E].
    - cbn. rewrite E, Z.eqb_refl. repeat split; intros; try reflexivity; contradiction.
    - rewrite (proj2 (Z.eqb_neq _ _) E). repeat split; intros; try reflexivity;
        contradiction. }
  split; [reflexivity|].
  split; [rewrite Hal, map_map; apply map_ext; intros a; apply Hmark|].
  split; [rewrite Hal, map_map; apply map_ext; intros a; apply Hmark|].
  split.
  { rewrite Hal. eapply Forall2_weaken; [|apply Forall2_map_right]. cbn beta.
    intros a a' _ ->. split; apply Hmark. }
  split.
  { intros u. rewrite !get_unread_alerts_In.
    change (database.food_items db') with (database.food_items db).
    rewrite Hal, in_map_iff. split.
    - intros [[a [Ha Hin]] [Hr Hf]].
      destruct (Z.eq_dec (database.alert_id a) a_id) as [E|E].
      + exfalso. rewrite <- Ha in Hr.
        rewrite (proj1 (Hmark a) E) in Hr. discriminate.
      + assert (Hsame : mark a = a) by (apply Hmark, E).
        rewrite Hsame in Ha. subst a. auto.
    - intros [[Ha [Hr Hf]] Hne]. split; [|auto].
      exists (database.ua_alert u). split; [apply Hmark, Hne | exact Ha]. }
  split.
  { subst db'. unfold database.mark_alert_as_read;
      cbn [database.food_items database.food_items_seq database.alerts
             database.alerts_seq].
    f_equal. fold mark. rewrite map_map. apply map_ext. intros a. apply Hmark. }
  intros Hno. subst db'. unfold database.mark_alert_as_read. fold mark.
  destruct db as [rows fs al als]. cbn [database.alerts] in *. f_equal.
  rewrite <- (map_id al) at 2. apply map_ext_in. intros a Ha.
  apply Hmark. intros E. apply Hno. rewrite <- E. apply in_map, Ha.
Qed.

(* ================================================================== *)
(** ** GROUP BY category *)

Section Grouping.
Import database expiry_tracker spec notions.

Lemma category_eqb_eq (a b : option string) : category_eqb a b = true <-> a = b.
Proof.
  destruct a as [x|], b as [y|]; cbn; try (split; congruence).
  rewrite String.eqb_eq. split; congruence.
Qed.

Lemma category_eqb_neq (a b : option string) : category_eqb a b = false <-> a <> b.
Proof.
  rewrite <- category_eqb_eq. destruct (category_eqb a b); split; congruence.
Qed.

Lemma count_rows_snoc (p : FoodItem -> bool) (rows : list FoodItem) (r : FoodItem) :
  count_rows p (rows ++ [r]) = count_rows p rows + (if p r then 1 else 0).
Proof.
  unfold count_rows. rewrite filter_app, length_app. cbn [filter].
  destruct (p r); cbn [List.length]; lia.
Qed.

Lemma count_rows_nonneg (p : FoodItem -> bool) (rows : list FoodItem) :
  0 <= count_rows p rows.
Proof. unfold count_rows. lia. Qed.

Lemma count_rows_zero (p : FoodItem -> bool) (rows : list FoodItem) :
  (forall r, In r rows -> p r = false) -> count_rows p rows = 0.
Proof.
  intros H. unfold count_rows.
  induction rows as [|r rows IH]; [reflexivity|]. cbn [filter].
  rewrite (H r (or_introl eq_refl)). apply IH. intros x Hx. apply H. right. exact Hx.
Qed.

Lemma count_rows_le (p q : FoodItem -> bool) (rows : list FoodItem) :
  (forall r, p r = true -> q r = true) -> count_rows p rows <= count_rows q rows.
Proof.
  intros H. unfold count_rows.
  induction rows as [|r rows IH]; [cbn; lia|]. cbn [filter].
  destruct (p r) eqn:E.
  - rewrite (H r E). cbn [List.length]. lia.
  - destruct (q r); cbn [List.length]; lia.
Qed.

(** The categories after one more row. *)
Lemma add_to_group_categories (r : FoodItem) (groups : list category_row) :
  map cr_category (add_to_group r groups)
  = if existsb (fun g => category_eqb (cr_category g) (category r)) groups
    then map cr_category groups
    else map cr_category groups ++ [category r].
Proof.
  induction groups as [|g rest IH]; cbn [add_to_group existsb map app].
  - reflexivity.
  - destruct (category_eqb (cr_category g) (category r)); cbn [orb map].
    + reflexivity.
    + rewrite IH. destruct (existsb _ rest); reflexivity.
Qed.

(** The groups after one more row: the group of its category is bumped,
    or opened, and the others stay. *)
Lemma add_to_group_In (r : FoodItem) (groups : list category_row) (g' : category_row) :
  NoDup (map cr_category groups) ->
  In g' (add_to_group r groups) ->
  (In g' groups /\ cr_category g' <> category r)
  \/ (exists g, In g groups /\ cr_category g = category r
                /\ g' = {| cr_category := cr_category g;
                           cr_count := cr_count g + 1;
                           cr_expired_count := cr_expired_count g + expired_flag r |})
  \/ (~ In (category r) (map cr_category groups)
      /\ g' = {| cr_category := category r; cr_count := 1;
                 cr_expired_count := expired_flag r |}).
Proof.
  induction groups as [|g rest IH]; cbn [add_to_group map]; intros Hnd Hin.
  - destruct Hin as [<-|[]]. right. right. split; [intros []|reflexivity].
  - inversion Hnd as [|? ? Hnotin Hnd']; subst.
    destruct (category_eqb (cr_category g) (category r)) eqn:E.
    + apply category_eqb_eq in E. destruct Hin as [<-|Hin].
      * right. left. exists g. split; [left; reflexivity|]. auto.
      * left. split; [right; exact Hin|]. intros Hc. apply Hnotin.
        rewrite E, <- Hc. apply in_map, Hin.
    + apply category_eqb_neq in E. destruct Hin as [<-|Hin].
      * left. split; [left; reflexivity | exact E].
      * destruct (IH Hnd' Hin) as [[H1 H2]|[[g0 [H1 [H2 H3]]]|[H1 H2]]].
        -- left. split; [right; exact H1 | exact H2].
        -- right. left. exists g0. split; [right; exact H1|]. auto.
        -- right. right. split; [|exact H2].
           cbn [In]. intros [H|H]; [apply E, H | apply H1, H].
Qed.

Lemma existsb_category (c : option string) (groups : list category_row) :
  existsb (fun g => category_eqb (cr_category g) c) groups = true
  <-> In c (map cr_category groups).
Proof.
  rewrite existsb_exists, in_map_iff. split.
  - intros [g [Hg E]]. apply category_eqb_eq in E. exists g. auto.
  - intros [g [E Hg]]. exists g. split; [exact Hg|]. apply category_eqb_eq, E.
Qed.

Lemma groups_of_step (rows : list FoodItem) (groups : list category_row) (r : FoodItem) :
  groups_of rows groups -> groups_of (rows ++ [r]) (add_to_group r groups).
Proof.
  intros [Hnd [Hcounts Hcover]]. unfold groups_of.
  assert (Hcats := add_to_group_categories r groups).
  split; [|split].
  - rewrite Hcats.
    destruct (existsb (fun g => category_eqb (cr_category g) (category r)) groups) eqn:E.
    + exact Hnd.
    + apply NoDup_app; [exact Hnd | repeat constructor; intros [] |].
      intros c Hc [<-|[]].
      apply existsb_category in Hc. congruence.
  - intros g' Hg'. rewrite !count_rows_snoc.
    destruct (add_to_group_In r groups g' Hnd Hg')
      as [[H1 H2]|[[g [H1 [H2 H3]]]|[H1 H2]]].
    + destruct (Hcounts g' H1) as [C1 [C2 C3]].
      assert (Hs : same_category (cr_category g') r = false)
        by (apply category_eqb_neq, H2).
      rewrite Hs. cbn [andb]. lia.
    + destruct (Hcounts g H1) as [C1 [C2 C3]]. subst g'.
      cbn [cr_category cr_count cr_expired_count].
      assert (Hs : same_category (cr_category g) r = true)
        by (apply category_eqb_eq, H2).
      rewrite Hs. cbn [andb]. unfold expired_flag. fold (is_expired r).
      destruct (is_expired r); lia.
    + subst g'. cbn [cr_category cr_count cr_expired_count].
      assert (Hs : same_category (category r) r = true)
        by (apply category_eqb_eq; reflexivity).
      rewrite Hs. cbn [andb].
      assert (Hnone : forall x, In x rows -> same_category (category r) x = false).
      { intros x Hx. apply category_eqb_neq. intros Hc.
        apply H1. rewrite Hc. apply Hcover, Hx. }
      rewrite !count_rows_zero.
      * unfold expired_flag. fold (is_expired r).
        destruct (is_expired r); lia.
      * intros x Hx. rewrite (Hnone x Hx). reflexivity.
      * exact Hnone.
  - intros x Hx. rewrite Hcats.
    destruct (existsb (fun g => category_eqb (cr_category g) (category r)) groups) eqn:E.
    + apply in_app_or in Hx as [Hx|[<-|[]]]; [apply Hcover, Hx|].
      apply existsb_category, E.
    + apply in_or_app. apply in_app_or in Hx as [Hx|[<-|[]]].
      * left. apply Hcover, Hx.
      * right. left. reflexivity.
Qed.

Lemma groups_of_fold (rows done : list FoodItem) (groups : list category_row) :
  groups_of done groups ->
  groups_of (done ++ rows) (fold_left (fun gs r => add_to_group r gs) rows groups).
Proof.
  revert done groups. induction rows as [|r rows IH]; intros done groups H.
  - rewrite app_nil_r. exact H.
  - cbn [fold_left].
    replace (done ++ r :: rows) with ((done ++ [r]) ++ rows)
      by (rewrite <- app_assoc; reflexivity).
    apply IH, groups_of_step, H.
Qed.

Lemma group_by_category_ok (rows : list FoodItem) :
  groups_of rows (group_by_category rows).
Proof.
  unfold group_by_category.
  set (seen := fold_left (fun groups r => add_to_group r groups) rows []).
  assert (Hseen : groups_of rows seen).
  { apply (@groups_of_fold rows (@nil FoodItem) (@nil category_row)).
    split; [constructor|]. split; [intros g []|intros r []]. }
  pose proof (order_by_category_perm cr_category seen) as Hperm.
  destruct Hseen as [Hnd [Hcounts Hcover]]. split; [|split].
  - eapply Permutation_NoDup; [|exact Hnd].
    apply Permutation_map, Permutation_sym, Hperm.
  - intros g Hg. apply Hcounts. eapply Permutation_in; [exact Hperm | exact Hg].
  - intros r Hr. eapply Permutation_in; [|apply Hcover, Hr].
    apply Permutation_map, Permutation_sym, Hperm.
Qed.

(** The counting query of [get_statistics] is the grouping of the waste
    statistics without its third column. *)
Lemma count_in_add_to_group (r : FoodItem) (groups : list category_row) :
  count_in r (map (fun g => (cr_category g, cr_count g)) groups)
  = map (fun g => (cr_category g, cr_count g)) (add_to_group r groups).
Proof.
  induction groups as [|g rest IH]; cbn [map count_in add_to_group].
  - reflexivity.
  - change (match cr_category g with
            | Some x => match category r with
                        | Some y => String.eqb x y
                        | None => false
                        end
            | None => match category r with
                      | Some _ => false
                      | None => true
                      end
            end) with (category_eqb (cr_category g) (category r)).
    destruct (category_eqb (cr_category g) (category r)); cbn [map].
    + reflexivity.
    + rewrite IH. reflexivity.
Qed.

Lemma count_by_category_groups (rows : list FoodItem) :
  count_by_category rows
  = map (fun g => (cr_category g, cr_count g)) (group_by_category rows).
Proof.
  unfold count_by_category, group_by_category.
  rewrite <- (order_by_category_map (fun g => (cr_category g, cr_count g))
                cr_category fst) by reflexivity.
  f_equal.
  change (@nil (option string * Z))
    with (map (fun g => (cr_category g, cr_count g)) []).
  generalize (@nil category_row) as groups.
  induction rows as [|r rows IH]; intros groups; cbn [fold_left].
  - reflexivity.
  - rewrite count_in_add_to_group. apply IH.
Qed.

End Grouping.

Section Counts.
Import database expiry_tracker spec notions.

Lemma count_positive_witness (p : FoodItem -> bool) (rows : list FoodItem) :
  1 <= count_rows p rows -> exists r, In r rows /\ p r = true.
Proof.
  unfold count_rows. intros H.
  destruct (filter p rows) as [|x xs] eqn:E; [cbn in H; lia|].
  assert (Hx : In x (filter p rows)) by (rewrite E; left; reflexivity).
  apply filter_In in Hx. exists x. exact Hx.
Qed.

Lemma pair_sum_map (groups : list category_row) (a : Z) :
  fold_left (fun acc (p : option string * Z) => acc + snd p)
            (map (fun g => (cr_category g, cr_count g)) groups) a
  = fold_left (fun acc g => acc + cr_count g) groups a.
Proof.
  revert a. induction groups as [|g rest IH]; intros a; cbn [map fold_left].
  - reflexivity.
  - apply IH.
Qed.

Lemma filter_length_le {A : Type} (p q : A -> bool) (l : list A) :
  (forall x, p x = true -> q x = true) ->
  (List.length (filter p l) <= List.length (filter q l))%nat.
Proof.
  intros H. induction l as [|x l IH]; cbn [filter]; [lia|].
  destruct (p x) eqn:E.
  - rewrite (H x E). cbn [List.length]. lia.
  - destruct (q x); cbn [List.length]; lia.
Qed.

End Counts.

(** X9: in the dict of [get_statistics], [by_category] has one entry for
    each category that occurs among the fresh rows (a missing category
    being one of them), with the number of fresh rows of that category,
    never 0; these numbers add up to [total_items]; [expiring_soon] is the
    number of rows [get_expiring_items(3)] returns and never exceeds
    [total_items]. *)
Theorem X9_get_statistics_counts :
  forall (clk : Clock) (db : database.DB),
    let st := database.get_statistics clk db in
    let fresh_rows :=
      filter (fun r => String.eqb (database.status r) "fresh")
             (database.food_items db) in
    database.stat_total_items st = Z.of_nat (List.length fresh_rows)
    /\ NoDup (map fst (database.stat_by_category st))
    /\ (forall c n,
          In (c, n) (database.stat_by_category st)
          <-> n = notions.count_rows (notions.same_category c) fresh_rows /\ 1 <= n)
    /\ fold_left (fun acc (p : option string * Z) => acc + snd p)
                 (database.stat_by_category st) 0
       = database.stat_total_items st
    /\ database.stat_expiring_soon st
       = Z.of_nat (List.length (database.get_expiring_items clk 3 db))
    /\ 0 <= database.stat_expiring_soon st <= database.stat_total_items st
    /\ database.stat_unread_alerts st = Z.of_nat (List.length (notions.unread db)).
Proof.
  intros clk db st fresh_rows.
  pose proof (group_by_category_ok fresh_rows) as [Hnd [Hcounts Hcover]].
  assert (Hby : database.stat_by_category st
                = map (fun g => (expiry_tracker.cr_category g, expiry_tracker.cr_count g))
                      (expiry_tracker.group_by_category fresh_rows)).
  { subst st. unfold database.get_statistics; cbn [database.stat_by_category].
    apply count_by_category_groups. }
  split; [reflexivity|]. split.
  { rewrite Hby, map_map. cbn [fst]. exact Hnd. }
  split.
  { intros c n. rewrite Hby, in_map_iff. split.
    - intros [g [Hg Hin]]. injection Hg as <- <-.
      destruct (Hcounts g Hin) as [C1 [_ C3]]. auto.
    - intros [Hn Hpos]. rewrite Hn in Hpos.
      destruct (count_positive_witness _ _ Hpos) as [r [Hr Hc]].
      apply category_eqb_eq in Hc.
      pose proof (Hcover r Hr) as Hin. rewrite <- Hc in Hin.
      apply in_map_iff in Hin as [g [Hg Hin]]. exists g. split; [|exact Hin].
      destruct (Hcounts g Hin) as [C1 _]. rewrite C1, Hg, Hn. reflexivity. }
  split.
  { rewrite Hby, pair_sum_map.
    change (fold_left (fun acc g => acc + expiry_tracker.cr_count g)
                      (expiry_tracker.group_by_category fresh_rows) 0)
      with (expiry_tracker.column_sum expiry_tracker.cr_count
              (expiry_tracker.group_by_category fresh_rows)).
    rewrite group_by_category_count. reflexivity. }
  assert (Hsoon : database.stat_expiring_soon st
                  = Z.of_nat (List.length (database.get_expiring_items clk 3 db))).
  { subst st. unfold database.get_statistics, database.get_expiring_items;
      cbn [database.stat_expiring_soon].
    rewrite order_by_expiry_date_length. reflexivity. }
  split; [exact Hsoon|]. split; [|reflexivity].
  split; [rewrite Hsoon; lia|].
  subst st. unfold database.get_statistics;
    cbn [database.stat_expiring_soon database.stat_total_items].
  apply inj_le. apply filter_length_le. intros r.
  destruct (database.expiry_date r); [|discriminate].
  intros H. apply andb_true_iff in H. tauto.
Qed.

(** X10: the [by_category] rows of [calculate_waste_statistics] are the
    categories that occur in the 30-day window, each once, with the number
    of its rows in the window and the number of those that are expired;
    so in every row, and in the totals, 0 <= expired <= count. *)
Theorem X10_waste_statistics_by_category :
  forall (clk : Clock) (db : database.DB),
    let st := expiry_tracker.calculate_waste_statistics clk db in
    let window := filter (expiry_tracker.in_window clk) (database.food_items db) in
    NoDup (map expiry_tracker.cr_category (expiry_tracker.by_category st))
    /\ (forall g, In g (expiry_tracker.by_category st) ->
          expiry_tracker.cr_count g
          = notions.count_rows (notions.same_category (expiry_tracker.cr_category g))
                               window
          /\ expiry_tracker.cr_expired_count g
             = notions.count_rows
                 (fun r => notions.same_category (expiry_tracker.cr_category g) r
                           && notions.is_expired r) window
          /\ 0 <= expiry_tracker.cr_expired_count g <= expiry_tracker.cr_count g
          /\ 1 <= expiry_tracker.cr_count g)
    /\ (forall r, In r window ->
          In (database.category r)
             (map expiry_tracker.cr_category (expiry_tracker.by_category st)))
    /\ 0 <= expiry_tracker.expired_items st
       <= expiry_tracker.total_items_last_30_days st.
Proof.
  intros clk db st window.
  pose proof (group_by_category_ok window) as [Hnd [Hcounts Hcover]].
  split; [exact Hnd|]. split; [|split; [exact Hcover|]].
  - intros g Hg. destruct (Hcounts g Hg) as [C1 [C2 C3]].
    split; [exact C1|]. split; [exact C2|]. split; [|exact C3].
    rewrite C1, C2. split; [apply count_rows_nonneg|].
    apply count_rows_le. intros r H. apply andb_true_iff in H. tauto.
  - subst st. unfold expiry_tracker.calculate_waste_statistics;
      cbn [expiry_tracker.expired_items expiry_tracker.total_items_last_30_days].
    rewrite group_by_category_count, group_by_category_expired. fold window.
    pose proof (filter_length_le
                  (fun r => String.eqb (database.status r) "expired")
                  (fun _ => true) window ltac:(reflexivity)) as Hle.
    rewrite (filter_all_true (fun _ : database.FoodItem => true) window) in Hle
      by reflexivity.
    lia.
Qed.

(* ================================================================== *)
(** ** More on the classification pass *)

Section Urgency.
Import database expiry_tracker spec notions.

Lemma tier_rank_mono (th : config.AlertThresholds) (d1 d2 : Z) :
  d1 <= d2 -> (rank (tier th d1) <= rank (tier th d2))%nat.
Proof.
  intros H. unfold tier.
  destruct (Z.ltb_spec d1 0), (Z.ltb_spec d2 0);
    destruct (Z.leb_spec d1 (config.thr_critical th));
    destruct (Z.leb_spec d2 (config.thr_critical th));
    destruct (Z.leb_spec d1 (config.thr_warning th));
    destruct (Z.leb_spec d2 (config.thr_warning th));
    destruct (Z.leb_spec d1 (config.thr_normal th));
    destruct (Z.leb_spec d2 (config.thr_normal th));
    cbn [rank]; lia.
Qed.

Lemma item_infos_sorted (now_ : Z) (l : list FoodItem) :
  StronglySorted by_expiry l -> StronglySorted by_days (item_infos now_ l).
Proof.
  induction 1 as [|r l Hs IH Hall]; unfold item_infos in *; cbn [flat_map].
  - constructor.
  - destruct (expiry_date r) as [e|] eqn:He; [|exact IH].
    cbn [app]. constructor; [exact IH|].
    apply Forall_forall. intros j Hj.
    apply (item_infos_In now_ l j) in Hj as [r' [e' [Hr' [He' ->]]]].
    unfold by_days; cbn [days_remaining make_info].
    rewrite Forall_forall in Hall. specialize (Hall r' Hr').
    unfold by_expiry in Hall. rewrite He, He' in Hall. cbn in Hall.
    apply days_until_expiry_mono, Z.leb_le, Hall.
Qed.

Lemma filter_none {A : Type} (p : A -> bool) (l : list A) :
  (forall x, In x l -> p x = false) -> filter p l = [].
Proof.
  induction l as [|x l IH]; cbn [filter]; intros H; [reflexivity|].
  rewrite (H x (or_introl eq_refl)). apply IH. intros y Hy. apply H. right. exact Hy.
Qed.

(** In a list in order of day count the tiers come in blocks, most urgent
    first. *)
Lemma tiers_in_blocks (th : config.AlertThresholds) (l : list item_info) :
  StronglySorted by_days l ->
  filter (in_tier th Critical) l ++ filter (in_tier th Warning) l
    ++ filter (in_tier th Normal) l ++ filter (in_tier th Fresh) l = l.
Proof.
  induction 1 as [|x l Hs IH Hall]; [reflexivity|].
  assert (Hrank : forall y, In y l ->
                    (rank (tier th (days_remaining x))
                     <= rank (tier th (days_remaining y)))%nat).
  { intros y Hy. rewrite Forall_forall in Hall. apply tier_rank_mono, Hall, Hy. }
  assert (Hlow : forall t, (rank t < rank (tier th (days_remaining x)))%nat ->
                           filter (in_tier th t) l = []).
  { intros t Ht. apply filter_none. intros y Hy. unfold in_tier.
    specialize (Hrank y Hy).
    destruct (tier th (days_remaining y)), t; cbn in *; try reflexivity; lia. }
  assert (Hcons : forall t,
             filter (in_tier th t) (x :: l)
             = if tier_eqb (tier th (days_remaining x)) t
               then x :: filter (in_tier th t) l
               else filter (in_tier th t) l) by reflexivity.
  rewrite !Hcons.
  destruct (tier th (days_remaining x)) eqn:T; cbn [tier_eqb].
  - cbn [app]. rewrite IH. reflexivity.
  - rewrite (Hlow Critical) in * by (cbn; lia). cbn [app] in *.
    rewrite IH. reflexivity.
  - rewrite (Hlow Critical), (Hlow Warning) in * by (cbn; lia). cbn [app] in *.
    rewrite IH. reflexivity.
  - rewrite (Hlow Critical), (Hlow Warning), (Hlow Normal) in * by (cbn; lia).
    cbn [app] in *. rewrite IH. reflexivity.
Qed.

End Urgency.

(** X11: the chain of tests of the pass is monotone in the day count for
    any three thresholds, ordered or not: an item with fewer days left is
    never put in a less urgent group than one with more. *)
Theorem X11_tier_monotone :
  forall (th : config.AlertThresholds) (d1 d2 : Z),
    d1 <= d2 ->
    (notions.rank (spec.tier th d1) <= notions.rank (spec.tier th d2))%nat.
Proof. intros th d1 d2. apply tier_rank_mono. Qed.

(** With thresholds out of order (5, 3, 7) two days left is critical and
    six days left normal. *)
Lemma X11_unordered_thresholds :
  (notions.rank (spec.tier {| config.thr_critical := 5; config.thr_warning := 3;
                              config.thr_normal := 7 |} 2)
   <= notions.rank (spec.tier {| config.thr_critical := 5; config.thr_warning := 3;
                                 config.thr_normal := 7 |} 6))%nat.
Proof.
  apply (@X11_tier_monotone
           {| config.thr_critical := 5; config.thr_warning := 3;
              config.thr_normal := 7 |} 2 6).
  lia.
Defined.

(** X12: read one after the other, the critical, warning, normal and
    fresh groups of [check_expiry_status] are the dated rows of the
    inventory listing, each once, in order of expiry date; so each group
    is in order of day count and the groups follow one another in it. *)
Theorem X12_groups_partition_in_order :
  forall (self : expiry_tracker.ExpiryTracker) (clk : Clock) (db : database.DB),
    let g := fst (expiry_tracker.check_expiry_status self clk db) in
    let all := expiry_tracker.critical g ++ expiry_tracker.warning g
                 ++ expiry_tracker.normal g ++ expiry_tracker.fresh g in
    all = spec.item_infos (now clk) (database.get_all_items false db)
    /\ map expiry_tracker.info_id all
       = map database.id (filter notions.dated (database.get_all_items false db))
    /\ StronglySorted notions.by_days all.
Proof.
  intros self clk db g all.
  assert (Hsorted : StronglySorted notions.by_days
                      (spec.item_infos (now clk) (database.get_all_items false db))).
  { apply item_infos_sorted. unfold database.get_all_items.
    apply order_by_expiry_date_strongly_sorted. }
  assert (Hall : all = spec.item_infos (now clk) (database.get_all_items false db)).
  { subst all g. rewrite check_expiry_status_fold; cbn [fst].
    unfold spec.grouped;
      cbn [expiry_tracker.critical expiry_tracker.warning expiry_tracker.normal
             expiry_tracker.fresh expiry_tracker.empty_groups app].
    apply tiers_in_blocks, Hsorted. }
  split; [exact Hall|]. rewrite Hall. split; [|exact Hsorted].
  apply item_infos_ids.
Qed.

Section Overdue.
Import database expiry_tracker spec notions.

(** A fetched row past its date is summarised in the critical group and
    gets the alert of an expired item, whatever its status says. *)
Lemma overdue_row_alerted (self : ExpiryTracker) (clk : Clock) (db : DB)
      (r : FoodItem) (e : Z) :
  In r (food_items db) -> status r <> "consumed" ->
  expiry_date r = Some e -> datetime.to_datetime e < now clk ->
  exists a,
    In a (inserted (utc clk) (alerts_seq db)
                   (payloads (fst (check_expiry_status self clk db))))
    /\ food_item_id a = id r
    /\ alert_type a = "expiry"
    /\ alert_level a = "critical"
    /\ message a
       = (name r ++ " has EXPIRED "
            ++ str_of_int (Z.abs (days_until_expiry (now clk) e))
            ++ " day(s) ago!")%string
    /\ is_read a = false.
Proof.
  intros Hr Hs He Hpast.
  set (d := days_until_expiry (now clk) e).
  assert (Hd : d < 0) by (apply days_until_expiry_past, Hpast).
  set (info := make_info r e d).
  set (g := fst (check_expiry_status self clk db)).
  assert (Hinfo : In info (critical g)).
  { subst g. rewrite check_expiry_status_fold; cbn [fst].
    change (In info (group Critical
                       (grouped (alert_thresholds self) empty_groups
                          (item_infos (now clk) (get_all_items false db))))).
    rewrite grouped_empty, filter_In. split.
    - apply item_infos_In. exists r, e. split; [|auto].
      apply get_all_items_In. split; [exact Hr|]. apply String.eqb_neq, Hs.
    - unfold in_tier, tier; cbn [days_remaining info make_info].
      destruct (Z.ltb_spec d 0); [reflexivity | lia]. }
  assert (Hp : In (critical_payload info) (payloads g)).
  { unfold payloads. apply in_or_app. left. apply in_map, Hinfo. }
  rewrite <- (inserted_payload (utc clk) (alerts_seq db) (payloads g)) in Hp.
  apply in_map_iff in Hp as [a [Hpa Ha]].
  exists a. split; [exact Ha|].
  unfold payload, critical_payload in Hpa. injection Hpa as H1 H2 H3 H4.
  split; [exact H1|]. split; [exact H2|]. split; [exact H3|]. split.
  - rewrite H4. destruct (critical_message_cases info) as [Hm _].
    apply Hm. exact Hd.
  - pose proof (inserted_unread (utc clk) (alerts_seq db) (payloads g)) as Hu.
    rewrite Forall_forall in Hu. apply Hu, Ha.
Qed.

(** After the call the row is stored as expired. *)
Lemma overdue_row_expired (self : ExpiryTracker) (clk : Clock) (db : DB)
      (r : FoodItem) (e : Z) :
  In r (food_items db) -> status r <> "consumed" ->
  expiry_date r = Some e -> datetime.to_datetime e < now clk ->
  In (set_status "expired" (utc clk) r)
     (food_items (fst (generate_alerts self clk db))).
Proof.
  intros Hr Hs He Hpast.
  rewrite generate_alerts_food_items, check_expiry_status_fold; cbn [snd].
  rewrite expire_fold; cbn [food_items].
  apply in_map_iff. exists r. split; [|exact Hr].
  assert (Hex : existsb (fun it => (id r =? id it) && past_due (now clk) it)
                        (get_all_items false db) = true).
  { apply existsb_exists. exists r. split.
    - apply get_all_items_In. split; [exact Hr|]. apply String.eqb_neq, Hs.
    - rewrite Z.eqb_refl. unfold past_due. rewrite He.
      apply Z.ltb_lt, days_until_expiry_past, Hpast. }
  rewrite Hex. reflexivity.
Qed.

End Overdue.

(** X13: a row that is past its date and not consumed gets a new unread
    critical alert "<name> has EXPIRED <n> day(s) ago!" from every call of
    [generate_alerts], also when it is already marked expired: the call
    leaves it stored as expired, and the next call alerts again. *)
Theorem X13_overdue_item_alerts_on_every_call :
  forall (self : expiry_tracker.ExpiryTracker) (clk clk' : Clock) (db : database.DB)
         (r : database.FoodItem) (e : Z),
    In r (database.food_items db) ->
    database.status r <> "consumed" ->
    database.expiry_date r = Some e ->
    datetime.to_datetime e < now clk ->
    datetime.to_datetime e < now clk' ->
    let db1 := fst (expiry_tracker.generate_alerts self clk db) in
    let db2 := fst (expiry_tracker.generate_alerts self clk' db1) in
    exists news1 news2 a1 a2,
      database.alerts db1 = database.alerts db ++ news1
      /\ database.alerts db2 = database.alerts db1 ++ news2
      /\ In a1 news1 /\ In a2 news2
      /\ database.food_item_id a1 = database.id r
      /\ database.food_item_id a2 = database.id r
      /\ database.alert_level a1 = "critical"
      /\ database.alert_level a2 = "critical"
      /\ database.is_read a1 = false /\ database.is_read a2 = false
      /\ database.message a1
         = (database.name r ++ " has EXPIRED "
              ++ str_of_int (Z.abs (expiry_tracker.days_until_expiry (now clk) e))
              ++ " day(s) ago!")%string
      /\ In (database.set_status "expired" (utc clk) r) (database.food_items db1).
Proof.
  intros self clk clk' db r e Hr Hs He Hpast Hpast' db1 db2.
  destruct (overdue_row_alerted self clk db r Hr Hs He Hpast)
    as [a1 [Ha1 [Hid1 [_ [Hl1 [Hm1 Hu1]]]]]].
  pose proof (overdue_row_expired self clk db r Hr Hs He Hpast) as Hr1.
  fold db1 in Hr1.
  assert (Hs1 : database.status (database.set_status "expired" (utc clk) r)
                <> "consumed") by (cbn; discriminate).
  destruct (overdue_row_alerted self clk' db1
              (database.set_status "expired" (utc clk) r) Hr1 Hs1 He Hpast')
    as [a2 [Ha2 [Hid2 [_ [Hl2 [_ Hu2]]]]]].
  eexists _, _, a1, a2.
  split; [apply generate_alerts_alerts|].
  split; [apply generate_alerts_alerts|].
  split; [exact Ha1|]. split; [exact Ha2|].
  split; [exact Hid1|]. split; [exact Hid2|].
  split; [exact Hl1|]. split; [exact Hl2|].
  split; [exact Hu1|]. split; [exact Hu2|].
  split; [exact Hm1 | exact Hr1].
Qed.

(** The fish of [sample.stale] is alerted by the first call and again by
    the second. *)
Lemma X13_stale_fish_alerted_twice :
  let db1 := fst (expiry_tracker.generate_alerts expiry_tracker.__init__
                    sample.clk sample.stale) in
  let db2 := fst (expiry_tracker.generate_alerts expiry_tracker.__init__
                    sample.clk' db1) in
  exists news2 a1 a2,
    In a1 (database.alerts db1)
    /\ database.alerts db2 = database.alerts db1 ++ news2 /\ In a2 news2
    /\ database.food_item_id a1 = 1 /\ database.food_item_id a2 = 1
    /\ database.message a1 = "Fish has EXPIRED 2 day(s) ago!".
Proof.
  assert (Hr : In sample.fish (database.food_items sample.stale)).
  { vm_compute. left. reflexivity. }
  assert (Hs : database.status sample.fish <> "consumed") by (cbn; discriminate).
  assert (Hpast : datetime.to_datetime (sample.today - 1) < now sample.clk)
    by reflexivity.
  assert (Hpast' : datetime.to_datetime (sample.today - 1) < now sample.clk')
    by reflexivity.
  destruct (@X13_overdue_item_alerts_on_every_call expiry_tracker.__init__
              sample.clk sample.clk' sample.stale sample.fish (sample.today - 1)
              Hr Hs eq_refl Hpast Hpast')
    as [news1 [news2 [a1 [a2 [H1 [H2 [Ha1 [Ha2 [Hi1 [Hi2 [_ [_ [_ [_ [Hm _]]]]]]]]]]]]]]].
  exists news2, a1, a2.
  split; [rewrite H1; apply in_or_app; right; exact Ha1|].
  split; [exact H2|]. split; [exact Ha2|].
  split; [exact Hi1|]. split; [exact Hi2 | exact Hm].
Defined.

(** X14: right after a classification pass the recipe candidates hold no
    overdue item: with distinct ids every entry [get_items_for_recipe]
    returns from the store the pass leaves has a day count of 0 or more. *)
Theorem X14_no_overdue_candidates_after_pass :
  forall (self : expiry_tracker.ExpiryTracker) (clk : Clock) (m : option Z)
         (db : database.DB),
    NoDup (map database.id (database.food_items db)) ->
    let db1 := snd (expiry_tracker.check_expiry_status self clk db) in
    let db2 := fst (expiry_tracker.generate_alerts self clk db) in
    (forall x, In x (expiry_tracker.get_items_for_recipe clk m db1) ->
               0 <= expiry_tracker.ri_days_remaining x)
    /\ expiry_tracker.get_items_for_recipe clk m db2
       = expiry_tracker.get_items_for_recipe clk m db1.
Proof.
  intros self clk m db Hnd db1 db2. split.
  - intros x Hx. rewrite get_items_for_recipe_eq in Hx.
    apply entries_In in Hx as [r [e [Hr [He ->]]]]. apply head_In in Hr.
    apply get_expiring_items_In in Hr as [Hr [e' [He' [_ Hs]]]].
    rewrite He in He'. injection He' as <-.
    cbn [expiry_tracker.ri_days_remaining].
    subst db1. rewrite check_expiry_status_store in Hr by exact Hnd.
    cbn [database.food_items] in Hr.
    apply in_map_iff in Hr as [r0 [Ht Hr0]].
    unfold spec.touch in Ht.
    destruct (spec.overdue (now clk) r0) eqn:Hov.
    + subst r. cbn in Hs. discriminate.
    + subst r0. unfold spec.overdue in Hov. rewrite He, Hs in Hov.
      cbn in Hov. apply Z.ltb_ge in Hov. exact Hov.
  - unfold expiry_tracker.get_items_for_recipe, database.get_expiring_items.
    subst db1 db2. rewrite generate_alerts_food_items. reflexivity.
Qed.

(** After a pass over the stale store no candidate is overdue. *)
Lemma X14_stale_after_pass :
  Forall (fun x => 0 <= expiry_tracker.ri_days_remaining x)
    (expiry_tracker.get_items_for_recipe sample.clk None
       (snd (expiry_tracker.check_expiry_status expiry_tracker.__init__ sample.clk
               sample.stale))).
Proof.
  assert (Hnd : NoDup (map database.id (database.food_items sample.stale)))
    by distinct_ids.
  destruct (X14_no_overdue_candidates_after_pass expiry_tracker.__init__
              sample.clk None sample.stale Hnd) as [Hnonneg _].
  apply Forall_forall. exact Hnonneg.
Defined.

(* ================================================================== *)
(** ** Finding the JSON object in the service's answer *)

Section Braces.
Import recipe_generator.

Local Open Scope string_scope.

Lemma append_assoc3 (a b c : string) : (a ++ b) ++ c = a ++ (b ++ c).
Proof. induction a as [|x a IH]; cbn; [reflexivity | rewrite IH; reflexivity]. Qed.

Lemma length_append2 (a b : string) :
  String.length (a ++ b) = (String.length a + String.length b)%nat.
Proof. induction a as [|x a IH]; cbn; [reflexivity | rewrite IH; reflexivity]. Qed.

Lemma substring_skip (pre t : string) (n : nat) :
  String.substring (String.length pre) n (pre ++ t) = String.substring 0 n t.
Proof. induction pre as [|x pre IH]; cbn; [reflexivity | exact IH]. Qed.

Lemma substring_prefix (m t : string) :
  String.substring 0 (String.length m) (m ++ t) = m.
Proof.
  induction m as [|x m IH]; cbn.
  - destruct t; reflexivity.
  - rewrite IH. reflexivity.
Qed.

(** Two ways to cut a string: the shorter first part is the start of the
    longer one. *)
Lemma append_cut (a b c d : string) :
  a ++ b = c ++ d -> (String.length a <= String.length c)%nat ->
  exists m, c = a ++ m /\ b = m ++ d.
Proof.
  revert c. induction a as [|x a IH]; intros c H Hlen.
  - exists c. cbn in *. auto.
  - destruct c as [|y c]; [cbn in Hlen; lia|].
    cbn in H. injection H as -> H. cbn in Hlen.
    destruct (IH c H ltac:(lia)) as [m [-> ->]].
    exists m. auto.
Qed.

Lemma find_char_split (c : ascii) (s : string) (i : nat) :
  find_char c s = Some i ->
  exists pre rest, s = pre ++ String c rest /\ String.length pre = i
                   /\ find_char c pre = None.
Proof.
  revert i. induction s as [|a s IH]; intros i; cbn [find_char]; [discriminate|].
  destruct (Ascii.eqb_spec a c) as [->|Hne].
  - intros H. injection H as <-. exists "", s. auto.
  - destruct (find_char c s) as [k|]; [|discriminate].
    intros H. injection H as <-.
    destruct (IH k eq_refl) as [pre [rest [-> [Hlen Hnone]]]].
    exists (String a pre), rest. cbn [append String.length find_char].
    rewrite Hlen, Hnone. destruct (Ascii.eqb_spec a c); [contradiction|]. auto.
Qed.

Lemma rfind_char_split (c : ascii) (s : string) (j : nat) :
  rfind_char c s = Some j ->
  exists pre post, s = pre ++ String c post /\ String.length pre = j
                   /\ rfind_char c post = None.
Proof.
  revert j. induction s as [|a s IH]; intros j; cbn [rfind_char]; [discriminate|].
  destruct (rfind_char c s) as [k|] eqn:E.
  - intros H. injection H as <-.
    destruct (IH k eq_refl) as [pre [post [-> [Hlen Hnone]]]].
    exists (String a pre), post. cbn [append String.length]. auto.
  - destruct (Ascii.eqb_spec a c) as [->|Hne]; [|discriminate].
    intros H. injection H as <-. exists "", s. auto.
Qed.

(** The first occurrence is no later than any occurrence, and the last no
    earlier. *)
Lemma find_char_first (c : ascii) (pre rest : string) :
  exists i, find_char c (pre ++ String c rest) = Some i
            /\ (i <= String.length pre)%nat.
Proof.
  induction pre as [|a pre IH]; cbn [append find_char String.length].
  - rewrite Ascii.eqb_refl. exists O. auto.
  - destruct (Ascii.eqb a c); [exists O; split; [reflexivity | lia]|].
    destruct IH as [i [-> Hi]]. exists (S i). split; [reflexivity | lia].
Qed.

Lemma rfind_char_last (c : ascii) (pre post : string) :
  exists j, rfind_char c (pre ++ String c post) = Some j
            /\ (String.length pre <= j)%nat.
Proof.
  induction pre as [|a pre IH]; cbn [append rfind_char String.length].
  - destruct (rfind_char c post) as [k|].
    + exists (S k). split; [reflexivity | lia].
    + rewrite Ascii.eqb_refl. exists O. auto.
  - destruct IH as [j [-> Hj]]. exists (S j). split; [reflexivity | lia].
Qed.

End Braces.

(** X15: [_extract_json_from_text] hands to the parser the span of the text
    from its first opening brace to its last closing brace, both included,
    whatever surrounds it, and returns or raises what the parser does; a
    text with no opening brace, or with no closing brace after the first
    opening one, raises ValueError and the parser is not called. *)
Theorem X15_extract_json_span :
  forall (J : Type) (json_loads : string -> result J) (text : string),
    (exists pre mid post,
        text = (pre ++ String recipe_generator.open_brace
                         (mid ++ String recipe_generator.close_brace post))%string
        /\ recipe_generator.find_char recipe_generator.open_brace pre = None
        /\ recipe_generator.rfind_char recipe_generator.close_brace post = None
        /\ recipe_generator._extract_json_from_text json_loads text
           = json_loads (String recipe_generator.open_brace
                           (mid ++ String recipe_generator.close_brace ""))%string)
    \/ ((forall pre mid post,
            text <> (pre ++ String recipe_generator.open_brace
                              (mid ++ String recipe_generator.close_brace post))%string)
        /\ recipe_generator._extract_json_from_text json_loads text
           = Raised "ValueError").
Proof.
  intros J json_loads text.
  set (ob := recipe_generator.open_brace). set (cb := recipe_generator.close_brace).
  assert (Hfirst : forall pre mid post,
             text = (pre ++ String ob (mid ++ String cb post))%string ->
             exists i j, recipe_generator.find_char ob text = Some i
                         /\ recipe_generator.rfind_char cb text = Some j
                         /\ (i < j)%nat).
  { intros pre mid post ->.
    destruct (find_char_first ob pre (mid ++ String cb post)) as [i [Hi Hle]].
    pose proof (rfind_char_last cb (pre ++ String ob mid) post) as [j [Hj Hge]].
    rewrite append_assoc3 in Hj. cbn [append] in Hj.
    rewrite length_append2 in Hge. cbn [String.length] in Hge.
    exists i, j. split; [exact Hi|]. split; [exact Hj | lia]. }
  unfold recipe_generator._extract_json_from_text. fold ob cb.
  destruct (recipe_generator.find_char ob text) as [i|] eqn:F.
  - destruct (recipe_generator.rfind_char cb text) as [j|] eqn:R.
    + cbn [recipe_generator.index_or_minus_one].
      destruct (Z.eqb_spec (Z.of_nat i) (-1)) as [E|_]; [lia|]. cbn [negb andb].
      destruct (Z.gtb_spec (Z.of_nat j + 1) (Z.of_nat i)) as [Hgt|Hle].
      * left.
        destruct (find_char_split ob text F) as [pre [rest [Ht [Hlen Hnone]]]].
        destruct (rfind_char_split cb text R) as [pre2 [post [Ht2 [Hlen2 Hnone2]]]].
        assert (Hcut : exists m, pre2 = (pre ++ m)%string
                                 /\ String ob rest = (m ++ String cb post)%string).
        { apply append_cut; [congruence | lia]. }
        destruct Hcut as [m [Hpre2 Hrest]].
        destruct m as [|x mid].
        { cbn in Hrest. injection Hrest as Hc _. discriminate Hc. }
        cbn [append] in Hrest. injection Hrest as <- Hrest.
        exists pre, mid, post.
        split; [rewrite Ht, Hrest; reflexivity|].
        split; [exact Hnone|]. split; [exact Hnone2|].
        f_equal. unfold recipe_generator.slice.
        rewrite Nat2Z.id.
        assert (Hn : Z.to_nat (Z.of_nat j + 1 - Z.of_nat i)
                     = String.length (String ob (mid ++ String cb ""))).
        { cbn [String.length]. rewrite length_append2. cbn [String.length].
          rewrite <- Hlen2, Hpre2, length_append2. cbn [String.length]. lia. }
        rewrite Hn, Ht, Hrest, <- Hlen.
        rewrite substring_skip.
        change (String ob (mid ++ String cb post))
          with (String ob (mid ++ String cb ("" ++ post)))%string.
        replace (String ob (mid ++ String cb ("" ++ post)))%string
          with (String ob (mid ++ String cb "") ++ post)%string.
        -- apply substring_prefix.
        -- cbn [append]. rewrite append_assoc3. reflexivity.
      * right. split; [|reflexivity].
        intros pre mid post Ht.
        destruct (Hfirst pre mid post Ht) as [i' [j' [Hi [Hj Hlt]]]].
        try rewrite F in Hi. try rewrite R in Hj.
        injection Hi as <-. injection Hj as <-. lia.
    + right. cbn [recipe_generator.index_or_minus_one].
      destruct (Z.gtb_spec (-1 + 1) (Z.of_nat i)) as [Hgt|Hle]; [lia|].
      rewrite andb_false_r. split; [|reflexivity].
      intros pre mid post Ht.
      destruct (Hfirst pre mid post Ht) as [i' [j' [_ [Hj _]]]].
      try rewrite R in Hj. discriminate.
  - right. cbn [recipe_generator.index_or_minus_one]. cbn [Z.eqb negb andb].
    split; [|reflexivity].
    intros pre mid post Ht.
    destruct (Hfirst pre mid post Ht) as [i' [j' [Hi _]]].
    try rewrite F in Hi. discriminate.
Qed.

(* ================================================================== *)
(** ** The recipe generator around the fallback *)

Section Generator.
Import recipe_generator.

Lemma existsb_perm {A : Type} (p : A -> bool) (l l' : list A) :
  Permutation l l' -> existsb p l = existsb p l'.
Proof.
  induction 1 as [|x l l' _ IH|x y l|l l' l'' _ IH1 _ IH2]; cbn [existsb].
  - reflexivity.
  - rewrite IH. reflexivity.
  - destruct (p x), (p y); reflexivity.
  - rewrite IH1. exact IH2.
Qed.

Lemma existsb_map {A B : Type} (f : A -> B) (p : B -> bool) (l : list A) :
  existsb p (map f l) = existsb (fun x => p (f x)) l.
Proof.
  induction l as [|x l IH]; cbn [map existsb]; [reflexivity|].
  rewrite IH. reflexivity.
Qed.

Lemma existsb_pointwise {A : Type} (p q : A -> bool) (l : list A) :
  (forall x, p x = q x) -> existsb p l = existsb q l.
Proof.
  intros H. induction l as [|x l IH]; cbn [existsb]; [reflexivity|].
  rewrite H, IH. reflexivity.
Qed.

(** Both ingredient tests read the lower-case names only. *)
Lemma has_vegetables_lower (l : list string) :
  has_vegetables l
  = existsb (fun s => contains "vegetable" s
                      || existsb (fun veg => contains veg s) vegetable_words)
            (map lower l).
Proof. unfold has_vegetables, any. rewrite existsb_map. reflexivity. Qed.

Lemma has_protein_lower (l : list string) :
  has_protein l
  = existsb (fun prot => existsb (fun s => contains prot s) (map lower l))
            protein_words.
Proof.
  unfold has_protein, any. apply existsb_pointwise. intros prot.
  rewrite existsb_map. reflexivity.
Qed.

Lemma lower_ascii_idem (c : ascii) : lower_ascii (lower_ascii c) = lower_ascii c.
Proof.
  destruct c as [[] [] [] [] [] [] [] []]; reflexivity.
Qed.

Lemma lower_idem (s : string) : lower (lower s) = lower s.
Proof.
  induction s as [|c s IH]; cbn [lower]; [reflexivity|].
  rewrite lower_ascii_idem, IH. reflexivity.
Qed.

Lemma fallback_template (l : list string) (r : Recipe) :
  _generate_fallback_recipe l = Returned r ->
  nth_error recipe_templates
            (if negb (has_protein l) && has_vegetables l then 1
             else if (4 <=? List.length l)%nat then 2 else 0)%nat
  = Some (template r).
Proof.
  intros H. destruct (fallback_returns l) as [t [Ht Hf]].
  rewrite Hf in H. injection H as <-. exact Ht.
Qed.

End Generator.

(** X16: [generate_recipe] returns a recipe for every input and whatever
    the service and the parser do: without a key it is the fallback
    recipe; with a key it is the parsed answer of the service when the
    request succeeds and the answer holds a JSON object that parses, and
    the fallback recipe in every other case. *)
Theorem X16_generate_recipe_never_raises :
  forall (J : Type) (api_key : string) (service : string -> result string)
         (json_loads : string -> result J) (ingredients_ : list string)
         (cuisine_type : option string) (dietary_restrictions : option (list string)),
    exists fallback,
      recipe_generator._generate_fallback_recipe ingredients_ = Returned fallback
      /\ recipe_generator.generate_recipe api_key service json_loads ingredients_
           cuisine_type dietary_restrictions
         = Returned
             (match api_key with
              | EmptyString => recipe_generator.Fallback fallback
              | String _ _ =>
                  match service (recipe_generator.build_prompt ingredients_
                                   cuisine_type dietary_restrictions) with
                  | Raised _ => recipe_generator.Fallback fallback
                  | Returned answer =>
                      match recipe_generator._extract_json_from_text json_loads
                              answer with
                      | Returned recipe => recipe_generator.FromService recipe
                      | Raised _ => recipe_generator.Fallback fallback
                      end
                  end
              end).
Proof.
  intros J api_key service json_loads ingredients_ cuisine_type dietary_restrictions.
  destruct (fallback_returns ingredients_) as [t [_ Hf]].
  eexists. split; [exact Hf|].
  unfold recipe_generator.generate_recipe, recipe_generator._generate_with_openai.
  rewrite Hf. destruct api_key as [|c k]; cbn [bind]; [reflexivity|].
  destruct (service _) as [answer|exn]; cbn [bind]; [|reflexivity].
  destruct (recipe_generator._extract_json_from_text json_loads answer);
    reflexivity.
Qed.

(** X17: whatever [str.lower] does to the names, [generate_shopping_list]
    keeps, in the recipe's order, the ingredients whose lower-cased name
    is the lower-cased name of no available ingredient; with nothing
    available it is the whole ingredient list, and for a fallback recipe
    checked against the very ingredients it was made from it is empty.
    On ASCII names, where [str.lower] folds the letters A to Z and nothing
    else: of Salt, MILK, a@b and Pepper, with milk, A`B and 'PEPPER '
    (blank at the end) at hand, only MILK is dropped. *)
Theorem X17_shopping_list :
  forall (str_lower : string -> string)
         (recipe_ingredients : list recipe_generator.ingredient_entry)
         (available : list string),
    let required :=
      map (fun ing => match ing with
                      | recipe_generator.AsDict i => recipe_generator.item i
                      | recipe_generator.AsText s => s
                      end) recipe_ingredients in
    let out :=
      recipe_generator.generate_shopping_list str_lower recipe_ingredients
        available in
    (forall x, In x out
               <-> In x required
                   /\ forall a, In a available -> str_lower a <> str_lower x)
    /\ (exists keep, out = filter keep required)
    /\ recipe_generator.generate_shopping_list str_lower recipe_ingredients []
       = required
    /\ (forall ingredients_ r,
          recipe_generator._generate_fallback_recipe ingredients_ = Returned r ->
          recipe_generator.generate_shopping_list str_lower
            (map recipe_generator.AsDict (recipe_generator.ingredients r))
            ingredients_ = [])
    /\ recipe_generator.generate_shopping_list recipe_generator.lower
         [ recipe_generator.AsText "Salt";
           recipe_generator.AsDict
             {| recipe_generator.item := "MILK"; recipe_generator.amount := "1";
                recipe_generator.unit_ := "cup" |};
           recipe_generator.AsText "a@b";
           recipe_generator.AsText "Pepper" ]
         [ "milk"; "A`B"; "PEPPER " ]
       = [ "Salt"; "a@b"; "Pepper" ].
Proof.
  intros str_lower recipe_ingredients available required out.
  assert (Hin : forall (req : list recipe_generator.ingredient_entry) avail x,
             In x (recipe_generator.generate_shopping_list str_lower req avail)
             <-> In x (map (fun ing => match ing with
                                       | recipe_generator.AsDict i =>
                                           recipe_generator.item i
                                       | recipe_generator.AsText s => s
                                       end) req)
                 /\ forall a, In a avail -> str_lower a <> str_lower x).
  { intros req avail x. unfold recipe_generator.generate_shopping_list.
    rewrite filter_In, negb_true_iff. split; intros [Hx Hno]; (split; [exact Hx|]).
    - intros a Ha E.
      assert (Hex : existsb (String.eqb (str_lower x)) (map str_lower avail) = true).
      { apply existsb_exists. exists (str_lower a).
        split; [apply in_map, Ha | apply String.eqb_eq; congruence]. }
      congruence.
    - apply not_true_is_false. intros Hex.
      apply existsb_exists in Hex as [y [Hy E]].
      apply in_map_iff in Hy as [a [<- Ha]]. apply String.eqb_eq in E.
      apply (Hno a Ha). congruence. }
  split; [apply Hin|]. split; [eexists; reflexivity|]. split; [|split].
  - unfold recipe_generator.generate_shopping_list. cbn [map existsb negb].
    apply filter_all_true. reflexivity.
  - intros ingredients_ r Hr.
    destruct (recipe_generator.generate_shopping_list str_lower
                (map recipe_generator.AsDict (recipe_generator.ingredients r))
                ingredients_) as [|x xs] eqn:E; [reflexivity|]. exfalso.
    assert (Hx : In x (recipe_generator.generate_shopping_list str_lower
                         (map recipe_generator.AsDict (recipe_generator.ingredients r))
                         ingredients_)) by (rewrite E; left; reflexivity).
    apply Hin in Hx as [Hx Hno].
    destruct (fallback_returns ingredients_) as [t [_ Hf]].
    rewrite Hf in Hr. injection Hr as <-.
    cbn [recipe_generator.ingredients] in Hx.
    rewrite !map_map in Hx. cbn [recipe_generator.item] in Hx. rewrite map_id in Hx.
    apply (Hno x Hx). reflexivity.
  - reflexivity.
Qed.

(** X18: the template the fallback picks depends on the ingredient names
    only up to their order and their letter case. *)
Theorem X18_fallback_template_ignores_order_and_case :
  forall (l l' : list string),
    Permutation (map recipe_generator.lower l) (map recipe_generator.lower l') ->
    exists r r',
      recipe_generator._generate_fallback_recipe l = Returned r
      /\ recipe_generator._generate_fallback_recipe l' = Returned r'
      /\ recipe_generator.template r = recipe_generator.template r'.
Proof.
  intros l l' Hperm.
  destruct (fallback_returns l) as [t [Ht Hf]].
  destruct (fallback_returns l') as [t' [Ht' Hf']].
  eexists _, _. split; [exact Hf|]. split; [exact Hf'|].
  cbn [recipe_generator.template].
  assert (Hv : recipe_generator.has_vegetables l = recipe_generator.has_vegetables l').
  { rewrite !has_vegetables_lower. apply existsb_perm, Hperm. }
  assert (Hp : recipe_generator.has_protein l = recipe_generator.has_protein l').
  { rewrite !has_protein_lower. apply existsb_pointwise. intros prot.
    apply existsb_perm, Hperm. }
  assert (Hlen : List.length l = List.length l').
  { apply Permutation_length in Hperm. rewrite !length_map in Hperm. exact Hperm. }
  rewrite Hv, Hp, Hlen in Ht. rewrite Ht in Ht'. congruence.
Qed.

(** Carrots and lettuce, in either order and any case, give the salad. *)
Lemma X18_salad_either_way :
  exists r r',
    recipe_generator._generate_fallback_recipe ["Carrot"; "LETTUCE"] = Returned r
    /\ recipe_generator._generate_fallback_recipe ["lettuce"; "CARROT"] = Returned r'
    /\ recipe_generator.template r = recipe_generator.template r'.
Proof.
  apply (@X18_fallback_template_ignores_order_and_case
           ["Carrot"; "LETTUCE"] ["lettuce"; "CARROT"]).
  cbn. apply perm_swap.
Defined.

(* ================================================================== *)
(** ** The detector's categories and estimated dates *)

Section Detector.
Import food_detector.

Lemma shelf_life_bounds (category : string) :
  2 <= dict_get config.DEFAULT_SHELF_LIFE category 7 <= 180.
Proof.
  unfold config.DEFAULT_SHELF_LIFE. cbn [dict_get].
  repeat match goal with
         | |- context [String.eqb ?a ?b] => destruct (String.eqb a b)
         end; lia.
Qed.

Lemma shelf_life_unknown (d : list (string * Z)) (category : string) (default : Z) :
  ~ In category (map fst d) -> dict_get d category default = default.
Proof.
  induction d as [|[k v] d IH]; cbn [dict_get map fst In]; intros H.
  - reflexivity.
  - destruct (String.eqb_spec k category) as [E|_].
    + exfalso. apply H. left. exact E.
    + apply IH. intros Hin. apply H. right. exact Hin.
Qed.

Lemma strftime_add_days (t n : Z) :
  datetime.strftime_Ymd (datetime.add_days t n) = datetime.strftime_Ymd t + n.
Proof.
  unfold datetime.strftime_Ymd, datetime.add_days.
  apply Z.div_add. pose proof US_PER_DAY_pos. lia.
Qed.

End Detector.

(** X19: whatever [str.lower] does to the name, [_categorize_food] answers
    with one of six names, each of them a member of [FOOD_CATEGORIES] with
    a shelf life of its own in [DEFAULT_SHELF_LIFE]; the five word lists
    are tried in the order vegetables, fruits, dairy, meat, seafood, and
    the first list with a word occurring in the lower-cased name decides;
    'Others' is the answer exactly when no word of any list occurs; two
    names with the same lower-cased text get the same answer.  On ASCII
    names: 'Butter Chicken' is Dairy, 'TUNA and beef' is Meat, 'Crab
    apple' and 'Pineapple' are Fruits, 'Tomato cream soup' is Vegetables,
    'SHRIMP' is Seafood, 'Ice cream' is Dairy and 'Tofu' is Others. *)
Theorem X19_categorize_food :
  forall (str_lower : string -> string) (food_name : string),
    let s := str_lower food_name in
    let c := food_detector._categorize_food str_lower food_name in
    let lists :=
      [ (food_detector.vegetables, "Vegetables");
        (food_detector.fruits, "Fruits");
        (food_detector.dairy, "Dairy");
        (food_detector.meat, "Meat");
        (food_detector.seafood, "Seafood") ] in
    In c ["Vegetables"; "Fruits"; "Dairy"; "Meat"; "Seafood"; "Others"]
    /\ In c config.FOOD_CATEGORIES
    /\ (exists shelf_life,
          In (c, shelf_life) config.DEFAULT_SHELF_LIFE
          /\ 2 <= shelf_life <= 7
          /\ forall default,
               food_detector.dict_get config.DEFAULT_SHELF_LIFE c default = shelf_life)
    /\ (forall words,
          food_detector.mentions words s = true
          <-> exists w, In w words /\ recipe_generator.contains w s = true)
    /\ (forall earlier words cat later,
          lists = earlier ++ (words, cat) :: later ->
          (forall p, In p earlier -> food_detector.mentions (fst p) s = false) ->
          food_detector.mentions words s = true ->
          c = cat)
    /\ (c = "Others"
        <-> forall p, In p lists -> food_detector.mentions (fst p) s = false)
    /\ (forall other, str_lower other = s ->
                      food_detector._categorize_food str_lower other = c)
    /\ map (food_detector._categorize_food recipe_generator.lower)
           [ "Butter Chicken"; "TUNA and beef"; "Crab apple"; "Pineapple";
             "Tomato cream soup"; "SHRIMP"; "Ice cream"; "Tofu" ]
       = [ "Dairy"; "Meat"; "Fruits"; "Fruits"; "Vegetables"; "Seafood"; "Dairy";
           "Others" ].
Proof.
  intros str_lower food_name s c lists.
  assert (Hc : c = if food_detector.mentions food_detector.vegetables s
                   then "Vegetables"
                   else if food_detector.mentions food_detector.fruits s
                   then "Fruits"
                   else if food_detector.mentions food_detector.dairy s
                   then "Dairy"
                   else if food_detector.mentions food_detector.meat s
                   then "Meat"
                   else if food_detector.mentions food_detector.seafood s
                   then "Seafood"
                   else "Others") by reflexivity.
  clearbody c.
  split; [|split; [|split; [|split; [|split; [|split; [|split]]]]]].
  - rewrite Hc. repeat match goal with
                       | |- context [if ?b then _ else _] => destruct b
                       end; cbn; tauto.
  - rewrite Hc. repeat match goal with
                       | |- context [if ?b then _ else _] => destruct b
                       end; cbn; tauto.
  - rewrite Hc. repeat match goal with
                       | |- context [if ?b then _ else _] => destruct b
                       end;
      (eexists; split; [cbn; tauto|]; split; [lia|]; intros; reflexivity).
  - intros words. unfold food_detector.mentions. rewrite existsb_exists.
    reflexivity.
  - intros earlier words cat later Heq Hno Hyes. subst lists.
    destruct earlier as [|p1 earlier]; cbn [app] in Heq.
    { injection Heq as <- <- _. rewrite Hc, Hyes. reflexivity. }
    injection Heq as <- Heq.
    pose proof (Hno _ (or_introl eq_refl)) as H1. cbn [fst] in H1.
    destruct earlier as [|p2 earlier]; cbn [app] in Heq.
    { injection Heq as <- <- _. rewrite Hc, H1, Hyes. reflexivity. }
    injection Heq as <- Heq.
    pose proof (Hno _ (or_intror (or_introl eq_refl))) as H2. cbn [fst] in H2.
    destruct earlier as [|p3 earlier]; cbn [app] in Heq.
    { injection Heq as <- <- _. rewrite Hc, H1, H2, Hyes. reflexivity. }
    injection Heq as <- Heq.
    pose proof (Hno _ (or_intror (or_intror (or_introl eq_refl)))) as H3.
    cbn [fst] in H3.
    destruct earlier as [|p4 earlier]; cbn [app] in Heq.
    { injection Heq as <- <- _. rewrite Hc, H1, H2, H3, Hyes. reflexivity. }
    injection Heq as <- Heq.
    pose proof (Hno _ (or_intror (or_intror (or_intror (or_introl eq_refl)))))
      as H4.
    cbn [fst] in H4.
    destruct earlier as [|p5 earlier]; cbn [app] in Heq.
    { injection Heq as <- <- _. rewrite Hc, H1, H2, H3, H4, Hyes. reflexivity. }
    injection Heq as _ Heq. destruct earlier; discriminate Heq.
  - subst lists. split.
    + intros Ho p Hp. rewrite Hc in Ho.
      destruct (food_detector.mentions food_detector.vegetables s) eqn:E1;
        [discriminate|].
      destruct (food_detector.mentions food_detector.fruits s) eqn:E2;
        [discriminate|].
      destruct (food_detector.mentions food_detector.dairy s) eqn:E3;
        [discriminate|].
      destruct (food_detector.mentions food_detector.meat s) eqn:E4;
        [discriminate|].
      destruct (food_detector.mentions food_detector.seafood s) eqn:E5;
        [discriminate|].
      destruct Hp as [<-|[<-|[<-|[<-|[<-|[]]]]]]; cbn [fst]; assumption.
    + intros H. rewrite Hc.
      pose proof (H (food_detector.vegetables, "Vegetables")) as H1.
      pose proof (H (food_detector.fruits, "Fruits")) as H2.
      pose proof (H (food_detector.dairy, "Dairy")) as H3.
      pose proof (H (food_detector.meat, "Meat")) as H4.
      pose proof (H (food_detector.seafood, "Seafood")) as H5.
      cbn [fst] in H1, H2, H3, H4, H5.
      rewrite H1, H2, H3, H4, H5 by (cbn; tauto). reflexivity.
  - intros other Ho. rewrite Hc. unfold food_detector._categorize_food.
    cbn zeta. rewrite Ho. reflexivity.
  - vm_compute. reflexivity.
Qed.

(** X20: [estimate_expiry_date] adds the category's shelf life (between 2
    and 180 days, 7 for a category [DEFAULT_SHELF_LIFE] does not list) to
    the storage date, so the ['%Y-%m-%d'] text stored for it names the day
    that many days after the storage day.  Read back by the classifier at
    the moment of the estimate, such a date counts one day less than the
    shelf life, unless the estimate was made exactly at midnight: the
    difference is taken from now to the midnight that starts the expiry
    day.  A 'Seafood' estimate (2 days) therefore starts in the critical
    tier of [ALERT_THRESHOLDS]. *)
Theorem X20_estimated_date_day_count :
  forall (clk : Clock) (category : string),
    let shelf_life := food_detector.dict_get config.DEFAULT_SHELF_LIFE category 7 in
    let stored :=
      datetime.strftime_Ymd (food_detector.estimate_expiry_date clk category None) in
    2 <= shelf_life <= 180
    /\ (~ In category (map fst config.DEFAULT_SHELF_LIFE) -> shelf_life = 7)
    /\ (forall storage_date,
          datetime.strftime_Ymd
            (food_detector.estimate_expiry_date clk category (Some storage_date))
          = datetime.strftime_Ymd storage_date + shelf_life)
    /\ stored = datetime.strftime_Ymd (now clk) + shelf_life
    /\ expiry_tracker.days_until_expiry (now clk) stored
       = (if now clk mod datetime.US_PER_DAY =? 0 then shelf_life
          else shelf_life - 1)
    /\ (category = "Seafood" -> now clk mod datetime.US_PER_DAY <> 0 ->
        spec.tier config.ALERT_THRESHOLDS
                  (expiry_tracker.days_until_expiry (now clk) stored)
        = spec.Critical).
Proof.
  intros clk category shelf_life stored.
  pose proof US_PER_DAY_pos as Hpos.
  assert (Hstored : stored = datetime.strftime_Ymd (now clk) + shelf_life).
  { subst stored. unfold food_detector.estimate_expiry_date.
    apply strftime_add_days. }
  assert (Hdays : expiry_tracker.days_until_expiry (now clk) stored
                  = if now clk mod datetime.US_PER_DAY =? 0 then shelf_life
                    else shelf_life - 1).
  { rewrite Hstored, days_until_expiry_eq. unfold datetime.strftime_Ymd.
    pose proof (Z.div_mod (now clk) datetime.US_PER_DAY ltac:(lia)) as Hdm.
    pose proof (Z.mod_pos_bound (now clk) datetime.US_PER_DAY Hpos) as Hm.
    set (q := now clk / datetime.US_PER_DAY) in *.
    set (r := now clk mod datetime.US_PER_DAY) in *.
    destruct (Z.eqb_spec r 0) as [Hr|Hr].
    - replace ((q + shelf_life) * datetime.US_PER_DAY - now clk)
        with (shelf_life * datetime.US_PER_DAY) by lia.
      apply Z.div_mul. lia.
    - replace ((q + shelf_life) * datetime.US_PER_DAY - now clk)
        with ((datetime.US_PER_DAY - r) + (shelf_life - 1) * datetime.US_PER_DAY)
        by lia.
      rewrite Z.div_add by lia. rewrite Z.div_small by lia. lia. }
  split; [apply shelf_life_bounds|].
  split; [apply shelf_life_unknown|].
  split; [intros storage_date; apply strftime_add_days|].
  split; [exact Hstored|]. split; [exact Hdays|].
  intros Hcat Hmid. rewrite Hdays.
  destruct (Z.eqb_spec (now clk mod datetime.US_PER_DAY) 0) as [E|_];
    [contradiction|].
  subst shelf_life. rewrite Hcat. reflexivity.
Qed.

(* ================================================================== *)
(** ** The operations of [SmartFridgeAI] *)

Section Main.
Import database expiry_tracker spec notions main.

Variable self : ExpiryTracker.
Variable clk : Clock.

(** The alert manager has no desktop notifier: the lookup raises. *)
Lemma getattr_notifier :
  getattr AlertManager_attributes "_send_desktop_notification"
  = Raised "AttributeError".
Proof. reflexivity. Qed.

Lemma for_each_notify (l : list UnreadAlert) (sent : list (string * string)) :
  for_each notify_critical l sent
  = (sent, match l with [] => None | _ :: _ => Some "AttributeError" end).
Proof.
  destruct l as [|u l]; [reflexivity|].
  cbn [for_each]. unfold notify_critical. rewrite getattr_notifier. reflexivity.
Qed.

Lemma check_and_alert_eq (db : DB) :
  check_and_alert self clk db
  = (generate_alerts self clk db,
     match filter (fun a => String.eqb (alert_level (ua_alert a)) "critical")
                  (get_unread_alerts (fst (generate_alerts self clk db))) with
     | [] => Completed
     | _ :: _ => Failed "AttributeError"
     end).
Proof.
  unfold check_and_alert.
  destruct (generate_alerts self clk db) as [db1 sent]; cbn [fst].
  destruct (filter _ (get_unread_alerts db1)) as [|u l] eqn:E.
  - reflexivity.
  - change config.ENABLE_DESKTOP_NOTIFICATIONS with true. cbn iota.
    rewrite for_each_notify. reflexivity.
Qed.

(** A pass changes no id, with or without distinct ids. *)
Lemma pass_keeps_ids (db : DB) :
  map id (food_items (snd (check_expiry_status self clk db)))
  = map id (food_items db).
Proof.
  rewrite check_expiry_status_fold; cbn [snd]. rewrite expire_fold.
  cbn [food_items]. rewrite map_map. apply map_ext. intros r.
  destruct (existsb _ _); reflexivity.
Qed.

(** A summary in the critical group of the pass is listed afterwards as
    an unread critical alert. *)
Lemma critical_found_listed (db : DB) (i : item_info) :
  In i (critical (fst (check_expiry_status self clk db))) ->
  exists u,
    In u (get_unread_alerts (fst (generate_alerts self clk db)))
    /\ alert_level (ua_alert u) = "critical"
    /\ food_item_id (ua_alert u) = info_id i
    /\ message (ua_alert u) = critical_message i.
Proof.
  intros Hi.
  set (g := fst (check_expiry_status self clk db)) in *.
  assert (Hp : In (critical_payload i) (payloads g)).
  { unfold payloads. apply in_or_app. left. apply in_map, Hi. }
  rewrite <- (inserted_payload (utc clk) (alerts_seq db) (payloads g)) in Hp.
  apply in_map_iff in Hp as [a [Hpa Ha]].
  unfold payload, critical_payload in Hpa. injection Hpa as H1 H2 H3 H4.
  destruct (group_source self clk db Critical i Hi) as [it [e [Hit [_ [_ Hmk]]]]].
  assert (Hid : In (info_id i)
                   (map id (food_items (fst (generate_alerts self clk db))))).
  { rewrite generate_alerts_food_items, pass_keeps_ids, Hmk.
    cbn [info_id make_info]. apply in_map, Hit. }
  apply in_map_iff in Hid as [f [Hf Hfin]].
  exists {| ua_alert := a; food_name := name f |}. cbn [ua_alert].
  split; [|auto].
  apply get_unread_alerts_In; cbn [ua_alert food_name]. split.
  - rewrite generate_alerts_alerts. apply in_or_app. right. exact Ha.
  - split.
    + pose proof (inserted_unread (utc clk) (alerts_seq db) (payloads g)) as Hu.
      rewrite Forall_forall in Hu. apply Hu, Ha.
    + exists f. split; [exact Hfin|]. split; [congruence | reflexivity].
Qed.





(** A row is fresh after a pass when it was fresh and not past due. *)
Lemma fresh_after_touch (r : FoodItem) :
  String.eqb (status (touch clk r)) "fresh"
  = String.eqb (status r) "fresh" && negb (past_due (now clk) r).
Proof.
  unfold touch, overdue, past_due.
  destruct (expiry_date r) as [e|]; [|rewrite andb_true_r; reflexivity].
  destruct (days_until_expiry (now clk) e <? 0); cbn [negb].
  - rewrite andb_true_r, andb_false_r.
    destruct (String.eqb_spec (status r) "consumed") as [Hc|Hc]; cbn [negb].
    + rewrite Hc. reflexivity.
    + reflexivity.
  - rewrite andb_false_r, andb_true_r. reflexivity.
Qed.

Lemma count_split (p q : FoodItem -> bool) (rows : list FoodItem) :
  count_rows p rows
  = count_rows (fun r => p r && negb (q r)) rows
    + count_rows (fun r => p r && q r) rows.
Proof.
  unfold count_rows. induction rows as [|r rows IH]; [reflexivity|].
  cbn [filter]. destruct (p r), (q r); cbn [andb negb List.length]; lia.
Qed.

Lemma get_all_items_pass (db : DB) :
  NoDup (map id (food_items db)) ->
  get_all_items false (snd (check_expiry_status self clk db))
  = map (touch clk) (get_all_items false db).
Proof.
  intros Hnd. rewrite <- (get_all_items_after self clk db Hnd).
  unfold get_all_items. rewrite generate_alerts_food_items. reflexivity.
Qed.

End Main.

(** X21: [get_system_status] is not a read-only query: it runs a
    classification pass, which stores every overdue row that is not
    consumed as expired.  Its [total_items] is the number of fresh rows
    counted before that pass, so the report still counts the fresh rows
    the call itself then marks expired; asked again at once, the report
    has lost exactly these, while the critical, warning and unread counts
    are as before (ids distinct, as the primary key has them). *)
Theorem X21_get_system_status_writes :
  forall (self : expiry_tracker.ExpiryTracker) (clk : Clock) (db : database.DB),
    NoDup (map database.id (database.food_items db)) ->
    let report := fst (main.get_system_status self clk db) in
    let db' := snd (main.get_system_status self clk db) in
    let again := fst (main.get_system_status self clk db') in
    let is_fresh := fun r => String.eqb (database.status r) "fresh" in
    database.food_items db' = map (spec.touch clk) (database.food_items db)
    /\ database.alerts db' = database.alerts db
    /\ main.total_items report = notions.count_rows is_fresh (database.food_items db)
    /\ main.total_items again
       = main.total_items report
         - notions.count_rows (fun r => is_fresh r && spec.past_due (now clk) r)
                              (database.food_items db)
    /\ main.critical_alerts again = main.critical_alerts report
    /\ main.warning_alerts again = main.warning_alerts report
    /\ main.unread_alerts again = main.unread_alerts report.
Proof.
  intros self clk db Hnd report db' again is_fresh.
  assert (Hdb' : db' = snd (expiry_tracker.check_expiry_status self clk db)).
  { subst db'. unfold main.get_system_status.
    destruct (expiry_tracker.check_expiry_status self clk db); reflexivity. }
  assert (Hrep : forall d,
             fst (main.get_system_status self clk d)
             = {| main.timestamp := now clk;
                  main.total_items :=
                    database.stat_total_items (database.get_statistics clk d);
                  main.critical_alerts :=
                    Z.of_nat (List.length
                      (expiry_tracker.critical
                         (fst (expiry_tracker.check_expiry_status self clk d))));
                  main.warning_alerts :=
                    Z.of_nat (List.length
                      (expiry_tracker.warning
                         (fst (expiry_tracker.check_expiry_status self clk d))));
                  main.unread_alerts :=
                    database.stat_unread_alerts (database.get_statistics clk d);
                  main.items_by_category :=
                    database.stat_by_category (database.get_statistics clk d) |}).
  { intros d. unfold main.get_system_status.
    destruct (expiry_tracker.check_expiry_status self clk d); reflexivity. }
  assert (Hitems : database.food_items db'
                   = map (spec.touch clk) (database.food_items db)).
  { rewrite Hdb', check_expiry_status_store by exact Hnd. reflexivity. }
  assert (Halerts : database.alerts db' = database.alerts db).
  { rewrite Hdb'. apply (check_expiry_status_alerts self clk db). }
  assert (Hgroups : fst (expiry_tracker.check_expiry_status self clk db')
                    = fst (expiry_tracker.check_expiry_status self clk db)).
  { rewrite !check_expiry_status_fold; cbn [fst].
    rewrite Hdb', get_all_items_pass by exact Hnd.
    rewrite item_infos_touch. reflexivity. }
  split; [exact Hitems|]. split; [exact Halerts|].
  subst report again. rewrite !Hrep.
  cbn [main.total_items main.critical_alerts main.warning_alerts main.unread_alerts].
  rewrite Hgroups.
  unfold database.get_statistics;
    cbn [database.stat_total_items database.stat_unread_alerts].
  rewrite Halerts, Hitems.
  split; [reflexivity|]. split; [|auto].
  fold is_fresh.
  change (Z.of_nat (List.length (filter is_fresh (database.food_items db))))
    with (notions.count_rows is_fresh (database.food_items db)).
  rewrite (count_split is_fresh (spec.past_due (now clk)) (database.food_items db)).
  assert (Hcount : Z.of_nat (List.length
                     (filter is_fresh (map (spec.touch clk) (database.food_items db))))
                   = notions.count_rows
                       (fun r => is_fresh r && negb (spec.past_due (now clk) r))
                       (database.food_items db)).
  { unfold notions.count_rows. f_equal.
    generalize (database.food_items db). intros rows.
    induction rows as [|r rows IH]; [reflexivity|].
    cbn [map filter]. unfold is_fresh at 1. rewrite fresh_after_touch.
    fold (is_fresh r).
    destruct (is_fresh r && negb (spec.past_due (now clk) r));
      cbn [List.length]; rewrite IH; reflexivity. }
  rewrite Hcount. lia.
Qed.

(** The stale store has two fresh rows, both overdue: the first report
    counts two items, the next one none. *)
Lemma X21_stale_reported_once :
  main.total_items (fst (main.get_system_status expiry_tracker.__init__ sample.clk
                           sample.stale)) = 2
  /\ main.total_items
       (fst (main.get_system_status expiry_tracker.__init__ sample.clk
               (snd (main.get_system_status expiry_tracker.__init__ sample.clk
                       sample.stale)))) = 0.
Proof.
  assert (Hnd : NoDup (map database.id (database.food_items sample.stale)))
    by distinct_ids.
  destruct (X21_get_system_status_writes expiry_tracker.__init__ sample.clk
              sample.stale Hnd) as [_ [_ [Hfirst [Hnext _]]]].
  split.
  - rewrite Hfirst. reflexivity.
  - rewrite Hnext, Hfirst. reflexivity.
Defined.

(** X22: [check_and_alert] leaves the store and the notifications exactly
    as [generate_alerts] does, and never sends a 'Critical Food Alert':
    the notifier it calls is looked up on the alert manager, which has no
    such method.  The call therefore ends in the logged AttributeError
    whenever an unread critical alert of an existing item is listed, and
    completes otherwise; it fails in particular whenever its own pass puts
    an item into the critical group. *)
Theorem X22_check_and_alert_fails_on_critical :
  forall (self : expiry_tracker.ExpiryTracker) (clk : Clock) (db : database.DB),
    let world := fst (main.check_and_alert self clk db) in
    let ended := snd (main.check_and_alert self clk db) in
    let listed :=
      filter (fun a => String.eqb (database.alert_level (database.ua_alert a))
                                  "critical")
             (database.get_unread_alerts (fst world)) in
    world = expiry_tracker.generate_alerts self clk db
    /\ (forall m, ~ In ("Critical Food Alert", m) (snd world))
    /\ (listed = [] -> ended = main.Completed)
    /\ (listed <> [] -> ended = main.Failed "AttributeError")
    /\ (expiry_tracker.critical
          (fst (expiry_tracker.check_expiry_status self clk db)) <> [] ->
        ended = main.Failed "AttributeError")
    /\ (forall r e,
          In r (database.food_items db) -> database.status r <> "consumed" ->
          database.expiry_date r = Some e ->
          datetime.to_datetime e < now clk ->
          ended = main.Failed "AttributeError").
Proof.
  intros self clk db world ended listed.
  assert (Hworld : world = expiry_tracker.generate_alerts self clk db).
  { subst world. rewrite check_and_alert_eq. reflexivity. }
  assert (Hended : ended = match listed with
                           | [] => main.Completed
                           | _ :: _ => main.Failed "AttributeError"
                           end).
  { subst ended listed. rewrite Hworld, check_and_alert_eq. reflexivity. }
  assert (Hcrit : forall i,
             In i (expiry_tracker.critical
                     (fst (expiry_tracker.check_expiry_status self clk db))) ->
             ended = main.Failed "AttributeError").
  { intros i Hi.
    destruct (critical_found_listed self clk db i Hi) as [u [Hu [Hl _]]].
    assert (Hin : In u listed).
    { subst listed. rewrite Hworld. apply filter_In. split; [exact Hu|].
      rewrite Hl. reflexivity. }
    rewrite Hended. destruct listed; [destruct Hin | reflexivity]. }
  split; [exact Hworld|]. split.
  { intros m Hin. rewrite Hworld in Hin.
    pose proof (generate_alerts_eq self clk db) as H. cbn zeta in H.
    rewrite H in Hin; cbn [snd] in Hin.
    apply in_map_iff in Hin as [i [Hi _]]. discriminate. }
  split; [intros E; rewrite Hended, E; reflexivity|].
  split; [intros E; rewrite Hended; destruct listed; [contradiction | reflexivity]|].
  split.
  - intros Hne.
    destruct (expiry_tracker.critical
                (fst (expiry_tracker.check_expiry_status self clk db)))
      as [|i l] eqn:E; [contradiction|].
    apply (Hcrit i). try rewrite E. left. reflexivity.
  - intros r e Hr Hs He Hpast.
    apply (Hcrit (expiry_tracker.make_info r e
                    (expiry_tracker.days_until_expiry (now clk) e))).
    rewrite check_expiry_status_fold; cbn [fst].
    change (In (expiry_tracker.make_info r e
                  (expiry_tracker.days_until_expiry (now clk) e))
               (spec.group spec.Critical
                  (spec.grouped (expiry_tracker.alert_thresholds self)
                     expiry_tracker.empty_groups
                     (spec.item_infos (now clk)
                        (database.get_all_items false db))))).
    rewrite grouped_empty, filter_In. split.
    + apply item_infos_In. exists r, e. split; [|auto].
      apply get_all_items_In. split; [exact Hr|]. apply String.eqb_neq, Hs.
    + unfold spec.in_tier, spec.tier;
        cbn [expiry_tracker.days_remaining expiry_tracker.make_info].
      apply days_until_expiry_past in Hpast.
      destruct (Z.ltb_spec (expiry_tracker.days_until_expiry (now clk) e) 0);
        [reflexivity | lia].
Qed.


(* ================================================================== *)
(** ** What no sequence of operations undoes *)

Section History.
Import database expiry_tracker spec notions.

Lemma evolves_expire (clk : Clock) (items : list FoodItem) (db0 db : DB) :
  evolves db0 db -> evolves db0 (fold_left (expire clk) items db).
Proof.
  revert db. induction items as [|it rest IH]; intros db H; [exact H|].
  cbn [fold_left]. apply IH. unfold expire.
  destruct (past_due (now clk) it); [apply ev_update|]; exact H.
Qed.

Lemma evolves_alert_plain (level : string) (clk : Clock) (l : list item_info)
      (db0 db : DB) :
  evolves db0 db -> evolves db0 (fold_left (alert_plain level clk) l db).
Proof.
  revert db. induction l as [|i rest IH]; intros db H; [exact H|].
  cbn [fold_left]. apply IH. unfold alert_plain. apply ev_alert, H.
Qed.

Lemma evolves_alert_critical (clk : Clock) (l : list item_info) (db0 db : DB)
      (sent : list (string * string)) :
  evolves db0 db -> evolves db0 (fst (fold_left (alert_critical clk) l (db, sent))).
Proof.
  revert db sent. induction l as [|i rest IH]; intros db sent H; [exact H|].
  cbn [fold_left]. unfold alert_critical at 2.
  destruct config.ENABLE_DESKTOP_NOTIFICATIONS; apply IH, ev_alert, H.
Qed.

Lemma add_food_item_shape (ts : Z) (d : item_data) (db db' : DB) (i : Z) :
  add_food_item ts d db = Returned (i, db') ->
  exists row,
    food_items db' = food_items db ++ [row]
    /\ id row = food_items_seq db + 1
    /\ food_items_seq db' = food_items_seq db + 1
    /\ alerts db' = alerts db
    /\ alerts_seq db' = alerts_seq db.
Proof.
  unfold add_food_item. destruct (d_name d) as [n|]; [|discriminate].
  intros H. injection H as _ <-. eexists. cbn. repeat split.
Qed.

(** A call of [generate_alerts] is a sequence of status updates and
    alert insertions. *)
Lemma generate_alerts_evolves (self : ExpiryTracker) (clk : Clock) (db : DB) :
  evolves db (fst (generate_alerts self clk db)).
Proof.
  unfold generate_alerts.
  pose proof (check_expiry_status_fold self clk db) as Hpass.
  destruct (check_expiry_status self clk db) as [g db1].
  injection Hpass as _ Hdb1.
  pose proof (evolves_alert_critical clk (critical g) (db0 := db) (db := db1) [])
    as Hc.
  destruct (fold_left (alert_critical clk) (critical g) (db1, [])) as [db2 sent].
  cbn [fst] in *.
  apply evolves_alert_plain, evolves_alert_plain, Hc.
  rewrite Hdb1. apply evolves_expire, ev_refl.
Qed.

End History.

(** X24: whatever operations of the store follow one another (adding an
    item, updating a status, inserting an alert, marking one read,
    deleting an item), both id counters only grow; the alerts that were
    there stay, in place and unchanged except that an unread one may have
    become read, never the reverse, and the alerts after them carry ids
    above the old counter; an item id at or below the old counter is one
    that was in the table before, so the id of a deleted item is never
    given out again; and the key constraint of the items is kept. *)
Theorem X24_store_history :
  forall (db0 db : database.DB),
    notions.evolves db0 db ->
    database.food_items_seq db0 <= database.food_items_seq db
    /\ database.alerts_seq db0 <= database.alerts_seq db
    /\ (exists olds news,
          database.alerts db = olds ++ news
          /\ Forall2 (fun a b =>
                        spec.payload b = spec.payload a
                        /\ database.alert_id b = database.alert_id a
                        /\ database.created_date b = database.created_date a
                        /\ (database.is_read a = true -> database.is_read b = true))
                     (database.alerts db0) olds
          /\ Forall (fun a => database.alerts_seq db0 < database.alert_id a
                              <= database.alerts_seq db) news)
    /\ (forall r, In r (database.food_items db) ->
                  database.id r <= database.food_items_seq db0 ->
                  In (database.id r) (map database.id (database.food_items db0)))
    /\ (database.primary_key_ok db0 -> database.primary_key_ok db).
Proof.
  intros db0 db H.
  induction H as [db|ts d db0 db i db' _ IH Hadd|ts i s db0 db _ IH
                  |ts i t l m db0 db _ IH|a db0 db _ IH|i db0 db _ IH].
  - split; [lia|]. split; [lia|]. split; [|split; [|auto]].
    + exists (database.alerts db), []. rewrite app_nil_r.
      split; [reflexivity|]. split; [|constructor].
      induction (database.alerts db) as [|x xs IHx]; constructor; auto.
    + intros r Hr _. apply in_map, Hr.
  - destruct IH as [I1 [I2 [[olds [news [I3 [I4 I5]]]] [I6 I7]]]].
    destruct (add_food_item_shape ts d db Hadd) as [row [A1 [A2 [A3 [A4 A5]]]]].
    rewrite A1, A3, A4, A5.
    split; [lia|]. split; [exact I2|]. split; [|split].
    + exists olds, news. auto.
    + intros r Hr Hle. apply in_app_or in Hr as [Hr|[<-|[]]].
      * apply I6; assumption.
      * lia.
    + intros Hok. specialize (I7 Hok).
      destruct (add_food_item_ok ts d I7 Hadd) as [Hok' _]. exact Hok'.
  - destruct IH as [I1 [I2 [[olds [news [I3 [I4 I5]]]] [I6 I7]]]].
    cbn [database.update_item_status database.food_items database.food_items_seq
         database.alerts database.alerts_seq].
    split; [exact I1|]. split; [exact I2|]. split; [|split].
    + exists olds, news. auto.
    + intros r Hr Hle. apply in_map_iff in Hr as [r0 [Hr0 Hin]].
      assert (Hid : database.id r = database.id r0)
        by (subst r; destruct (database.id r0 =? i); reflexivity).
      rewrite Hid in *. apply I6; assumption.
    + intros Hok. apply update_item_status_ok, I7, Hok.
  - destruct IH as [I1 [I2 [[olds [news [I3 [I4 I5]]]] [I6 I7]]]].
    cbn [database.create_alert database.food_items database.food_items_seq
         database.alerts database.alerts_seq].
    split; [exact I1|]. split; [lia|]. split; [|split; [exact I6 | exact I7]].
    eexists olds, (news ++ [_]). rewrite I3, <- app_assoc.
    split; [reflexivity|]. split; [exact I4|].
    apply Forall_app. split.
    + eapply Forall_impl; [|exact I5]. cbn beta. intros x Hx. lia.
    + repeat constructor; cbn [database.alert_id]; lia.
  - destruct IH as [I1 [I2 [[olds [news [I3 [I4 I5]]]] [I6 I7]]]].
    cbn [database.mark_alert_as_read database.food_items database.food_items_seq
         database.alerts database.alerts_seq].
    split; [exact I1|]. split; [exact I2|]. split; [|split; [exact I6 | exact I7]].
    rewrite I3, map_app. eexists _, _. split; [reflexivity|]. split.
    + clear -I4. induction I4 as [|x y xs ys Hxy _ IHxy]; cbn [map];
        constructor; [|exact IHxy].
      destruct Hxy as [H1 [H2 [H3 H4]]].
      destruct (database.alert_id y =? a); [|auto].
      unfold spec.payload in *. cbn. auto.
    + apply Forall_map. eapply Forall_impl; [|exact I5]. cbn beta.
      intros x Hx. destruct (database.alert_id x =? a); exact Hx.
  - destruct IH as [I1 [I2 [[olds [news [I3 [I4 I5]]]] [I6 I7]]]].
    cbn [database.delete_item database.food_items database.food_items_seq
         database.alerts database.alerts_seq].
    split; [exact I1|]. split; [exact I2|]. split; [|split].
    + exists olds, news. auto.
    + intros r Hr Hle. apply filter_In in Hr as [Hr _]. apply I6; assumption.
    + intros Hok. apply delete_item_ok, I7, Hok.
Qed.

(** A call of [generate_alerts] on the fridge is such a sequence: the
    alerts it finds stay in front of the ones it adds. *)
Lemma X24_fridge_after_alerts :
  exists olds news,
    database.alerts (fst (expiry_tracker.generate_alerts expiry_tracker.__init__
                            sample.clk
                            (fst (expiry_tracker.generate_alerts
                                    expiry_tracker.__init__ sample.clk sample.fridge))))
    = olds ++ news
    /\ List.length olds = 5%nat.
Proof.
  destruct (X24_store_history
              (generate_alerts_evolves expiry_tracker.__init__ sample.clk
                 (fst (expiry_tracker.generate_alerts expiry_tracker.__init__
                         sample.clk sample.fridge))))
    as [_ [_ [[olds [news [Heq [Hold _]]]] _]]].
  exists olds, news. split; [exact Heq|].
  apply Forall2_length in Hold. rewrite <- Hold. reflexivity.
Defined.

(* ================================================================== *)
(** ** The alert summary *)

Section Summary.
Import database expiry_tracker spec.

Lemma append_assoc (a b c : string) : ((a ++ b) ++ c = a ++ (b ++ c))%string.
Proof.
  induction a as [|ch a IH]; cbn [append]; [reflexivity|].
  rewrite IH. reflexivity.
Qed.

Lemma summary_fold (l : list UnreadAlert) (html : string) :
  fold_left (fun html a => (html ++ summary_item a)%string) l html
  = (html ++ fold_right (fun a s => (summary_item a ++ s)%string) EmptyString l)%string.
Proof.
  revert html. induction l as [|a l IH]; intros html; cbn [fold_left fold_right].
  - induction html as [|c h IHh]; cbn [append]; [reflexivity|].
    rewrite <- IHh. reflexivity.
  - rewrite IH, append_assoc. reflexivity.
Qed.

(** The levels [generate_alerts] writes all have a colour of their own. *)
Lemma payload_levels (g : status_groups) (p : Z * string * string * string) :
  In p (payloads g) ->
  In (snd (fst p)) ["critical"; "warning"; "normal"].
Proof.
  unfold payloads. intros H.
  apply in_app_or in H as [H|H]; [|apply in_app_or in H as [H|H]];
    apply in_map_iff in H as [i [<- _]]; cbn; auto.
Qed.

End Summary.

(** X25: [get_alert_summary] says 'No active alerts' exactly when no
    unread alert belongs to an item that is still in the table (unread
    alerts of deleted items do not count); otherwise it is the heading,
    one list entry per row of [get_unread_alerts] in that order, and the
    closing tag.  Every alert [generate_alerts] inserts gets one of the
    three colours, never the gray of an unknown level. *)
Theorem X25_alert_summary :
  forall (db : database.DB),
    let listing := database.get_unread_alerts db in
    (expiry_tracker.get_alert_summary db = "<p>No active alerts</p>"
     <-> forall a, In a (database.alerts db) -> database.is_read a = false ->
                   ~ In (database.food_item_id a)
                        (map database.id (database.food_items db)))
    /\ (listing <> [] ->
        expiry_tracker.get_alert_summary db
        = ("<h3>Active Alerts</h3><ul>"
             ++ fold_right (fun a s => (expiry_tracker.summary_item a ++ s)%string)
                           "</ul>" listing)%string)
    /\ (forall self clk a,
          In a (spec.inserted (utc clk) (database.alerts_seq db)
                  (spec.payloads
                     (fst (expiry_tracker.check_expiry_status self clk db)))) ->
          In (expiry_tracker.level_color (database.alert_level a))
             ["red"; "orange"; "blue"]).
Proof.
  intros db listing.
  assert (Hshape : listing <> [] ->
            expiry_tracker.get_alert_summary db
            = ("<h3>Active Alerts</h3><ul>"
                 ++ fold_right (fun a s => (expiry_tracker.summary_item a ++ s)%string)
                               "</ul>" listing)%string).
  { intros Hne. unfold expiry_tracker.get_alert_summary. fold listing.
    destruct listing as [|u l]; [contradiction|].
    rewrite summary_fold, append_assoc. f_equal.
    generalize (u :: l). intros l'. induction l' as [|x xs IH]; cbn [fold_right].
    - reflexivity.
    - rewrite append_assoc, IH. reflexivity. }
  assert (Hempty : listing = []
                   <-> forall a, In a (database.alerts db) ->
                                 database.is_read a = false ->
                                 ~ In (database.food_item_id a)
                                      (map database.id (database.food_items db))).
  { split.
    - intros E a Ha Hr Hin. apply in_map_iff in Hin as [f [Hid Hf]].
      assert (Hu : In {| database.ua_alert := a;
                         database.food_name := database.name f |} listing).
      { apply get_unread_alerts_In. cbn. split; [exact Ha|].
        split; [exact Hr|]. exists f. auto. }
      rewrite E in Hu. destruct Hu.
    - intros H. destruct listing as [|u l] eqn:E; [reflexivity|]. exfalso.
      assert (Hu : In u (database.get_unread_alerts db))
        by (fold listing; rewrite E; left; reflexivity).
      apply get_unread_alerts_In in Hu as [Ha [Hr [f [Hf [Hid _]]]]].
      apply (H _ Ha Hr). rewrite <- Hid. apply in_map, Hf. }
  split; [|split; [exact Hshape|]].
  - rewrite <- Hempty. split.
    + intros Hs. destruct listing as [|u l] eqn:E; [reflexivity|]. exfalso.
      rewrite Hshape in Hs by discriminate. cbn [append] in Hs. discriminate Hs.
    + intros E. unfold expiry_tracker.get_alert_summary. fold listing.
      rewrite E. reflexivity.
  - intros self clk a Ha.
    assert (Hp : In (spec.payload a)
                    (spec.payloads
                       (fst (expiry_tracker.check_expiry_status self clk db)))).
    { rewrite <- (inserted_payload (utc clk) (database.alerts_seq db)
                    (spec.payloads
                       (fst (expiry_tracker.check_expiry_status self clk db)))).
      apply in_map, Ha. }
    apply payload_levels in Hp. cbn [spec.payload fst snd] in Hp.
    destruct Hp as [<-|[<-|[<-|[]]]]; cbn; auto.
Qed.
